(** * The simulated link-layer controller of test_vendor_lib

    A shallow embedding of
    [system/vendor_libs/test_vendor_lib/model/controller/link_layer_controller.cc]
    and the properties of [LinkLayerController] that follow from it.

    The controller is a single-threaded object that mutates its members and
    talks to four registered channels ([send_event_], [send_acl_],
    [send_to_remote_], [schedule_task_]).  It is embedded as a state-and-abort
    monad over one record holding the members and, next to them, what each
    channel has received so far. *)

From Stdlib Require Import ZArith QArith Qround Lia String Ascii List.
From stdpp Require Import base list gmap strings.
Import ListNotations.

Close Scope Q_scope.
Open Scope Z_scope.

(** ** Addresses and enumerations of [bluetooth::hci] *)

(** A 48-bit device address.  The number is read most significant octet
    first, the order in which [ToString] prints the six octets. *)
Definition Address : Type := Z.

Definition kEmpty : Address := 0.

Definition hex_digit (n : Z) : ascii :=
  nth (Z.to_nat n) (list_ascii_of_string "0123456789abcdef") "?"%char.

Definition hex_octet (b : Z) : string :=
  String (hex_digit (Z.shiftr b 4)) (String (hex_digit (Z.land b 15)) EmptyString).

Definition octet (a : Address) (k : Z) : Z := Z.land (Z.shiftr a (8 * k)) 255.

(** [Address::ToString]: six lower-case hexadecimal octets joined by colons. *)
Definition ToString (a : Address) : string :=
  (hex_octet (octet a 5) +:+ ":" +:+ hex_octet (octet a 4) +:+ ":" +:+
   hex_octet (octet a 3) +:+ ":" +:+ hex_octet (octet a 2) +:+ ":" +:+
   hex_octet (octet a 1) +:+ ":" +:+ hex_octet (octet a 0))%string.

Arguments ToString : simpl never.

Module AddressType.
Inductive t :=
| PUBLIC_DEVICE_ADDRESS
| RANDOM_DEVICE_ADDRESS
| PUBLIC_IDENTITY_ADDRESS
| RANDOM_IDENTITY_ADDRESS.

(** [static_cast<uint8_t>]: the enumerators in their order, from 0. *)
Definition to_uint8 (x : t) : Z :=
  match x with
  | PUBLIC_DEVICE_ADDRESS => 0
  | RANDOM_DEVICE_ADDRESS => 1
  | PUBLIC_IDENTITY_ADDRESS => 2
  | RANDOM_IDENTITY_ADDRESS => 3
  end.
End AddressType.

(** [AddressWithType]; the type octet is kept as the [uint8_t] the
    controller casts into the enumeration. *)
Record AddressWithType := {
  GetAddress : Address;
  GetAddressType : Z
}.

Module Phy.
Inductive Type_ := BR_EDR | LOW_ENERGY.
End Phy.

Module ErrorCode.
Inductive t :=
| SUCCESS
| UNKNOWN_HCI_COMMAND
| UNKNOWN_CONNECTION
| AUTHENTICATION_FAILURE
| PIN_OR_KEY_MISSING
| COMMAND_DISALLOWED
| INVALID_HCI_COMMAND_PARAMETERS
| CONNECTION_TERMINATED_BY_LOCAL_HOST
| INVALID_LMP_OR_LL_PARAMETERS
| ENCRYPTION_MODE_NOT_ACCEPTABLE
| CONTROLLER_BUSY.
End ErrorCode.

Module PacketBoundaryFlag.
Inductive t :=
| FIRST_NON_AUTOMATICALLY_FLUSHABLE
| CONTINUING_FRAGMENT
| FIRST_AUTOMATICALLY_FLUSHABLE
| COMPLETE_PDU.

Definition eqb (x y : t) : bool :=
  match x, y with
  | FIRST_NON_AUTOMATICALLY_FLUSHABLE, FIRST_NON_AUTOMATICALLY_FLUSHABLE
  | CONTINUING_FRAGMENT, CONTINUING_FRAGMENT
  | FIRST_AUTOMATICALLY_FLUSHABLE, FIRST_AUTOMATICALLY_FLUSHABLE
  | COMPLETE_PDU, COMPLETE_PDU => true
  | _, _ => false
  end.
End PacketBoundaryFlag.

Module BroadcastFlag.
Inductive t := POINT_TO_POINT | ACTIVE_SLAVE_BROADCAST.
End BroadcastFlag.

(** [EncryptionEnabled] as the octet the controller casts into it. *)
Module EncryptionEnabled.
Definition OFF : Z := 0.
Definition ON : Z := 1.
End EncryptionEnabled.

Module Enable.
Inductive t := DISABLED | ENABLED.
End Enable.

Module KeyType.
Inductive t := AUTHENTICATED_P256.
End KeyType.

Module PairingType.
Inductive t :=
| AUTO_CONFIRMATION
| CONFIRM_Y_N
| DISPLAY_PIN
| DISPLAY_AND_CONFIRM
| INPUT_PIN
| INVALID.
End PairingType.

Definition Octets : Type := list Z.

(** ** Packets *)

(** The payload of a link-layer packet, one constructor per typed view or
    builder of [model::packets] that the functions below touch. *)
Inductive LinkLayerPayload :=
| Acl (handle : Z) (pb : PacketBoundaryFlag.t) (bc : BroadcastFlag.t)
      (payload : Octets)
| EncryptConnection (key : Octets)
| IoCapabilityRequest (io_capability oob_data_present authentication_requirements : Z)
| IoCapabilityResponse (io_capability oob_data_present authentication_requirements : Z)
| IoCapabilityNegativeResponse (reason : ErrorCode.t)
| LeEncryptConnectionResponse (rand : Octets) (ediv : Z) (ltk : Octets)
| Page (class_of_device : Z) (allow_role_switch : Z)
| ReadRemoteSupportedFeatures
| ReadRemoteSupportedFeaturesResponse (features : Z)
| ReadRemoteVersionInformation
| ReadRemoteVersionInformationResponse
    (lmp_version lmp_subversion manufacturer_name : Z).

(** [LinkLayerPacketView] and [LinkLayerPacketBuilder]: the header carries
    source and destination, the type is the constructor of the payload. *)
Record LinkLayerPacket := {
  GetSourceAddress : Address;
  GetDestinationAddress : Address;
  GetPayload : LinkLayerPayload
}.

(** Builders are called [Create (source, destination, ...)]. *)
Definition Create (source destination : Address) (p : LinkLayerPayload)
  : LinkLayerPacket :=
  {| GetSourceAddress := source; GetDestinationAddress := destination;
     GetPayload := p |}.

(** HCI events handed to [send_event_]. *)
Inductive EventPacket :=
| AuthenticationComplete (status : ErrorCode.t) (handle : Z)
| EncryptionChange (status : ErrorCode.t) (handle : Z)
                   (encryption_enabled : Z)
| EncryptionKeyRefreshComplete (status : ErrorCode.t) (handle : Z)
| LinkKeyNotification (peer : Address) (key : Octets) (key_type : KeyType.t)
| SimplePairingComplete (status : ErrorCode.t) (peer : Address)
| UserConfirmationRequest (peer : Address) (numeric_value : Z)
| UserPasskeyRequest (peer : Address).

(** HCI ACL data handed to [send_acl_]
    ([bluetooth::hci::AclPacketBuilder::Create]). *)
Record AclPacket := {
  acl_handle : Z;
  acl_packet_boundary_flag : PacketBoundaryFlag.t;
  acl_broadcast_flag : BroadcastFlag.t;
  acl_payload : Octets
}.

(** ** Collaborators of the controller

    [DeviceProperties], [AclConnectionHandler], [SecurityManager] and
    [LeAdvertiser] are declared in headers of their own; the controller only
    calls their member functions.  Each is given here with the behaviour the
    specification states for it. *)

(** Modelled from the spec: [DeviceProperties], the device-properties storage
    the controller reads through getters; one field per getter called. *)
Record DeviceProperties := {
  properties_GetAddress : Address;
  properties_GetLeAddress : Address;
  properties_GetAclDataPacketSize : Z;
  properties_GetSupportedFeatures : Z;
  properties_GetAuthenticationEnable : Z;
  properties_GetClassOfDevice : Z;
  properties_GetLeAdvertisingIntervalMin : Z;
  properties_GetLeAdvertisingIntervalMax : Z;
  properties_GetLeAdvertisingOwnAddressType : Z;
  properties_GetLeAdvertisingPeerAddress : Address;
  properties_GetLeAdvertisingPeerAddressType : Z;
  properties_GetLeAdvertisingFilterPolicy : Z;
  properties_GetLeAdvertisementType : Z;
  properties_GetLeAdvertisement : Octets;
  properties_GetLeScanResponse : Octets
}.

Module acl.
(** Modelled from the spec: the reserved handle that denotes "none"
    ([acl::kReservedHandle]); no statement below depends on its value. *)
Definition kReservedHandle : Z := 0xF00.
End acl.

Module AclConnectionHandler.

Definition peer_of (a : AddressWithType) : Address := GetAddress a.

(** Modelled from the spec: a connection record owns the peer address, the
    own address, the phy and the encrypted flag (section 3). *)
Record AclConnection := {
  address_ : AddressWithType;
  own_address_ : AddressWithType;
  type_ : Phy.Type_;
  encrypted_ : bool
}.

(** Modelled from the spec: the connection table of section 4.2, live
    connections keyed by handle and pending connections keyed by peer,
    each pending record with its authenticate-on-completion flag. *)
Record t := {
  acl_connections_ : gmap Z AclConnection;
  pending_connections_ : list (Address * bool);
  max_pending_connections_ : nat
}.

(** Modelled from the spec: [has_handle]; a handle is live while its record
    is in the table. *)
Definition HasHandle (h : t) (handle : Z) : bool :=
  bool_decide (is_Some (acl_connections_ h !! handle)).

(** Modelled from the spec: [get_address (handle)], the peer of a live
    handle. *)
Definition GetAddress (h : t) (handle : Z) : option AddressWithType :=
  address_ <$> acl_connections_ h !! handle.

(** Modelled from the spec: [is_encrypted (handle)]. *)
Definition IsEncrypted (h : t) (handle : Z) : bool :=
  match acl_connections_ h !! handle with
  | Some c => encrypted_ c
  | None => false
  end.

(** Modelled from the spec: [encrypt (handle)] sets the encrypted flag of
    the record. *)
Definition Encrypt (h : t) (handle : Z) : t :=
  {| acl_connections_ :=
       alter (fun c => {| address_ := address_ c;
                          own_address_ := own_address_ c;
                          type_ := type_ c;
                          encrypted_ := true |}) handle (acl_connections_ h);
     pending_connections_ := pending_connections_ h;
     max_pending_connections_ := max_pending_connections_ h |}.

(** Modelled from the spec: "looking up by address returns the reserved
    sentinel if no record exists". *)
Definition GetHandleOnlyAddress (h : t) (addr : Address) : Z :=
  match list_find (fun hc : Z * AclConnection =>
                     peer_of (address_ (snd hc)) = addr)
                  (map_to_list (acl_connections_ h)) with
  | Some (_, hc) => fst hc
  | None => acl.kReservedHandle
  end.

(** Modelled from the spec: a pending record for [addr] exists. *)
Definition HasPendingConnection (h : t) (addr : Address) : bool :=
  existsb (fun p => Z.eqb (fst p) addr) (pending_connections_ h).

(** Modelled from the spec: "returns false when a pending record for addr
    already exists or when the table is at capacity". *)
Definition CreatePendingConnection (h : t) (addr : Address)
           (authenticate_on_connect : bool) : bool * t :=
  if HasPendingConnection h addr
     || (max_pending_connections_ h <=? length (pending_connections_ h))%nat
  then (false, h)
  else (true,
        {| acl_connections_ := acl_connections_ h;
           pending_connections_ :=
             pending_connections_ h ++ [(addr, authenticate_on_connect)];
           max_pending_connections_ := max_pending_connections_ h |}).

End AclConnectionHandler.


Module SecurityManager.

(** Modelled from the spec: one side's answer in the IO-capability
    exchange, the three octets the controller passes along. *)
Record IoCapabilities := {
  io_capability_ : Z;
  oob_present_flag_ : Z;
  authentication_requirements_ : Z
}.

(** Modelled from the spec: the security record of section 3, a key store by
    peer, the single authentication slot (address and handle) and the IO
    capabilities of both sides from which the pairing type is derived. *)
Record t := {
  key_store_ : gmap Z Octets;
  peer_address_ : Address;
  current_handle_ : Z;
  authenticating_ : bool;
  host_capabilities_ : option IoCapabilities;
  peer_capabilities_ : option IoCapabilities
}.

Definition set_key_store (f : gmap Z Octets -> gmap Z Octets) (s : t) : t :=
  {| key_store_ := f (key_store_ s);
     peer_address_ := peer_address_ s;
     current_handle_ := current_handle_ s;
     authenticating_ := authenticating_ s;
     host_capabilities_ := host_capabilities_ s;
     peer_capabilities_ := peer_capabilities_ s |}.

Definition set_capabilities (host peer : option IoCapabilities) (s : t) : t :=
  {| key_store_ := key_store_ s;
     peer_address_ := peer_address_ s;
     current_handle_ := current_handle_ s;
     authenticating_ := authenticating_ s;
     host_capabilities_ := host;
     peer_capabilities_ := peer |}.

(** Modelled from the spec: [write_key (peer, key)]. *)
Definition WriteKey (s : t) (addr : Address) (key : Octets) : t :=
  set_key_store (insert addr key) s.

(** Modelled from the spec: [read_key (peer)] is the count of keys stored
    for the peer. *)
Definition ReadKey (s : t) (addr : Address) : Z :=
  match key_store_ s !! addr with
  | Some _ => 1
  | None => 0
  end.

(** Modelled from the spec: [get_key (peer)]. *)
Definition GetKey (s : t) (addr : Address) : option Octets :=
  key_store_ s !! addr.

(** Modelled from the spec: [delete_key (peer)]. *)
Definition DeleteKey (s : t) (addr : Address) : t :=
  set_key_store (delete addr) s.

(** Modelled from the spec: "sets the single authentication slot". *)
Definition AuthenticationRequest (s : t) (addr : Address) (handle : Z) : t :=
  {| key_store_ := key_store_ s;
     peer_address_ := addr;
     current_handle_ := handle;
     authenticating_ := true;
     host_capabilities_ := host_capabilities_ s;
     peer_capabilities_ := peer_capabilities_ s |}.

(** Modelled from the spec: "clears derived pairing state after stage 2
    completes".  The slot keeps its address and handle, which
    [AuthenticateRemoteStage2] reads after this call. *)
Definition AuthenticationRequestFinished (s : t) : t :=
  {| key_store_ := key_store_ s;
     peer_address_ := peer_address_ s;
     current_handle_ := current_handle_ s;
     authenticating_ := false;
     host_capabilities_ := None;
     peer_capabilities_ := None |}.

(** Modelled from the spec: the address in the authentication slot. *)
Definition GetAuthenticationAddress (s : t) : Address := peer_address_ s.

(** Modelled from the spec: the handle in the authentication slot. *)
Definition GetAuthenticationHandle (s : t) : Z := current_handle_ s.

(** Modelled from the spec: [set_local_io_capability] records the answer of
    the host. *)
Definition SetLocalIoCapability (s : t) (peer : Address)
           (io_capability oob_present_flag authentication_requirements : Z) : t :=
  set_capabilities
    (Some {| io_capability_ := io_capability;
             oob_present_flag_ := oob_present_flag;
             authentication_requirements_ := authentication_requirements |})
    (peer_capabilities_ s) s.

(** Modelled from the spec: [set_peer_io_capability] records the answer of
    the peer. *)
Definition SetPeerIoCapability (s : t) (peer : Address)
           (io_capability oob_present_flag authentication_requirements : Z) : t :=
  set_capabilities
    (host_capabilities_ s)
    (Some {| io_capability_ := io_capability;
             oob_present_flag_ := oob_present_flag;
             authentication_requirements_ := authentication_requirements |})
    s.

(** Modelled from the spec: [invalidate_io_capabilities] forgets both
    answers. *)
Definition InvalidateIoCapabilities (s : t) : t :=
  set_capabilities None None s.

(** Modelled from the spec: the pairing type is "derived from local+peer IO
    capabilities per the simple-pairing selection table".  The table itself
    is not listed, so it is an argument; without both capabilities the type
    is [INVALID]. *)
Definition GetSimplePairingType
           (selection_table : IoCapabilities -> IoCapabilities -> PairingType.t)
           (s : t) : PairingType.t :=
  match host_capabilities_ s, peer_capabilities_ s with
  | Some host, Some peer => selection_table host peer
  | _, _ => PairingType.INVALID
  end.

End SecurityManager.

Module LeAdvertiser.

(** Modelled from the spec: the advertiser of section 3, without the
    last-emitted timestamp (no clock is modelled). *)
Record t := {
  enabled_ : bool;
  address_ : AddressWithType;
  peer_address_ : AddressWithType;
  filter_policy_ : Z;
  type_ : Z;
  advertisement_ : Octets;
  scan_response_ : Octets;
  interval_ : Z;
  duration_ : option Z
}.

(** Modelled from the spec: the enabled flag of the set. *)
Definition IsEnabled (a : t) : bool := enabled_ a.

Definition set_enabled (b : bool) (d : option Z) (a : t) : t :=
  {| enabled_ := b;
     address_ := address_ a;
     peer_address_ := peer_address_ a;
     filter_policy_ := filter_policy_ a;
     type_ := type_ a;
     advertisement_ := advertisement_ a;
     scan_response_ := scan_response_ a;
     interval_ := interval_ a;
     duration_ := d |}.

(** Modelled from the spec: [initialize] stores the parameters of a legacy
    advertising set and leaves the enabled flag alone. *)
Definition Initialize (a : t) (address peer_address : AddressWithType)
           (filter_policy type : Z) (advertisement scan_response : Octets)
           (interval : Z) : t :=
  {| enabled_ := enabled_ a;
     address_ := address;
     peer_address_ := peer_address;
     filter_policy_ := filter_policy;
     type_ := type;
     advertisement_ := advertisement;
     scan_response_ := scan_response;
     interval_ := interval;
     duration_ := duration_ a |}.

(** Modelled from the spec: [enable] turns the set on, without a
    duration. *)
Definition Enable (a : t) : t := set_enabled true None a.

(** Modelled from the spec: [enable_extended (duration)] turns the set on
    for the duration. *)
Definition EnableExtended (a : t) (duration : Z) : t :=
  set_enabled true (Some duration) a.

(** Modelled from the spec: [disable] turns the set off. *)
Definition Disable (a : t) : t := set_enabled false (duration_ a) a.

End LeAdvertiser.

(** ** The controller object *)

(** A call of one of the registered output channels, as captured by a
    lambda that does nothing else. *)
Inductive ChannelCall :=
| CallSendToRemote (packet : LinkLayerPacket) (phy : Phy.Type_)
| CallSendEvent (packet : EventPacket).

(** The lambdas the controller passes to [ScheduleTask], one constructor per
    lambda body, its arguments the captured values. *)
Inductive TaskCallback :=
| CallChannel (call : ChannelCall)
| CallAuthenticateRemoteStage1 (peer : Address) (pairing_type : PairingType.t)
| CallAuthenticateRemoteStage2 (peer : Address)
| CallHandleSetConnectionEncryption (remote : AddressWithType) (handle : Z)
                                    (encryption_enable : Z).

(** [bluetooth::hci::EnabledSet]. *)
Record EnabledSet := {
  advertising_handle_ : Z;
  duration_ : Z;
  max_extended_advertising_events_ : Z
}.

(** The members of [LinkLayerController] that the functions below use.
    [schedule_task_] is [None] while no scheduler is registered and otherwise
    holds the calls the scheduler has received, oldest first; the last three
    fields hold what [send_event_], [send_acl_] and [send_to_remote_] have
    been called with, oldest first. *)
Record LinkLayerController := {
  properties_ : DeviceProperties;
  connections_ : AclConnectionHandler.t;
  security_manager_ : SecurityManager.t;
  advertisers_ : list LeAdvertiser.t;
  le_connect_list_ : list (Address * Z);
  le_resolving_list_ : list (Address * Z * Octets * Octets);
  schedule_task_ : option (list (Z * TaskCallback));
  events_sent : list EventPacket;
  acl_sent : list AclPacket;
  remote_sent : list (LinkLayerPacket * Phy.Type_)
}.

Definition set_connections_ (x : AclConnectionHandler.t)
           (c : LinkLayerController) : LinkLayerController :=
  {| properties_ := properties_ c; connections_ := x;
     security_manager_ := security_manager_ c;
     advertisers_ := advertisers_ c;
     le_connect_list_ := le_connect_list_ c;
     le_resolving_list_ := le_resolving_list_ c;
     schedule_task_ := schedule_task_ c; events_sent := events_sent c;
     acl_sent := acl_sent c; remote_sent := remote_sent c |}.

Definition set_security_manager_ (x : SecurityManager.t)
           (c : LinkLayerController) : LinkLayerController :=
  {| properties_ := properties_ c; connections_ := connections_ c;
     security_manager_ := x;
     advertisers_ := advertisers_ c;
     le_connect_list_ := le_connect_list_ c;
     le_resolving_list_ := le_resolving_list_ c;
     schedule_task_ := schedule_task_ c; events_sent := events_sent c;
     acl_sent := acl_sent c; remote_sent := remote_sent c |}.

Definition set_advertisers_ (x : list LeAdvertiser.t)
           (c : LinkLayerController) : LinkLayerController :=
  {| properties_ := properties_ c; connections_ := connections_ c;
     security_manager_ := security_manager_ c;
     advertisers_ := x;
     le_connect_list_ := le_connect_list_ c;
     le_resolving_list_ := le_resolving_list_ c;
     schedule_task_ := schedule_task_ c; events_sent := events_sent c;
     acl_sent := acl_sent c; remote_sent := remote_sent c |}.

Definition set_le_connect_list_ (x : list (Address * Z))
           (c : LinkLayerController) : LinkLayerController :=
  {| properties_ := properties_ c; connections_ := connections_ c;
     security_manager_ := security_manager_ c;
     advertisers_ := advertisers_ c;
     le_connect_list_ := x;
     le_resolving_list_ := le_resolving_list_ c;
     schedule_task_ := schedule_task_ c; events_sent := events_sent c;
     acl_sent := acl_sent c; remote_sent := remote_sent c |}.

Definition set_le_resolving_list_ (x : list (Address * Z * Octets * Octets))
           (c : LinkLayerController) : LinkLayerController :=
  {| properties_ := properties_ c; connections_ := connections_ c;
     security_manager_ := security_manager_ c;
     advertisers_ := advertisers_ c;
     le_connect_list_ := le_connect_list_ c;
     le_resolving_list_ := x;
     schedule_task_ := schedule_task_ c; events_sent := events_sent c;
     acl_sent := acl_sent c; remote_sent := remote_sent c |}.

Definition set_schedule_task_ (x : option (list (Z * TaskCallback)))
           (c : LinkLayerController) : LinkLayerController :=
  {| properties_ := properties_ c; connections_ := connections_ c;
     security_manager_ := security_manager_ c;
     advertisers_ := advertisers_ c;
     le_connect_list_ := le_connect_list_ c;
     le_resolving_list_ := le_resolving_list_ c;
     schedule_task_ := x; events_sent := events_sent c;
     acl_sent := acl_sent c; remote_sent := remote_sent c |}.

Definition set_events_sent (x : list EventPacket)
           (c : LinkLayerController) : LinkLayerController :=
  {| properties_ := properties_ c; connections_ := connections_ c;
     security_manager_ := security_manager_ c;
     advertisers_ := advertisers_ c;
     le_connect_list_ := le_connect_list_ c;
     le_resolving_list_ := le_resolving_list_ c;
     schedule_task_ := schedule_task_ c; events_sent := x;
     acl_sent := acl_sent c; remote_sent := remote_sent c |}.

Definition set_acl_sent (x : list AclPacket)
           (c : LinkLayerController) : LinkLayerController :=
  {| properties_ := properties_ c; connections_ := connections_ c;
     security_manager_ := security_manager_ c;
     advertisers_ := advertisers_ c;
     le_connect_list_ := le_connect_list_ c;
     le_resolving_list_ := le_resolving_list_ c;
     schedule_task_ := schedule_task_ c; events_sent := events_sent c;
     acl_sent := x; remote_sent := remote_sent c |}.

Definition set_remote_sent (x : list (LinkLayerPacket * Phy.Type_))
           (c : LinkLayerController) : LinkLayerController :=
  {| properties_ := properties_ c; connections_ := connections_ c;
     security_manager_ := security_manager_ c;
     advertisers_ := advertisers_ c;
     le_connect_list_ := le_connect_list_ c;
     le_resolving_list_ := le_resolving_list_ c;
     schedule_task_ := schedule_task_ c; events_sent := events_sent c;
     acl_sent := acl_sent c; remote_sent := x |}.

(** ** The monad of member functions

    A member function either returns a value and leaves the object in a new
    state, or the process stops: a failed [ASSERT] or [LOG_ALWAYS_FATAL], or
    an operation C++ leaves undefined (an index outside a container, a
    division by zero). *)

Inductive Abort := AssertionFailed | UndefinedBehaviour.

Inductive Outcome (A : Type) :=
| Returns (a : A) (c : LinkLayerController)
| Aborts (why : Abort).

Arguments Returns {A} a c.
Arguments Aborts {A} why.

Definition M (A : Type) : Type := LinkLayerController -> Outcome A.

Definition ret {A} (a : A) : M A := fun c => Returns a c.

Definition bind {A B} (m : M A) (k : A -> M B) : M B :=
  fun c => match m c with
           | Returns a c' => k a c'
           | Aborts why => Aborts why
           end.

Definition gets {A} (f : LinkLayerController -> A) : M A :=
  fun c => Returns (f c) c.

Definition modify (f : LinkLayerController -> LinkLayerController) : M unit :=
  fun c => Returns tt (f c).

Definition abort {A} (why : Abort) : M A := fun _ => Aborts why.

Declare Scope member_scope.
Delimit Scope member_scope with member.
Bind Scope member_scope with M.

Notation "x <- m ;; k" := (bind m (fun x => k))
  (at level 100, m at next level, k at level 200, right associativity)
  : member_scope.
Notation "m ;; k" := (bind m (fun _ => k))
  (at level 100, k at level 200, right associativity) : member_scope.

Open Scope member_scope.

Definition ASSERT (b : bool) : M unit :=
  if b then ret tt else abort AssertionFailed.

(** [for (const auto& x : xs) body (x)]. *)
Fixpoint for_each {A} (xs : list A) (body : A -> M unit) : M unit :=
  match xs with
  | [] => ret tt
  | x :: xs' => body x ;; for_each xs' body
  end.

(** Conversions between the integer types of the source. *)
Definition to_size_t (x : Z) : Z := x mod 2 ^ 64.
Definition to_int (x : Z) : Z := (x + 2 ^ 31) mod 2 ^ 32 - 2 ^ 31.

(** *** Output channels and the scheduler *)

Definition send_event_ (packet : EventPacket) : M unit :=
  modify (fun c => set_events_sent (events_sent c ++ [packet]) c).

Definition send_acl_ (packet : AclPacket) : M unit :=
  modify (fun c => set_acl_sent (acl_sent c ++ [packet]) c).

Definition send_to_remote_ (packet : LinkLayerPacket) (phy : Phy.Type_) : M unit :=
  modify (fun c => set_remote_sent (remote_sent c ++ [(packet, phy)]) c).

Definition call_channel (call : ChannelCall) : M unit :=
  match call with
  | CallSendToRemote packet phy => send_to_remote_ packet phy
  | CallSendEvent packet => send_event_ packet
  end.

(** [ScheduleTask (delay_ms, callback)]: with a scheduler registered the
    callback is handed to it and its task id returned (the scheduler is
    taken to number its tasks from 1; no function below looks at the id);
    without one the callback runs at once and the id is 0.  [closure] says
    which lambda the callback is and [call] what running it does: the
    function is used once for the lambdas that only call a channel and once
    for all of them. *)
Definition ScheduleTaskOf {T} (closure : T -> TaskCallback) (call : T -> M unit)
           (delay_ms : Z) (callback : T) : M Z :=
  scheduler <- gets schedule_task_ ;;
  match scheduler with
  | Some received =>
      modify (set_schedule_task_
                (Some (received ++ [(delay_ms, closure callback)]))) ;;
      ret (1 + Z.of_nat (length received))
  | None => call callback ;; ret 0
  end.

Definition SendLeLinkLayerPacket (packet : LinkLayerPacket) : M unit :=
  ScheduleTaskOf CallChannel call_channel 50
                 (CallSendToRemote packet Phy.LOW_ENERGY) ;;
  ret tt.

Definition SendLinkLayerPacket (packet : LinkLayerPacket) : M unit :=
  ScheduleTaskOf CallChannel call_channel 50
                 (CallSendToRemote packet Phy.BR_EDR) ;;
  ret tt.

(** *** Remote feature and version requests *)

Definition IncomingReadRemoteSupportedFeatures (packet : LinkLayerPacket) : M unit :=
  properties <- gets properties_ ;;
  SendLinkLayerPacket
    (Create (GetDestinationAddress packet) (GetSourceAddress packet)
            (ReadRemoteSupportedFeaturesResponse
               (properties_GetSupportedFeatures properties))).

Definition IncomingReadRemoteVersion (packet : LinkLayerPacket) : M unit :=
  properties <- gets properties_ ;;
  SendLinkLayerPacket
    (Create (GetDestinationAddress packet) (GetSourceAddress packet)
            (ReadRemoteSupportedFeaturesResponse
               (properties_GetSupportedFeatures properties))).

(** *** ACL data from a peer *)

(** [std::vector<uint8_t> fragment (&payload_data[start_index],
    &payload_data[end_index])]. *)
Definition fragment_of (payload_data : Octets) (start_index end_index : Z) : Octets :=
  take (Z.to_nat (end_index - start_index)) (drop (Z.to_nat start_index) payload_data).

(** The loop [for (int i = 0; i < num_packets; i++)]; [remaining] counts the
    iterations left and [pb_flag_controller_to_host] is the variable the body
    overwrites. *)
Fixpoint IncomingAclPacket_loop (remaining : nat) (i : Z)
         (pb_flag_controller_to_host : PacketBoundaryFlag.t)
         (local_handle : Z) (bc : BroadcastFlag.t)
         (payload_data : Octets) (acl_buffer_size : Z) : M unit :=
  match remaining with
  | O => ret tt
  | S remaining' =>
      let start_index := to_size_t (to_int (acl_buffer_size * i)) in
      let end_index :=
        Z.min (to_size_t (start_index + acl_buffer_size))
              (Z.of_nat (length payload_data)) in
      let fragment := fragment_of payload_data start_index end_index in
      send_acl_ {| acl_handle := local_handle;
                   acl_packet_boundary_flag := pb_flag_controller_to_host;
                   acl_broadcast_flag := bc;
                   acl_payload := fragment |} ;;
      IncomingAclPacket_loop remaining' (i + 1)
                             PacketBoundaryFlag.CONTINUING_FRAGMENT
                             local_handle bc payload_data acl_buffer_size
  end.

Definition IncomingAclPacket (incoming : LinkLayerPacket) : M unit :=
  match GetPayload incoming with
  | Acl _ pb bc payload_data =>
      connections <- gets connections_ ;;
      properties <- gets properties_ ;;
      let local_handle :=
        AclConnectionHandler.GetHandleOnlyAddress
          connections (GetSourceAddress incoming) in
      let acl_buffer_size := properties_GetAclDataPacketSize properties in
      if acl_buffer_size =? 0 then abort UndefinedBehaviour else
      let num_packets :=
        to_int (to_size_t (Z.of_nat (length payload_data) + acl_buffer_size - 1)
                / acl_buffer_size) in
      let pb_flag_controller_to_host :=
        if PacketBoundaryFlag.eqb
             pb PacketBoundaryFlag.FIRST_NON_AUTOMATICALLY_FLUSHABLE
        then PacketBoundaryFlag.FIRST_AUTOMATICALLY_FLUSHABLE
        else pb in
      IncomingAclPacket_loop (Z.to_nat num_packets) 0
                             pb_flag_controller_to_host
                             local_handle bc payload_data acl_buffer_size
  | _ => abort AssertionFailed
  end.

(** *** LE encryption *)

Definition IncomingLeEncryptConnectionResponse (incoming : LinkLayerPacket) : M unit :=
  connections <- gets connections_ ;;
  let handle :=
    AclConnectionHandler.GetHandleOnlyAddress
      connections (GetSourceAddress incoming) in
  if handle =? acl.kReservedHandle then ret tt else
  match GetPayload incoming with
  | LeEncryptConnectionResponse _ _ ltk =>
      let status :=
        if bool_decide (ltk = replicate 16 0)
        then ErrorCode.AUTHENTICATION_FAILURE
        else ErrorCode.SUCCESS in
      if AclConnectionHandler.IsEncrypted connections handle
      then send_event_ (EncryptionKeyRefreshComplete status handle)
      else
        modify (set_connections_
                  (AclConnectionHandler.Encrypt connections handle)) ;;
        send_event_ (EncryptionChange status handle EncryptionEnabled.ON)
  | _ => abort AssertionFailed
  end.

(** *** Simple pairing *)

Definition AuthenticateRemoteStage1 (peer : Address)
           (pairing_type : PairingType.t) : M unit :=
  security_manager <- gets security_manager_ ;;
  ASSERT (SecurityManager.GetAuthenticationAddress security_manager =? peer) ;;
  match pairing_type with
  | PairingType.AUTO_CONFIRMATION
  | PairingType.CONFIRM_Y_N
  | PairingType.DISPLAY_PIN
  | PairingType.DISPLAY_AND_CONFIRM =>
      send_event_ (UserConfirmationRequest peer 123456)
  | PairingType.INPUT_PIN => send_event_ (UserPasskeyRequest peer)
  | PairingType.INVALID => abort AssertionFailed
  end.

Definition AuthenticateRemoteStage2 (peer : Address) : M unit :=
  security_manager <- gets security_manager_ ;;
  let handle := SecurityManager.GetAuthenticationHandle security_manager in
  ASSERT (SecurityManager.GetAuthenticationAddress security_manager =? peer) ;;
  send_event_ (AuthenticationComplete ErrorCode.SUCCESS handle).

(** *** BR/EDR encryption *)

Definition HandleSetConnectionEncryption (peer : Address) (handle : Z)
           (encryption_enable : Z) : M unit :=
  connections <- gets connections_ ;;
  if AclConnectionHandler.IsEncrypted connections handle
     && negb (encryption_enable =? 0)
  then send_event_ (EncryptionChange ErrorCode.SUCCESS handle encryption_enable)
  else
    security_manager <- gets security_manager_ ;;
    let count := SecurityManager.ReadKey security_manager peer in
    if count =? 0 then ret tt else
    match SecurityManager.GetKey security_manager peer with
    | None => abort AssertionFailed
    | Some key_vec =>
        properties <- gets properties_ ;;
        SendLinkLayerPacket
          (Create (properties_GetAddress properties) peer
                  (EncryptConnection key_vec))
    end.

(** What running a scheduled lambda does. *)
Definition run_callback (callback : TaskCallback) : M unit :=
  match callback with
  | CallChannel call => call_channel call
  | CallAuthenticateRemoteStage1 peer pairing_type =>
      AuthenticateRemoteStage1 peer pairing_type
  | CallAuthenticateRemoteStage2 peer => AuthenticateRemoteStage2 peer
  | CallHandleSetConnectionEncryption remote handle encryption_enable =>
      HandleSetConnectionEncryption (GetAddress remote) handle encryption_enable
  end.

Definition ScheduleTask (delay_ms : Z) (callback : TaskCallback) : M Z :=
  ScheduleTaskOf (fun t => t) run_callback delay_ms callback.

Definition SetConnectionEncryption (handle : Z) (encryption_enable : Z)
  : M ErrorCode.t :=
  connections <- gets connections_ ;;
  if negb (AclConnectionHandler.HasHandle connections handle)
  then ret ErrorCode.UNKNOWN_CONNECTION else
  if AclConnectionHandler.IsEncrypted connections handle
     && (encryption_enable =? 0)
  then ret ErrorCode.ENCRYPTION_MODE_NOT_ACCEPTABLE else
  match AclConnectionHandler.GetAddress connections handle with
  | None => abort AssertionFailed
  | Some remote =>
      security_manager <- gets security_manager_ ;;
      if SecurityManager.ReadKey security_manager (GetAddress remote) =? 0
      then ret ErrorCode.PIN_OR_KEY_MISSING else
      ScheduleTask 5 (CallHandleSetConnectionEncryption
                        remote handle encryption_enable) ;;
      ret ErrorCode.SUCCESS
  end.

(** *** Page *)

Definition CreateConnection (addr : Address) (allow_role_switch : Z)
  : M ErrorCode.t :=
  connections <- gets connections_ ;;
  properties <- gets properties_ ;;
  let (created, connections') :=
    AclConnectionHandler.CreatePendingConnection
      connections addr (properties_GetAuthenticationEnable properties =? 1) in
  modify (set_connections_ connections') ;;
  if negb created then ret ErrorCode.CONTROLLER_BUSY else
  SendLinkLayerPacket
    (Create (properties_GetAddress properties) addr
            (Page (properties_GetClassOfDevice properties) allow_role_switch)) ;;
  ret ErrorCode.SUCCESS.

(** *** Replies of the host during pairing *)

Definition LinkKeyRequestReply (peer : Address) (key : Octets) : M ErrorCode.t :=
  security_manager <- gets security_manager_ ;;
  modify (set_security_manager_
            (SecurityManager.AuthenticationRequestFinished
               (SecurityManager.WriteKey security_manager peer key))) ;;
  ScheduleTask 5 (CallAuthenticateRemoteStage2 peer) ;;
  ret ErrorCode.SUCCESS.

Section SimplePairingSelection.

(** The simple-pairing selection table of the security manager. *)
Variable selection_table :
  SecurityManager.IoCapabilities -> SecurityManager.IoCapabilities ->
  PairingType.t.

Definition IoCapabilityRequestReply (peer : Address)
           (io_capability oob_data_present_flag authentication_requirements : Z)
  : M ErrorCode.t :=
  security_manager <- gets security_manager_ ;;
  let security_manager' :=
    SecurityManager.SetLocalIoCapability
      security_manager peer io_capability oob_data_present_flag
      authentication_requirements in
  modify (set_security_manager_ security_manager') ;;
  let pairing_type :=
    SecurityManager.GetSimplePairingType selection_table security_manager' in
  properties <- gets properties_ ;;
  match pairing_type with
  | PairingType.INVALID =>
      SendLinkLayerPacket
        (Create (properties_GetAddress properties) peer
                (IoCapabilityRequest io_capability oob_data_present_flag
                                     authentication_requirements)) ;;
      ret ErrorCode.SUCCESS
  | _ =>
      ScheduleTask 5 (CallAuthenticateRemoteStage1 peer pairing_type) ;;
      SendLinkLayerPacket
        (Create (properties_GetAddress properties) peer
                (IoCapabilityResponse io_capability oob_data_present_flag
                                      authentication_requirements)) ;;
      ret ErrorCode.SUCCESS
  end.

End SimplePairingSelection.

Definition IoCapabilityRequestNegativeReply (peer : Address)
           (reason : ErrorCode.t) : M ErrorCode.t :=
  security_manager <- gets security_manager_ ;;
  if negb (SecurityManager.GetAuthenticationAddress security_manager =? peer)
  then ret ErrorCode.AUTHENTICATION_FAILURE else
  modify (set_security_manager_
            (SecurityManager.InvalidateIoCapabilities security_manager)) ;;
  properties <- gets properties_ ;;
  SendLinkLayerPacket
    (Create (properties_GetAddress properties) peer
            (IoCapabilityNegativeResponse reason)) ;;
  ret ErrorCode.SUCCESS.

Definition UserConfirmationRequestReply (peer : Address) : M ErrorCode.t :=
  security_manager <- gets security_manager_ ;;
  if negb (SecurityManager.GetAuthenticationAddress security_manager =? peer)
  then ret ErrorCode.AUTHENTICATION_FAILURE else
  let key_vec := [1; 2; 3; 4; 5; 6; 7; 8; 9; 10; 11; 12; 13; 14; 15; 16] in
  modify (set_security_manager_
            (SecurityManager.AuthenticationRequestFinished
               (SecurityManager.WriteKey security_manager peer key_vec))) ;;
  ScheduleTask 5 (CallChannel
                    (CallSendEvent
                       (SimplePairingComplete ErrorCode.SUCCESS peer))) ;;
  ScheduleTask 5 (CallChannel
                    (CallSendEvent
                       (LinkKeyNotification
                          peer key_vec KeyType.AUTHENTICATED_P256))) ;;
  ScheduleTask 15 (CallAuthenticateRemoteStage2 peer) ;;
  ret ErrorCode.SUCCESS.

Definition UserConfirmationRequestNegativeReply (peer : Address)
  : M ErrorCode.t :=
  security_manager <- gets security_manager_ ;;
  if negb (SecurityManager.GetAuthenticationAddress security_manager =? peer)
  then ret ErrorCode.AUTHENTICATION_FAILURE else
  ScheduleTask 5 (CallChannel
                    (CallSendEvent
                       (SimplePairingComplete
                          ErrorCode.AUTHENTICATION_FAILURE peer))) ;;
  ret ErrorCode.SUCCESS.

Definition UserPasskeyRequestReply (peer : Address) (numeric_value : Z)
  : M ErrorCode.t :=
  security_manager <- gets security_manager_ ;;
  if negb (SecurityManager.GetAuthenticationAddress security_manager =? peer)
  then ret ErrorCode.AUTHENTICATION_FAILURE else
  ret ErrorCode.SUCCESS.

Definition UserPasskeyRequestNegativeReply (peer : Address) : M ErrorCode.t :=
  security_manager <- gets security_manager_ ;;
  if negb (SecurityManager.GetAuthenticationAddress security_manager =? peer)
  then ret ErrorCode.AUTHENTICATION_FAILURE else
  ret ErrorCode.SUCCESS.

(** The log line after the check reads [c[0]] and [r[0]], undefined on an
    empty vector. *)
Definition RemoteOobDataRequestReply (peer : Address) (c r : Octets)
  : M ErrorCode.t :=
  security_manager <- gets security_manager_ ;;
  if negb (SecurityManager.GetAuthenticationAddress security_manager =? peer)
  then ret ErrorCode.AUTHENTICATION_FAILURE else
  match c, r with
  | _ :: _, _ :: _ => ret ErrorCode.SUCCESS
  | _, _ => abort UndefinedBehaviour
  end.

Definition RemoteOobDataRequestNegativeReply (peer : Address) : M ErrorCode.t :=
  security_manager <- gets security_manager_ ;;
  if negb (SecurityManager.GetAuthenticationAddress security_manager =? peer)
  then ret ErrorCode.AUTHENTICATION_FAILURE else
  ret ErrorCode.SUCCESS.

(** *** Advertising *)

(** [advertisers_[set].f ()]: the array is indexed without a bounds check. *)
Definition on_advertiser (set : Z) (f : LeAdvertiser.t -> LeAdvertiser.t) : M unit :=
  advertisers <- gets advertisers_ ;;
  match advertisers !! Z.to_nat set with
  | Some advertiser =>
      modify (set_advertisers_ (<[Z.to_nat set := f advertiser]> advertisers))
  | None => abort UndefinedBehaviour
  end.

(** [(max + min) * 0.625 / 2] as the source computes it in [double]; the sum
    of two [uint16_t] is below 2^17, so every intermediate value is a
    multiple of 1/16 that a [double] holds exactly. *)
Definition advertising_interval_ms (interval_max interval_min : Z) : Q :=
  (inject_Z (interval_max + interval_min) * (625 # 1000) / inject_Z 2)%Q.

Arguments advertising_interval_ms : simpl never.

Definition kDefaultLeAddress : string := "bb:bb:bb:ba:d0:1e".

Definition SetLeAdvertisingEnable (le_advertising_enable : Z) : M ErrorCode.t :=
  if le_advertising_enable =? 0
  then on_advertiser 0 LeAdvertiser.Disable ;; ret ErrorCode.SUCCESS
  else
    properties <- gets properties_ ;;
    let interval_ms :=
      advertising_interval_ms
        (properties_GetLeAdvertisingIntervalMax properties)
        (properties_GetLeAdvertisingIntervalMin properties) in
    let own_address_type := properties_GetLeAdvertisingOwnAddressType properties in
    let is_random :=
      (own_address_type
         =? AddressType.to_uint8 AddressType.RANDOM_DEVICE_ADDRESS)
      || (own_address_type
            =? AddressType.to_uint8 AddressType.RANDOM_IDENTITY_ADDRESS) in
    let le_address := properties_GetLeAddress properties in
    if is_random
       && (String.eqb (ToString le_address) kDefaultLeAddress
           || (le_address =? kEmpty))
    then ret ErrorCode.INVALID_HCI_COMMAND_PARAMETERS else
    let own_address :=
      if is_random then le_address else properties_GetAddress properties in
    let own_address_with_type :=
      {| GetAddress := own_address; GetAddressType := own_address_type |} in
    let interval := to_size_t (Qfloor interval_ms) in
    if interval <? 20 then ret ErrorCode.INVALID_HCI_COMMAND_PARAMETERS else
    on_advertiser 0 (fun advertiser =>
      LeAdvertiser.Initialize
        advertiser own_address_with_type
        {| GetAddress := properties_GetLeAdvertisingPeerAddress properties;
           GetAddressType := properties_GetLeAdvertisingPeerAddressType properties |}
        (properties_GetLeAdvertisingFilterPolicy properties)
        (properties_GetLeAdvertisementType properties)
        (properties_GetLeAdvertisement properties)
        (properties_GetLeScanResponse properties)
        interval) ;;
    on_advertiser 0 LeAdvertiser.Enable ;;
    ret ErrorCode.SUCCESS.

Definition SetLeExtendedAdvertisingEnable (enable : Enable.t)
           (enabled_sets : list EnabledSet) : M ErrorCode.t :=
  advertisers <- gets advertisers_ ;;
  if existsb (fun set => Z.of_nat (length advertisers) <? advertising_handle_ set)
             enabled_sets
  then ret ErrorCode.INVALID_HCI_COMMAND_PARAMETERS else
  for_each enabled_sets (fun set =>
    let handle := advertising_handle_ set in
    match enable with
    | Enable.ENABLED =>
        on_advertiser handle (fun advertiser =>
          LeAdvertiser.EnableExtended advertiser (10 * duration_ set))
    | Enable.DISABLED => on_advertiser handle LeAdvertiser.Disable
    end) ;;
  ret ErrorCode.SUCCESS.

(** *** Connect list and resolving list *)

Definition LeConnectListClear : M unit := modify (set_le_connect_list_ []).

Definition LeResolvingListClear : M unit := modify (set_le_resolving_list_ []).

Definition LeConnectListAddDevice (addr : Address) (addr_type : Z) : M unit :=
  le_connect_list <- gets le_connect_list_ ;;
  let new_tuple := (addr, addr_type) in
  if existsb (fun dev => bool_decide (dev = new_tuple)) le_connect_list
  then ret tt
  else modify (set_le_connect_list_ (le_connect_list ++ [new_tuple])).

(** The first index of the connect list whose entry has this address and
    type, counting from [i]. *)
Fixpoint connect_list_index (le_connect_list : list (Address * Z)) (i : nat)
         (addr : Address) (addr_type : Z) : option nat :=
  match le_connect_list with
  | [] => None
  | curr :: rest =>
      if (fst curr =? addr) && (snd curr =? addr_type) then Some i
      else connect_list_index rest (S i) addr addr_type
  end.

Definition LeResolvingListAddDevice (addr : Address) (addr_type : Z)
           (peerIrk localIrk : Octets) : M unit :=
  le_connect_list <- gets le_connect_list_ ;;
  le_resolving_list <- gets le_resolving_list_ ;;
  let new_tuple := (addr, addr_type, peerIrk, localIrk) in
  match connect_list_index le_connect_list 0 addr addr_type with
  | Some i =>
      if (i <? length le_resolving_list)%nat
      then modify (set_le_resolving_list_ (<[i := new_tuple]> le_resolving_list))
      else abort UndefinedBehaviour
  | None => modify (set_le_resolving_list_ (le_resolving_list ++ [new_tuple]))
  end.

(** The loop of [LeConnectListRemoveDevice]: [i] runs while it is below the
    current size of the vector, and is incremented after an erasure too.
    [remaining] bounds the iterations left; the size of the vector at the
    start is enough. *)
Fixpoint LeConnectListRemoveDevice_loop (remaining : nat) (i : nat)
         (erase_tuple : Address * Z) (le_connect_list : list (Address * Z))
  : list (Address * Z) :=
  match remaining with
  | O => le_connect_list
  | S remaining' =>
      match le_connect_list !! i with
      | None => le_connect_list
      | Some dev =>
          if bool_decide (dev = erase_tuple)
          then LeConnectListRemoveDevice_loop
                 remaining' (S i) erase_tuple (delete i le_connect_list)
          else LeConnectListRemoveDevice_loop
                 remaining' (S i) erase_tuple le_connect_list
      end
  end.

Definition LeConnectListRemoveDevice (addr : Address) (addr_type : Z) : M unit :=
  le_connect_list <- gets le_connect_list_ ;;
  modify (set_le_connect_list_
            (LeConnectListRemoveDevice_loop
               (length le_connect_list) 0 (addr, addr_type) le_connect_list)).

(** The loop of [LeResolvingListRemoveDevice]: it walks the connect list,
    which it does not change, and erases from the resolving list at the
    index of each match; erasing at or past the end is undefined. *)
Fixpoint LeResolvingListRemoveDevice_loop (le_connect_list : list (Address * Z))
         (i : nat) (addr : Address) (addr_type : Z) : M unit :=
  match le_connect_list with
  | [] => ret tt
  | curr :: rest =>
      (if (fst curr =? addr) && (snd curr =? addr_type)
       then
         le_resolving_list <- gets le_resolving_list_ ;;
         if (i <? length le_resolving_list)%nat
         then modify (set_le_resolving_list_ (delete i le_resolving_list))
         else abort UndefinedBehaviour
       else ret tt) ;;
      LeResolvingListRemoveDevice_loop rest (S i) addr addr_type
  end.

Definition LeResolvingListRemoveDevice (addr : Address) (addr_type : Z) : M unit :=
  le_connect_list <- gets le_connect_list_ ;;
  LeResolvingListRemoveDevice_loop le_connect_list 0 addr addr_type.

Definition LeConnectListContainsDevice (addr : Address) (addr_type : Z) : M bool :=
  le_connect_list <- gets le_connect_list_ ;;
  let sought_tuple := (addr, addr_type) in
  ret (existsb (fun dev => bool_decide (dev = sought_tuple)) le_connect_list).

(** ** States and packets used in the examples *)

(** Device properties that differ in the LE address, the own-address type
    of advertising and the advertising interval (minimum and maximum). *)
Definition properties_with (le_address : Address) (own_address_type : Z)
           (interval : Z) : DeviceProperties :=
  {| properties_GetAddress := 0x010203040506;
     properties_GetLeAddress := le_address;
     properties_GetAclDataPacketSize := 100;
     properties_GetSupportedFeatures := 0x875b3fd8fe8ffeff;
     properties_GetAuthenticationEnable := 0;
     properties_GetClassOfDevice := 0x5a020c;
     properties_GetLeAdvertisingIntervalMin := interval;
     properties_GetLeAdvertisingIntervalMax := interval;
     properties_GetLeAdvertisingOwnAddressType := own_address_type;
     properties_GetLeAdvertisingPeerAddress := 0;
     properties_GetLeAdvertisingPeerAddressType := 0;
     properties_GetLeAdvertisingFilterPolicy := 0;
     properties_GetLeAdvertisementType := 0;
     properties_GetLeAdvertisement := [2; 1; 6];
     properties_GetLeScanResponse := [] |}.

(** The LE address is the placeholder [bb:bb:bb:ba:d0:1e], the own-address
    type is random, the interval is 0x800 slots. *)
Definition example_properties : DeviceProperties :=
  properties_with 0xbbbbbbbad01e 1 0x0800.

Definition cleared_advertiser : LeAdvertiser.t :=
  {| LeAdvertiser.enabled_ := false;
     LeAdvertiser.address_ := {| GetAddress := kEmpty; GetAddressType := 0 |};
     LeAdvertiser.peer_address_ := {| GetAddress := kEmpty; GetAddressType := 0 |};
     LeAdvertiser.filter_policy_ := 0;
     LeAdvertiser.type_ := 0;
     LeAdvertiser.advertisement_ := [];
     LeAdvertiser.scan_response_ := [];
     LeAdvertiser.interval_ := 0;
     LeAdvertiser.duration_ := None |}.

(** A controller right after construction: no connection, no key, three
    cleared advertising sets, empty lists, no scheduler registered and
    nothing sent yet. *)
Definition fresh_controller (properties : DeviceProperties) : LinkLayerController :=
  {| properties_ := properties;
     connections_ :=
       {| AclConnectionHandler.acl_connections_ := ∅;
          AclConnectionHandler.pending_connections_ := [];
          AclConnectionHandler.max_pending_connections_ := 1 |};
     security_manager_ :=
       {| SecurityManager.key_store_ := ∅;
          SecurityManager.peer_address_ := kEmpty;
          SecurityManager.current_handle_ := 0;
          SecurityManager.authenticating_ := false;
          SecurityManager.host_capabilities_ := None;
          SecurityManager.peer_capabilities_ := None |};
     advertisers_ := replicate 3 cleared_advertiser;
     le_connect_list_ := [];
     le_resolving_list_ := [];
     schedule_task_ := None;
     events_sent := [];
     acl_sent := [];
     remote_sent := [] |}.

Definition peer_a : Address := 0x0a0b0c0d0e0f.
Definition peer_b : Address := 0x112233445566.

(** A live connection to [peer_a] under handle 1. *)
Definition connection_to_a (encrypted : bool) : AclConnectionHandler.t :=
  {| AclConnectionHandler.acl_connections_ :=
       {[ 1 := {| AclConnectionHandler.address_ :=
                    {| GetAddress := peer_a; GetAddressType := 0 |};
                  AclConnectionHandler.own_address_ :=
                    {| GetAddress := 0x010203040506; GetAddressType := 0 |};
                  AclConnectionHandler.type_ := Phy.BR_EDR;
                  AclConnectionHandler.encrypted_ := encrypted |} ]};
     AclConnectionHandler.pending_connections_ := [];
     AclConnectionHandler.max_pending_connections_ := 1 |}.

Definition connected_controller (encrypted : bool) : LinkLayerController :=
  set_connections_ (connection_to_a encrypted) (fresh_controller example_properties).

(** The same with a link key stored for [peer_a]. *)
Definition paired_controller (encrypted : bool) : LinkLayerController :=
  set_security_manager_
    (SecurityManager.WriteKey
       (security_manager_ (connected_controller encrypted)) peer_a
       (replicate 16 7))
    (connected_controller encrypted).

(** A controller whose scheduler is registered and has received nothing. *)
Definition with_scheduler (c : LinkLayerController) : LinkLayerController :=
  set_schedule_task_ (Some []) c.

(** ** Vocabulary of the statements *)

(** [c'] is [c] after one call of [SendLinkLayerPacket] or
    [SendLeLinkLayerPacket] with [packet]: a registered scheduler has
    received the transmission with a delay of 50 ms, and without a scheduler
    the packet has gone to the radio at once. *)
Definition link_layer_packet_sent (packet : LinkLayerPacket) (phy : Phy.Type_)
           (c c' : LinkLayerController) : Prop :=
  match schedule_task_ c with
  | Some received =>
      c' = set_schedule_task_
             (Some (received ++ [(50, CallChannel (CallSendToRemote packet phy))])) c
  | None => c' = set_remote_sent (remote_sent c ++ [(packet, phy)]) c
  end.

(** The packets of a type handed to [send_to_remote_] or to the scheduler
    for transmission. *)
Definition transmissions (c : LinkLayerController) : list LinkLayerPacket :=
  map fst (remote_sent c)
  ++ omap (fun task =>
             match snd task with
             | CallChannel (CallSendToRemote packet _) => Some packet
             | _ => None
             end)
          (default [] (schedule_task_ c)).

Definition is_version_response (packet : LinkLayerPacket) : bool :=
  match GetPayload packet with
  | ReadRemoteVersionInformationResponse _ _ _ => true
  | _ => false
  end.

(** An LTK, an array of 16 octets, whose octets are all zero. *)
Definition zero_ltk (ltk : Octets) : Prop :=
  length ltk = 16%nat /\ Forall (fun octet => 0 = octet) ltk.

(** A controller in the middle of an authentication of [peer_a] on
    handle 1. *)
Definition authenticating_controller : LinkLayerController :=
  set_security_manager_
    (SecurityManager.AuthenticationRequest
       (security_manager_ (connected_controller false)) peer_a 1)
    (connected_controller false).

(** A selection table that always chooses numeric comparison. *)
Definition confirm_always
           (host peer : SecurityManager.IoCapabilities) : PairingType.t :=
  PairingType.CONFIRM_Y_N.

(** The member functions that write [le_connect_list_]. *)
Inductive ConnectListCall :=
| ClearConnectList
| AddDevice (addr : Address) (addr_type : Z)
| RemoveDevice (addr : Address) (addr_type : Z).

Definition connect_list_call (call : ConnectListCall) : M unit :=
  match call with
  | ClearConnectList => LeConnectListClear
  | AddDevice addr addr_type => LeConnectListAddDevice addr addr_type
  | RemoveDevice addr addr_type => LeConnectListRemoveDevice addr addr_type
  end.

(** A request for advertising set 0 and for handle 4. *)
Definition request_0_and_4 : list EnabledSet :=
  [ {| advertising_handle_ := 0; duration_ := 0;
       max_extended_advertising_events_ := 0 |};
    {| advertising_handle_ := 4; duration_ := 0;
       max_extended_advertising_events_ := 0 |} ].

(** *** The claim about [SetLeAdvertisingEnable]

    The statement is written once, with the set of LE addresses that count
    as "not set" left open. *)

Definition is_random_address_type (own_address_type : Z) : bool :=
  (own_address_type =? AddressType.to_uint8 AddressType.RANDOM_DEVICE_ADDRESS)
  || (own_address_type
        =? AddressType.to_uint8 AddressType.RANDOM_IDENTITY_ADDRESS).

(** [c'] is [c] with advertiser 0 initialized from the device properties and
    enabled: the own address is the LE address for a random own-address type
    and the public address otherwise, the interval is the computed one in
    whole milliseconds. *)
Definition advertiser_0_started (c c' : LinkLayerController) : Prop :=
  let properties := properties_ c in
  let own_address_type := properties_GetLeAdvertisingOwnAddressType properties in
  exists advertiser rest,
    advertisers_ c = advertiser :: rest
    /\ c' = set_advertisers_
              (LeAdvertiser.Enable
                 (LeAdvertiser.Initialize
                    advertiser
                    {| GetAddress :=
                         if is_random_address_type own_address_type
                         then properties_GetLeAddress properties
                         else properties_GetAddress properties;
                       GetAddressType := own_address_type |}
                    {| GetAddress :=
                         properties_GetLeAdvertisingPeerAddress properties;
                       GetAddressType :=
                         properties_GetLeAdvertisingPeerAddressType properties |}
                    (properties_GetLeAdvertisingFilterPolicy properties)
                    (properties_GetLeAdvertisementType properties)
                    (properties_GetLeAdvertisement properties)
                    (properties_GetLeScanResponse properties)
                    (Qfloor (advertising_interval_ms
                               (properties_GetLeAdvertisingIntervalMax properties)
                               (properties_GetLeAdvertisingIntervalMin properties))))
                 :: rest) c.

Definition SetLeAdvertisingEnable_claim (not_set : Address -> Prop)
           (c : LinkLayerController) : Prop :=
  let properties := properties_ c in
  let rejected :=
    (is_random_address_type
       (properties_GetLeAdvertisingOwnAddressType properties) = true
     /\ not_set (properties_GetLeAddress properties))
    \/ (advertising_interval_ms
          (properties_GetLeAdvertisingIntervalMax properties)
          (properties_GetLeAdvertisingIntervalMin properties) < 20)%Q in
  (rejected ->
   SetLeAdvertisingEnable 1 c
   = Returns ErrorCode.INVALID_HCI_COMMAND_PARAMETERS c)
  /\ (~ rejected ->
      exists c',
        SetLeAdvertisingEnable 1 c = Returns ErrorCode.SUCCESS c'
        /\ advertiser_0_started c c').

(** The claim as the specification words it: only the empty address counts
    as not set. *)
Definition empty_sentinel (le_address : Address) : Prop := le_address = kEmpty.

(** What the source tests: the empty address or the placeholder address
    [bb:bb:bb:ba:d0:1e]. *)
Definition empty_or_placeholder (le_address : Address) : Prop :=
  le_address = kEmpty \/ ToString le_address = kDefaultLeAddress.

(** An ACL packet from [peer_a] with the 250 octets 0, 1, ..., 249, flagged
    as the non-flushable start of a PDU. *)
Definition example_acl : LinkLayerPacket :=
  Create peer_a 0x010203040506
         (Acl 5 PacketBoundaryFlag.FIRST_NON_AUTOMATICALLY_FLUSHABLE
              BroadcastFlag.POINT_TO_POINT (map Z.of_nat (seq 0 250))).

(** * Further member functions

    The member functions below use the same members and channels as the
    ones above, except [GetRssi], whose static counter is passed
    explicitly. *)

Definition to_uint8 (x : Z) : Z := x mod 2 ^ 8.

(** ** More of the collaborators *)

Module AclConnectionHandlerOps.

(** Modelled from the spec: [get_own_address (handle)], the own address of
    a live handle. *)
Definition GetOwnAddress (h : AclConnectionHandler.t) (handle : Z)
  : option AddressWithType :=
  AclConnectionHandler.own_address_
    <$> AclConnectionHandler.acl_connections_ h !! handle.


End AclConnectionHandlerOps.

Module LeAdvertiserOps.

(** Modelled from the spec: [set_address] replaces the address and keeps
    its type. *)
Definition SetAddress (a : LeAdvertiser.t) (address : Address) : LeAdvertiser.t :=
  {| LeAdvertiser.enabled_ := LeAdvertiser.enabled_ a;
     LeAdvertiser.address_ :=
       {| GetAddress := address;
          GetAddressType := GetAddressType (LeAdvertiser.address_ a) |};
     LeAdvertiser.peer_address_ := LeAdvertiser.peer_address_ a;
     LeAdvertiser.filter_policy_ := LeAdvertiser.filter_policy_ a;
     LeAdvertiser.type_ := LeAdvertiser.type_ a;
     LeAdvertiser.advertisement_ := LeAdvertiser.advertisement_ a;
     LeAdvertiser.scan_response_ := LeAdvertiser.scan_response_ a;
     LeAdvertiser.interval_ := LeAdvertiser.interval_ a;
     LeAdvertiser.duration_ := LeAdvertiser.duration_ a |}.

(** Modelled from the spec: [set_data] replaces the advertisement
    payload. *)
Definition SetData (a : LeAdvertiser.t) (data : Octets) : LeAdvertiser.t :=
  {| LeAdvertiser.enabled_ := LeAdvertiser.enabled_ a;
     LeAdvertiser.address_ := LeAdvertiser.address_ a;
     LeAdvertiser.peer_address_ := LeAdvertiser.peer_address_ a;
     LeAdvertiser.filter_policy_ := LeAdvertiser.filter_policy_ a;
     LeAdvertiser.type_ := LeAdvertiser.type_ a;
     LeAdvertiser.advertisement_ := data;
     LeAdvertiser.scan_response_ := LeAdvertiser.scan_response_ a;
     LeAdvertiser.interval_ := LeAdvertiser.interval_ a;
     LeAdvertiser.duration_ := LeAdvertiser.duration_ a |}.

(** Modelled from the spec: [clear] returns the set to its cleared state:
    disabled, empty addresses and payloads, no interval. *)
Definition Clear (a : LeAdvertiser.t) : LeAdvertiser.t :=
  {| LeAdvertiser.enabled_ := false;
     LeAdvertiser.address_ :=
       {| GetAddress := kEmpty; GetAddressType := 0 |};
     LeAdvertiser.peer_address_ :=
       {| GetAddress := kEmpty; GetAddressType := 0 |};
     LeAdvertiser.filter_policy_ := 0;
     LeAdvertiser.type_ := 0;
     LeAdvertiser.advertisement_ := [];
     LeAdvertiser.scan_response_ := [];
     LeAdvertiser.interval_ := 0;
     LeAdvertiser.duration_ := None |}.

End LeAdvertiserOps.

(** ** The RSSI stub *)

(** [GetRssi]: the argument is the static [uint8_t rssi] before the call,
    the result is the octet returned and the static variable after the
    call. *)
Definition GetRssi (rssi : Z) : Z * Z :=
  let rssi := to_uint8 (rssi + 5) in
  let rssi := if 128 <? rssi then to_uint8 (rssi mod 7) else rssi in
  (to_uint8 (- rssi), rssi).

(** The octets returned by [n] calls in a row. *)
Fixpoint GetRssi_readings (n : nat) (rssi : Z) : list Z :=
  match n with
  | O => []
  | S n' => fst (GetRssi rssi) :: GetRssi_readings n' (snd (GetRssi rssi))
  end.

(** An octet read as [int8_t]. *)
Definition to_int8 (octet : Z) : Z :=
  if octet <? 128 then octet else octet - 256.

(** ** Link policy *)

Definition ChangeConnectionLinkKey (handle : Z) : M ErrorCode.t :=
  connections <- gets connections_ ;;
  if negb (AclConnectionHandler.HasHandle connections handle)
  then ret ErrorCode.UNKNOWN_CONNECTION
  else ret ErrorCode.COMMAND_DISALLOWED.

Definition MasterLinkKey (key_flag : Z) : M ErrorCode.t :=
  ret ErrorCode.COMMAND_DISALLOWED.

Definition HoldMode (handle hold_mode_max_interval hold_mode_min_interval : Z)
  : M ErrorCode.t :=
  connections <- gets connections_ ;;
  if negb (AclConnectionHandler.HasHandle connections handle)
  then ret ErrorCode.UNKNOWN_CONNECTION else
  if hold_mode_max_interval <? hold_mode_min_interval
  then ret ErrorCode.INVALID_HCI_COMMAND_PARAMETERS
  else ret ErrorCode.COMMAND_DISALLOWED.

Definition SniffMode (handle sniff_max_interval sniff_min_interval
                             sniff_attempt sniff_timeout : Z) : M ErrorCode.t :=
  connections <- gets connections_ ;;
  if negb (AclConnectionHandler.HasHandle connections handle)
  then ret ErrorCode.UNKNOWN_CONNECTION else
  if (sniff_max_interval <? sniff_min_interval) || (sniff_attempt <? 0x0001)
     || (0x7FFF <? sniff_attempt) || (0x7FFF <? sniff_timeout)
  then ret ErrorCode.INVALID_HCI_COMMAND_PARAMETERS
  else ret ErrorCode.COMMAND_DISALLOWED.

Definition ExitSniffMode (handle : Z) : M ErrorCode.t :=
  connections <- gets connections_ ;;
  if negb (AclConnectionHandler.HasHandle connections handle)
  then ret ErrorCode.UNKNOWN_CONNECTION
  else ret ErrorCode.COMMAND_DISALLOWED.

Definition QosSetup (handle service_type : Z) : M ErrorCode.t :=
  connections <- gets connections_ ;;
  if negb (AclConnectionHandler.HasHandle connections handle)
  then ret ErrorCode.UNKNOWN_CONNECTION else
  if 0x02 <? service_type
  then ret ErrorCode.INVALID_HCI_COMMAND_PARAMETERS
  else ret ErrorCode.COMMAND_DISALLOWED.

Definition SwitchRole (bd_addr : Address) (role : Z) : M ErrorCode.t :=
  ret ErrorCode.COMMAND_DISALLOWED.

Definition WriteLinkPolicySettings (handle settings : Z) : M ErrorCode.t :=
  connections <- gets connections_ ;;
  if negb (AclConnectionHandler.HasHandle connections handle)
  then ret ErrorCode.UNKNOWN_CONNECTION
  else ret ErrorCode.SUCCESS.

Definition FlowSpecification (handle flow_direction service_type : Z)
  : M ErrorCode.t :=
  connections <- gets connections_ ;;
  if negb (AclConnectionHandler.HasHandle connections handle)
  then ret ErrorCode.UNKNOWN_CONNECTION else
  if (0x01 <? flow_direction) || (0x02 <? service_type)
  then ret ErrorCode.INVALID_HCI_COMMAND_PARAMETERS
  else ret ErrorCode.COMMAND_DISALLOWED.

Definition WriteLinkSupervisionTimeout (handle timeout : Z) : M ErrorCode.t :=
  connections <- gets connections_ ;;
  if negb (AclConnectionHandler.HasHandle connections handle)
  then ret ErrorCode.UNKNOWN_CONNECTION
  else ret ErrorCode.SUCCESS.

(** ** Page, continued *)


(** ** Encryption, continued *)

Definition IncomingEncryptConnectionResponse (incoming : LinkLayerPacket) : M unit :=
  connections <- gets connections_ ;;
  let handle :=
    AclConnectionHandler.GetHandleOnlyAddress
      connections (GetSourceAddress incoming) in
  if handle =? acl.kReservedHandle then ret tt else
  send_event_ (EncryptionChange ErrorCode.SUCCESS handle EncryptionEnabled.ON).

(** The response of both LE replies: [LeEncryptConnectionResponseBuilder]
    with a zero [rand] and [ediv], from the own address of the handle to its
    peer. *)
Definition send_le_encrypt_connection_response (handle : Z) (ltk : Octets) : M unit :=
  connections <- gets connections_ ;;
  match AclConnectionHandlerOps.GetOwnAddress connections handle,
        AclConnectionHandler.GetAddress connections handle with
  | Some own, Some peer =>
      SendLeLinkLayerPacket
        (Create (GetAddress own) (GetAddress peer)
                (LeEncryptConnectionResponse (replicate 8 0) 0 ltk))
  | _, _ => abort AssertionFailed
  end.

Definition LeLongTermKeyRequestReply (handle : Z) (ltk : Octets) : M ErrorCode.t :=
  connections <- gets connections_ ;;
  if negb (AclConnectionHandler.HasHandle connections handle)
  then ret ErrorCode.UNKNOWN_CONNECTION else
  (if AclConnectionHandler.IsEncrypted connections handle
   then send_event_ (EncryptionKeyRefreshComplete ErrorCode.SUCCESS handle)
   else
     modify (set_connections_
               (AclConnectionHandler.Encrypt connections handle)) ;;
     send_event_ (EncryptionChange ErrorCode.SUCCESS handle
                                   EncryptionEnabled.ON)) ;;
  send_le_encrypt_connection_response handle ltk ;;
  ret ErrorCode.SUCCESS.

Definition LeLongTermKeyRequestNegativeReply (handle : Z) : M ErrorCode.t :=
  connections <- gets connections_ ;;
  if negb (AclConnectionHandler.HasHandle connections handle)
  then ret ErrorCode.UNKNOWN_CONNECTION else
  send_le_encrypt_connection_response handle (replicate 16 0) ;;
  ret ErrorCode.SUCCESS.

(** ** Simple pairing, continued *)

Definition IncomingIoCapabilityNegativeResponsePacket (incoming : LinkLayerPacket)
  : M unit :=
  let peer := GetSourceAddress incoming in
  security_manager <- gets security_manager_ ;;
  ASSERT (SecurityManager.GetAuthenticationAddress security_manager =? peer) ;;
  modify (set_security_manager_
            (SecurityManager.InvalidateIoCapabilities security_manager)).

(** ** Advertising sets, continued *)

Definition SetLeExtendedAddress (set : Z) (address : Address) : M ErrorCode.t :=
  on_advertiser set (fun advertiser =>
                       LeAdvertiserOps.SetAddress advertiser address) ;;
  ret ErrorCode.SUCCESS.

Definition SetLeExtendedAdvertisingData (set : Z) (data : Octets) : M ErrorCode.t :=
  on_advertiser set (fun advertiser => LeAdvertiserOps.SetData advertiser data) ;;
  ret ErrorCode.SUCCESS.

Definition LeRemoveAdvertisingSet (set : Z) : M ErrorCode.t :=
  advertisers <- gets advertisers_ ;;
  if Z.of_nat (length advertisers) <=? set
  then ret ErrorCode.INVALID_HCI_COMMAND_PARAMETERS else
  on_advertiser set LeAdvertiser.Disable ;;
  ret ErrorCode.SUCCESS.

Definition LeClearAdvertisingSets : M ErrorCode.t :=
  advertisers <- gets advertisers_ ;;
  if existsb LeAdvertiser.IsEnabled advertisers
  then ret ErrorCode.COMMAND_DISALLOWED else
  modify (set_advertisers_ (map LeAdvertiserOps.Clear advertisers)) ;;
  ret ErrorCode.SUCCESS.

Definition LeDisableAdvertisingSets : M unit :=
  advertisers <- gets advertisers_ ;;
  modify (set_advertisers_ (map LeAdvertiser.Disable advertisers)).

Definition LeReadNumberOfSupportedAdvertisingSets : M Z :=
  advertisers <- gets advertisers_ ;;
  ret (to_uint8 (Z.of_nat (length advertisers))).

(** The address filter at the head of [IncomingPacket]: the value of
    [address_matches] when the [switch] is reached; packets for which it is
    false are dropped. *)
Definition IncomingPacket_address_matches (destination_address : Address) : M bool :=
  properties <- gets properties_ ;;
  advertisers <- gets advertisers_ ;;
  let address_matches := destination_address =? kEmpty in
  let address_matches :=
    if (destination_address =? properties_GetAddress properties)
       || (destination_address =? properties_GetLeAddress properties)
    then true else address_matches in
  ret (fold_left
         (fun address_matches advertiser =>
            if LeAdvertiser.IsEnabled advertiser
               && (GetAddress (LeAdvertiser.address_ advertiser)
                   =? destination_address)
            then true else address_matches)
         advertisers address_matches).

(** ** Resolving list, continued *)

Definition LeResolvingListContainsDevice (addr : Address) (addr_type : Z) : M bool :=
  le_connect_list <- gets le_connect_list_ ;;
  ret (existsb (fun curr => (fst curr =? addr) && (snd curr =? addr_type))
               le_connect_list).

(** ** LE connection update *)

(** [bluetooth::hci::LeConnectionUpdateView], the fields read. *)
Record LeConnectionUpdateView := {
  GetConnectionHandle : Z;
  GetConnIntervalMin : Z;
  GetConnIntervalMax : Z;
  GetConnLatency : Z;
  GetSupervisionTimeout : Z
}.

(** The arguments of [LeConnectionUpdateCompleteBuilder::Create]. *)
Record LeConnectionUpdateCompletePacket := {
  update_status : ErrorCode.t;
  update_handle : Z;
  update_interval : Z;
  update_latency : Z;
  update_supervision_timeout : Z
}.

Definition to_uint16 (x : Z) : Z := x mod 2 ^ 16.

(** [LeConnectionUpdateComplete]: it reads the connection table and hands
    one packet to [send_event_]; the value is that packet.  The conditions
    are joined by [||], so the product is computed only when the conditions
    before it are false. *)
Definition LeConnectionUpdateComplete (connections : AclConnectionHandler.t)
           (connection_update : LeConnectionUpdateView)
  : LeConnectionUpdateCompletePacket :=
  let handle := GetConnectionHandle connection_update in
  let status :=
    if negb (AclConnectionHandler.HasHandle connections handle)
    then ErrorCode.UNKNOWN_CONNECTION else ErrorCode.SUCCESS in
  let interval_min := GetConnIntervalMin connection_update in
  let interval_max := GetConnIntervalMax connection_update in
  let latency := GetConnLatency connection_update in
  let supervision_timeout := GetSupervisionTimeout connection_update in
  let status :=
    if (interval_min <? 6) || (0xC80 <? interval_max)
       || (interval_max <? interval_min) || (interval_max <? interval_min)
       || (0x1F3 <? latency)
       || (supervision_timeout <? 0xA) || (0xC80 <? supervision_timeout)
       || (supervision_timeout
           <=? to_int (to_int (to_int ((1 + latency) * interval_max) * 10) / 4)
               / 10)
    then ErrorCode.INVALID_HCI_COMMAND_PARAMETERS else status in
  let interval := to_uint16 (to_int (interval_min + interval_max) / 2) in
  {| update_status := status;
     update_handle := handle;
     update_interval := interval;
     update_latency := latency;
     update_supervision_timeout := supervision_timeout |}.

(** ** Vocabulary of the statements, continued *)

(** The commands that write [advertisers_]. *)
Inductive AdvertisingCall :=
| CallSetLeAdvertisingEnable (le_advertising_enable : Z)
| CallSetLeExtendedAdvertisingEnable (enable : Enable.t)
                                     (enabled_sets : list EnabledSet)
| CallSetLeExtendedAddress (set : Z) (address : Address)
| CallSetLeExtendedAdvertisingData (set : Z) (data : Octets)
| CallLeRemoveAdvertisingSet (set : Z)
| CallLeClearAdvertisingSets
| CallLeDisableAdvertisingSets.

(** One such command, its error code dropped. *)
Definition advertising_call (call : AdvertisingCall) : M unit :=
  match call with
  | CallSetLeAdvertisingEnable le_advertising_enable =>
      SetLeAdvertisingEnable le_advertising_enable ;; ret tt
  | CallSetLeExtendedAdvertisingEnable enable enabled_sets =>
      SetLeExtendedAdvertisingEnable enable enabled_sets ;; ret tt
  | CallSetLeExtendedAddress set address =>
      SetLeExtendedAddress set address ;; ret tt
  | CallSetLeExtendedAdvertisingData set data =>
      SetLeExtendedAdvertisingData set data ;; ret tt
  | CallLeRemoveAdvertisingSet set => LeRemoveAdvertisingSet set ;; ret tt
  | CallLeClearAdvertisingSets => LeClearAdvertisingSets ;; ret tt
  | CallLeDisableAdvertisingSets => LeDisableAdvertisingSets
  end.

(** A controller whose three advertising sets are enabled. *)
Definition advertising_controller : LinkLayerController :=
  set_advertisers_
    (replicate 3 (LeAdvertiser.Enable cleared_advertiser))
    (fresh_controller example_properties).

(** Set number [i] is named by the request. *)
Definition set_requested (enabled_sets : list EnabledSet) (i : nat) : bool :=
  existsb (fun set => (Z.to_nat (advertising_handle_ set) =? i)%nat) enabled_sets.

Definition is_enabled_value (enable : Enable.t) : bool :=
  match enable with
  | Enable.ENABLED => true
  | Enable.DISABLED => false
  end.

(** The other end of the connection of [connected_controller]: a controller
    at [peer_a] with a live LE connection, under handle 2, to the address
    the first one owns. *)
Definition peer_controller (encrypted : bool) : LinkLayerController :=
  set_connections_
    {| AclConnectionHandler.acl_connections_ :=
         {[ 2 := {| AclConnectionHandler.address_ :=
                      {| GetAddress := 0x010203040506; GetAddressType := 0 |};
                    AclConnectionHandler.own_address_ :=
                      {| GetAddress := peer_a; GetAddressType := 0 |};
                    AclConnectionHandler.type_ := Phy.LOW_ENERGY;
                    AclConnectionHandler.encrypted_ := encrypted |} ]};
       AclConnectionHandler.pending_connections_ := [];
       AclConnectionHandler.max_pending_connections_ := 1 |}
    (fresh_controller (properties_with peer_a 0 0x0800)).

(** * Properties *)

(** ** The monad and the channels *)

Ltac member_unfold :=
  unfold bind, ret, gets, modify, abort, ASSERT in *.

Lemma set_connections_same c : set_connections_ (connections_ c) c = c.
Proof. by destruct c. Qed.

Lemma SendLinkLayerPacket_sent packet c :
  exists c', SendLinkLayerPacket packet c = Returns tt c'
             /\ link_layer_packet_sent packet Phy.BR_EDR c c'.
Proof.
  unfold SendLinkLayerPacket, ScheduleTaskOf, link_layer_packet_sent.
  member_unfold. simpl.
  destruct (schedule_task_ c) as [received|] eqn:E; simpl; eauto.
Qed.

Lemma SendLinkLayerPacket_ScheduleTask packet c :
  SendLinkLayerPacket packet c
  = (ScheduleTask 50 (CallChannel (CallSendToRemote packet Phy.BR_EDR)) ;; ret tt) c.
Proof. reflexivity. Qed.

(** ** Remote version request *)

(** C1.  [IncomingReadRemoteVersion] answers every request with a
    [ReadRemoteSupportedFeaturesResponse] that carries the supported
    features of the responder, from the destination of the request to its
    source: it is the same function as [IncomingReadRemoteSupportedFeatures],
    and the packet it transmits is never a version response. *)
Theorem IncomingReadRemoteVersion_sends_supported_features :
  forall (c : LinkLayerController) (packet : LinkLayerPacket),
    let reply :=
      Create (GetDestinationAddress packet) (GetSourceAddress packet)
             (ReadRemoteSupportedFeaturesResponse
                (properties_GetSupportedFeatures (properties_ c))) in
    (exists c', IncomingReadRemoteVersion packet c = Returns tt c'
                /\ link_layer_packet_sent reply Phy.BR_EDR c c'
                /\ transmissions c' = transmissions c ++ [reply])
    /\ is_version_response reply = false
    /\ IncomingReadRemoteVersion packet c
       = IncomingReadRemoteSupportedFeatures packet c.
Proof.
  intros c packet reply. split; [|split; reflexivity].
  destruct (SendLinkLayerPacket_sent reply c) as (c' & Hrun & Hsent).
  exists c'. split; [exact Hrun|]. split; [exact Hsent|].
  unfold link_layer_packet_sent in Hsent. unfold transmissions.
  destruct (schedule_task_ c) as [received|] eqn:E; subst c'; simpl.
  - rewrite omap_app. simpl. by rewrite app_assoc.
  - rewrite map_app, E. simpl. by rewrite !app_nil_r.
Qed.

(** The request of [peer_a] for the version of a fresh controller: the
    radio receives a supported-features response. *)
Example IncomingReadRemoteVersion_example :
  IncomingReadRemoteVersion
    (Create peer_a 0x010203040506 ReadRemoteVersionInformation)
    (fresh_controller example_properties)
  = Returns tt
      (set_remote_sent
         [(Create 0x010203040506 peer_a
                  (ReadRemoteSupportedFeaturesResponse 0x875b3fd8fe8ffeff),
           Phy.BR_EDR)]
         (fresh_controller example_properties)).
Proof. reflexivity. Qed.

(** ** Page *)

Lemma CreatePendingConnection_fails_iff h addr authenticate :
  fst (AclConnectionHandler.CreatePendingConnection h addr authenticate) = false
  <-> (exists flag, In (addr, flag) (AclConnectionHandler.pending_connections_ h))
      \/ (AclConnectionHandler.max_pending_connections_ h
          <= length (AclConnectionHandler.pending_connections_ h))%nat.
Proof.
  unfold AclConnectionHandler.CreatePendingConnection,
    AclConnectionHandler.HasPendingConnection.
  destruct (existsb _ _) eqn:Hex; simpl.
  - split; [intros _; left | done].
    apply existsb_exists in Hex as ([a flag] & Hin & Heq).
    simpl in Heq. apply Z.eqb_eq in Heq. subst a. eauto.
  - destruct (Nat.leb_spec (AclConnectionHandler.max_pending_connections_ h)
                (length (AclConnectionHandler.pending_connections_ h)));
      simpl.
    + split; [intros _; by right | done].
    + split; [done|]. intros [[flag Hin] | Hfull]; [|lia].
      assert (existsb (fun p : Address * bool => fst p =? addr)
                (AclConnectionHandler.pending_connections_ h) = true) as Hex'.
      { apply existsb_exists. exists (addr, flag). split; [done|].
        simpl. apply Z.eqb_refl. }
      pose proof (eq_trans (eq_sym Hex') Hex). done.
Qed.

(** C8.  [CreateConnection] returns [CONTROLLER_BUSY] exactly when
    [CreatePendingConnection] fails for the peer, that is when a pending
    record for the peer exists or the pending table is full, and then the
    controller is left as it was, so no Page packet is sent; otherwise the
    pending connection is recorded with the flag "authentication enable is
    1", exactly one Page packet from the own address to the peer is
    transmitted, and [SUCCESS] is returned. *)
Theorem CreateConnection_busy_or_page :
  forall (c : LinkLayerController) (addr : Address) (allow_role_switch : Z),
    let authenticate :=
      properties_GetAuthenticationEnable (properties_ c) =? 1 in
    let created :=
      fst (AclConnectionHandler.CreatePendingConnection
             (connections_ c) addr authenticate) in
    let page :=
      Create (properties_GetAddress (properties_ c)) addr
             (Page (properties_GetClassOfDevice (properties_ c))
                   allow_role_switch) in
    (created = false ->
     CreateConnection addr allow_role_switch c
     = Returns ErrorCode.CONTROLLER_BUSY c)
    /\ (created = true ->
        exists c',
          CreateConnection addr allow_role_switch c
          = Returns ErrorCode.SUCCESS c'
          /\ AclConnectionHandler.pending_connections_ (connections_ c')
             = AclConnectionHandler.pending_connections_ (connections_ c)
               ++ [(addr, authenticate)]
          /\ transmissions c' = transmissions c ++ [page]
          /\ GetDestinationAddress page = addr)
    /\ ((exists c', CreateConnection addr allow_role_switch c
                    = Returns ErrorCode.CONTROLLER_BUSY c')
        <-> created = false)
    /\ (created = false
        <-> (exists flag,
                In (addr, flag)
                   (AclConnectionHandler.pending_connections_ (connections_ c)))
            \/ (AclConnectionHandler.max_pending_connections_ (connections_ c)
                <= length (AclConnectionHandler.pending_connections_
                             (connections_ c)))%nat).
Proof.
  intros c addr allow_role_switch authenticate created page.
  assert (created = false ->
          CreateConnection addr allow_role_switch c
          = Returns ErrorCode.CONTROLLER_BUSY c) as Hbusy.
  { subst created. unfold CreateConnection. member_unfold. fold authenticate.
    unfold AclConnectionHandler.CreatePendingConnection.
    destruct (_ || _); simpl; [|done]. intros _.
    by rewrite set_connections_same. }
  assert (created = true ->
          exists c',
            CreateConnection addr allow_role_switch c
            = Returns ErrorCode.SUCCESS c'
            /\ AclConnectionHandler.pending_connections_ (connections_ c')
               = AclConnectionHandler.pending_connections_ (connections_ c)
                 ++ [(addr, authenticate)]
            /\ transmissions c' = transmissions c ++ [page]
            /\ GetDestinationAddress page = addr) as Hpage.
  { subst created. unfold CreateConnection. member_unfold. fold authenticate.
    unfold AclConnectionHandler.CreatePendingConnection.
    destruct (_ || _); simpl; [done|]. intros _. fold page.
    unfold SendLinkLayerPacket, ScheduleTaskOf. member_unfold. simpl.
    unfold transmissions.
    destruct (schedule_task_ c) as [received|] eqn:E; simpl;
      eexists; (split; [reflexivity|]); simpl; rewrite ?E; simpl.
    - split; [done|]. split; [|done]. rewrite omap_app. simpl.
      by rewrite app_assoc.
    - split; [done|]. split; [|done]. rewrite map_app. simpl.
      by rewrite !app_nil_r. }
  split; [exact Hbusy|]. split; [exact Hpage|]. split.
  - split.
    + intros [c' Hc']. destruct created eqn:Hcreated; [|done].
      destruct (Hpage eq_refl) as (c'' & Hrun & _). congruence.
    + intros Hf. exists c. by apply Hbusy.
  - apply CreatePendingConnection_fails_iff.
Qed.

(** On a fresh controller the first [CreateConnection] to a peer succeeds
    and, while it is pending, the second one is refused. *)
Lemma CreateConnection_busy_or_page_witness :
  (exists c',
      CreateConnection peer_a 1 (fresh_controller example_properties)
      = Returns ErrorCode.SUCCESS c'
      /\ AclConnectionHandler.pending_connections_ (connections_ c')
         = [(peer_a, false)]
      /\ transmissions c'
         = [Create 0x010203040506 peer_a (Page 0x5a020c 1)]
      /\ GetDestinationAddress
           (Create 0x010203040506 peer_a (Page 0x5a020c 1)) = peer_a)
  /\ (let busy :=
        set_connections_
          (snd (AclConnectionHandler.CreatePendingConnection
                  (connections_ (fresh_controller example_properties))
                  peer_a false))
          (fresh_controller example_properties) in
      CreateConnection peer_a 1 busy = Returns ErrorCode.CONTROLLER_BUSY busy).
Proof.
  split.
  - apply (proj1 (proj2 (CreateConnection_busy_or_page
                           (fresh_controller example_properties) peer_a 1))).
    reflexivity.
  - intros busy.
    apply (proj1 (CreateConnection_busy_or_page busy peer_a 1)).
    reflexivity.
Defined.

(** ** BR/EDR encryption *)

Lemma HasHandle_GetAddress h handle :
  AclConnectionHandler.HasHandle h handle = true ->
  exists remote, AclConnectionHandler.GetAddress h handle = Some remote.
Proof.
  unfold AclConnectionHandler.HasHandle, AclConnectionHandler.GetAddress.
  intros H. apply bool_decide_eq_true in H as [conn Hconn].
  rewrite Hconn. simpl. eauto.
Qed.

Lemma ReadKey_zero s addr :
  SecurityManager.ReadKey s addr = 0 <-> SecurityManager.GetKey s addr = None.
Proof.
  unfold SecurityManager.ReadKey, SecurityManager.GetKey.
  destruct (SecurityManager.key_store_ s !! addr); split; done.
Qed.

(** With a key stored, [HandleSetConnectionEncryption] always returns. *)
Lemma HandleSetConnectionEncryption_returns c peer handle encryption_enable key :
  SecurityManager.GetKey (security_manager_ c) peer = Some key ->
  exists c',
    HandleSetConnectionEncryption peer handle encryption_enable c = Returns tt c'.
Proof.
  intros Hkey. unfold HandleSetConnectionEncryption, send_event_. member_unfold.
  destruct (_ && _); [eauto|].
  assert (SecurityManager.ReadKey (security_manager_ c) peer <> 0) as Hcount.
  { rewrite ReadKey_zero. congruence. }
  apply Z.eqb_neq in Hcount. rewrite Hcount, Hkey.
  destruct (SendLinkLayerPacket_sent
              (Create (properties_GetAddress (properties_ c)) peer
                      (EncryptConnection key)) c) as (c' & Hrun & _).
  member_unfold. eauto.
Qed.

(** C4.  [SetConnectionEncryption (handle, enable)] returns
    [UNKNOWN_CONNECTION] when the handle is not live; for a live handle,
    [ENCRYPTION_MODE_NOT_ACCEPTABLE] when the connection is encrypted and
    [enable] is 0; otherwise [PIN_OR_KEY_MISSING] when no link key is stored
    for the peer of the handle; in these three cases the controller is left
    as it was.  In the remaining case it returns [SUCCESS] after
    [ScheduleTask (5 ms, HandleSetConnectionEncryption (peer, handle,
    enable))]: a registered scheduler has received this one task with delay
    5, and without a scheduler the handler has run at once. *)
Theorem SetConnectionEncryption_result :
  forall (c : LinkLayerController) (handle encryption_enable : Z),
    let connections := connections_ c in
    let live := AclConnectionHandler.HasHandle connections handle in
    let encrypted := AclConnectionHandler.IsEncrypted connections handle in
    (live = false ->
     SetConnectionEncryption handle encryption_enable c
     = Returns ErrorCode.UNKNOWN_CONNECTION c)
    /\ (live = true -> encrypted = true -> encryption_enable = 0 ->
        SetConnectionEncryption handle encryption_enable c
        = Returns ErrorCode.ENCRYPTION_MODE_NOT_ACCEPTABLE c)
    /\ (live = true -> encrypted = false \/ encryption_enable <> 0 ->
        exists remote,
          AclConnectionHandler.GetAddress connections handle = Some remote
          /\ (SecurityManager.GetKey (security_manager_ c) (GetAddress remote)
              = None ->
              SetConnectionEncryption handle encryption_enable c
              = Returns ErrorCode.PIN_OR_KEY_MISSING c)
          /\ (forall key,
                 SecurityManager.GetKey (security_manager_ c) (GetAddress remote)
                 = Some key ->
                 exists c',
                   SetConnectionEncryption handle encryption_enable c
                   = Returns ErrorCode.SUCCESS c'
                   /\ (forall received,
                          schedule_task_ c = Some received ->
                          c' = set_schedule_task_
                                 (Some (received
                                        ++ [(5, CallHandleSetConnectionEncryption
                                                  remote handle
                                                  encryption_enable)])) c)
                   /\ (schedule_task_ c = None ->
                       HandleSetConnectionEncryption
                         (GetAddress remote) handle encryption_enable c
                       = Returns tt c'))).
Proof.
  intros c handle encryption_enable connections live encrypted.
  subst live encrypted connections.
  unfold SetConnectionEncryption. member_unfold.
  split; [by intros ->|]. split.
  { intros -> -> ->. reflexivity. }
  intros Hlive Hnot.
  destruct (HasHandle_GetAddress _ _ Hlive) as [remote Hremote].
  rewrite Hlive. simpl.
  assert (AclConnectionHandler.IsEncrypted (connections_ c) handle
          && (encryption_enable =? 0) = false) as ->.
  { destruct Hnot as [-> | Hne]; [done|].
    apply Z.eqb_neq in Hne. rewrite Hne. apply andb_false_r. }
  rewrite Hremote. exists remote. split; [done|]. split.
  - intros Hkey. apply ReadKey_zero in Hkey. by rewrite Hkey.
  - intros key Hkey.
    assert (SecurityManager.ReadKey (security_manager_ c) (GetAddress remote)
            <> 0) as Hcount.
    { rewrite ReadKey_zero. congruence. }
    apply Z.eqb_neq in Hcount. rewrite Hcount.
    unfold ScheduleTask, ScheduleTaskOf. member_unfold. simpl.
    destruct (schedule_task_ c) as [received|] eqn:E.
    + eexists. split; [reflexivity|]. split; [|done].
      intros received' [= <-]. reflexivity.
    + destruct (HandleSetConnectionEncryption_returns
                  c (GetAddress remote) handle encryption_enable key Hkey)
        as [c' Hrun].
      rewrite Hrun. exists c'. split; [reflexivity|]. split; [done|].
      intros _. reflexivity.
Qed.

(** The four outcomes on concrete controllers: an unknown handle, an
    encrypted connection asked to disable, a connection without a key, and
    a connection with a key and a registered scheduler. *)
Lemma SetConnectionEncryption_result_witness :
  SetConnectionEncryption 1 1 (fresh_controller example_properties)
  = Returns ErrorCode.UNKNOWN_CONNECTION (fresh_controller example_properties)
  /\ SetConnectionEncryption 1 0 (paired_controller true)
     = Returns ErrorCode.ENCRYPTION_MODE_NOT_ACCEPTABLE (paired_controller true)
  /\ SetConnectionEncryption 1 1 (connected_controller false)
     = Returns ErrorCode.PIN_OR_KEY_MISSING (connected_controller false)
  /\ SetConnectionEncryption 1 1 (with_scheduler (paired_controller false))
     = Returns ErrorCode.SUCCESS
         (set_schedule_task_
            (Some [(5, CallHandleSetConnectionEncryption
                         {| GetAddress := peer_a; GetAddressType := 0 |} 1 1)])
            (paired_controller false)).
Proof.
  split; [|split; [|split]].
  - apply (proj1 (SetConnectionEncryption_result
                    (fresh_controller example_properties) 1 1)).
    reflexivity.
  - apply (proj1 (proj2 (SetConnectionEncryption_result
                           (paired_controller true) 1 0)));
      reflexivity.
  - destruct (proj2 (proj2 (SetConnectionEncryption_result
                              (connected_controller false) 1 1))
                    eq_refl (or_introl eq_refl))
      as (remote & Hremote & Hmissing & _).
    apply Hmissing. vm_compute in Hremote. injection Hremote as <-.
    reflexivity.
  - destruct (proj2 (proj2 (SetConnectionEncryption_result
                              (with_scheduler (paired_controller false)) 1 1))
                    eq_refl (or_introl eq_refl))
      as (remote & Hremote & _ & Hkey).
    vm_compute in Hremote. injection Hremote as <-.
    destruct (Hkey (replicate 16 7) eq_refl) as (c' & Hrun & Hscheduled & _).
    rewrite Hrun. f_equal. apply (Hscheduled [] eq_refl).
Defined.

(** ** LE encryption *)

Lemma GetHandleOnlyAddress_live h addr :
  AclConnectionHandler.GetHandleOnlyAddress h addr <> acl.kReservedHandle ->
  exists conn,
    AclConnectionHandler.acl_connections_ h
      !! AclConnectionHandler.GetHandleOnlyAddress h addr = Some conn
    /\ GetAddress (AclConnectionHandler.address_ conn) = addr.
Proof.
  unfold AclConnectionHandler.GetHandleOnlyAddress.
  destruct (list_find _ _) as [[i [handle conn]]|] eqn:Hfind; [|done].
  intros _. apply list_find_Some in Hfind as (Hlookup & Haddr & _).
  exists conn. simpl in *. split; [|exact Haddr].
  apply elem_of_map_to_list. eapply list_elem_of_lookup_2. exact Hlookup.
Qed.

Lemma IsEncrypted_Encrypt h handle :
  is_Some (AclConnectionHandler.acl_connections_ h !! handle) ->
  AclConnectionHandler.IsEncrypted (AclConnectionHandler.Encrypt h handle) handle
  = true.
Proof.
  intros [conn Hconn].
  unfold AclConnectionHandler.IsEncrypted, AclConnectionHandler.Encrypt. simpl.
  by rewrite lookup_alter_eq, Hconn.
Qed.

(** Encrypting is idempotent (section 4.2). *)
Lemma Encrypt_idempotent h handle :
  AclConnectionHandler.Encrypt (AclConnectionHandler.Encrypt h handle) handle
  = AclConnectionHandler.Encrypt h handle.
Proof.
  unfold AclConnectionHandler.Encrypt. simpl. f_equal.
  apply map_eq. intros k.
  destruct (decide (handle = k)) as [<-|Hne];
    [rewrite !lookup_alter_eq | by rewrite !lookup_alter_ne].
  by destruct (AclConnectionHandler.acl_connections_ h !! handle).
Qed.

(** C5.  For an [LeEncryptConnectionResponse] from a peer with a live
    connection, the status is [AUTHENTICATION_FAILURE] exactly when the LTK
    it carries is all zeros and [SUCCESS] otherwise.  If the connection is
    already encrypted the only effect is one [EncryptionKeyRefreshComplete]
    event with this status, so the encrypted flag is as before; otherwise
    the connection is marked encrypted and one [EncryptionChange] event with
    this status and [ON] is sent. *)
Theorem IncomingLeEncryptConnectionResponse_result :
  forall (c : LinkLayerController) (incoming : LinkLayerPacket)
         (rand : Octets) (ediv : Z) (ltk : Octets),
    GetPayload incoming = LeEncryptConnectionResponse rand ediv ltk ->
    let handle :=
      AclConnectionHandler.GetHandleOnlyAddress
        (connections_ c) (GetSourceAddress incoming) in
    handle <> acl.kReservedHandle ->
    exists status,
      (status = ErrorCode.AUTHENTICATION_FAILURE <-> zero_ltk ltk)
      /\ (status = ErrorCode.SUCCESS <-> ~ zero_ltk ltk)
      /\ (AclConnectionHandler.IsEncrypted (connections_ c) handle = true ->
          IncomingLeEncryptConnectionResponse incoming c
          = Returns tt
              (set_events_sent
                 (events_sent c ++ [EncryptionKeyRefreshComplete status handle])
                 c))
      /\ (AclConnectionHandler.IsEncrypted (connections_ c) handle = false ->
          exists c',
            IncomingLeEncryptConnectionResponse incoming c = Returns tt c'
            /\ c' = set_events_sent
                      (events_sent c
                       ++ [EncryptionChange status handle EncryptionEnabled.ON])
                      (set_connections_
                         (AclConnectionHandler.Encrypt (connections_ c) handle)
                         c)
            /\ AclConnectionHandler.IsEncrypted (connections_ c') handle = true).
Proof.
  intros c incoming rand ediv ltk Hpayload handle Hlive.
  exists (if bool_decide (ltk = replicate 16 0)
          then ErrorCode.AUTHENTICATION_FAILURE else ErrorCode.SUCCESS).
  assert (ltk = replicate 16 0 <-> zero_ltk ltk) as Hzero.
  { unfold zero_ltk. rewrite <- replicate_as_Forall. split; congruence. }
  split; [|split; [|split]].
  - case_bool_decide; split; try done; tauto.
  - case_bool_decide; split; try done; tauto.
  - intros Hencrypted.
    unfold IncomingLeEncryptConnectionResponse, send_event_. member_unfold.
    fold handle. apply Z.eqb_neq in Hlive. rewrite Hlive, Hpayload, Hencrypted.
    reflexivity.
  - intros Hencrypted.
    unfold IncomingLeEncryptConnectionResponse, send_event_. member_unfold.
    fold handle. pose proof Hlive as Hne.
    apply Z.eqb_neq in Hne. rewrite Hne, Hpayload, Hencrypted.
    eexists. split; [reflexivity|]. split; [reflexivity|]. simpl.
    destruct (GetHandleOnlyAddress_live _ _ Hlive) as (conn & Hconn & _).
    apply IsEncrypted_Encrypt. eauto.
Qed.

(** A rejection (zero LTK) on an encrypted connection refreshes the key with
    [AUTHENTICATION_FAILURE]; an acceptance on a connection that is not yet
    encrypted marks it encrypted and reports [SUCCESS]. *)
Lemma IncomingLeEncryptConnectionResponse_result_witness :
  IncomingLeEncryptConnectionResponse
    (Create peer_a 0x010203040506
            (LeEncryptConnectionResponse (replicate 8 0) 0 (replicate 16 0)))
    (connected_controller true)
  = Returns tt
      (set_events_sent
         [EncryptionKeyRefreshComplete ErrorCode.AUTHENTICATION_FAILURE 1]
         (connected_controller true))
  /\ exists c',
      IncomingLeEncryptConnectionResponse
        (Create peer_a 0x010203040506
                (LeEncryptConnectionResponse (replicate 8 0) 0 (replicate 16 7)))
        (connected_controller false)
      = Returns tt c'
      /\ events_sent c'
         = [EncryptionChange ErrorCode.SUCCESS 1 EncryptionEnabled.ON]
      /\ AclConnectionHandler.IsEncrypted (connections_ c') 1 = true.
Proof.
  split.
  - destruct (IncomingLeEncryptConnectionResponse_result
                (connected_controller true)
                (Create peer_a 0x010203040506
                        (LeEncryptConnectionResponse
                           (replicate 8 0) 0 (replicate 16 0)))
                (replicate 8 0) 0 (replicate 16 0) eq_refl)
      as (status & Hfailure & _ & Hrefresh & _).
    { intros H. vm_compute in H. discriminate. }
    rewrite (Hrefresh eq_refl).
    rewrite (proj2 Hfailure); [reflexivity|].
    split; [reflexivity|]. simpl. repeat constructor.
  - destruct (IncomingLeEncryptConnectionResponse_result
                (connected_controller false)
                (Create peer_a 0x010203040506
                        (LeEncryptConnectionResponse
                           (replicate 8 0) 0 (replicate 16 7)))
                (replicate 8 0) 0 (replicate 16 7) eq_refl)
      as (status & _ & Hsuccess & _ & Hchange).
    { intros H. vm_compute in H. discriminate. }
    destruct (Hchange eq_refl) as (c' & Hrun & Hc' & Hencrypted).
    exists c'. split; [exact Hrun|]. split; [|exact Hencrypted].
    rewrite Hc', (proj2 Hsuccess); [reflexivity|].
    intros [_ Hall]. simpl in Hall. inversion Hall. discriminate.
Defined.

(** ** Replies of the host during pairing *)

(** The seven replies that compare the peer with the authentication address
    reject another peer with [AUTHENTICATION_FAILURE] and change nothing. *)
Lemma checked_replies_reject_other_peer c peer :
  SecurityManager.GetAuthenticationAddress (security_manager_ c) <> peer ->
  (forall reason,
      IoCapabilityRequestNegativeReply peer reason c
      = Returns ErrorCode.AUTHENTICATION_FAILURE c)
  /\ UserConfirmationRequestReply peer c
     = Returns ErrorCode.AUTHENTICATION_FAILURE c
  /\ UserConfirmationRequestNegativeReply peer c
     = Returns ErrorCode.AUTHENTICATION_FAILURE c
  /\ (forall numeric_value,
         UserPasskeyRequestReply peer numeric_value c
         = Returns ErrorCode.AUTHENTICATION_FAILURE c)
  /\ UserPasskeyRequestNegativeReply peer c
     = Returns ErrorCode.AUTHENTICATION_FAILURE c
  /\ (forall c_ r_,
         RemoteOobDataRequestReply peer c_ r_ c
         = Returns ErrorCode.AUTHENTICATION_FAILURE c)
  /\ RemoteOobDataRequestNegativeReply peer c
     = Returns ErrorCode.AUTHENTICATION_FAILURE c.
Proof.
  intros Hother. apply Z.eqb_neq in Hother.
  unfold IoCapabilityRequestNegativeReply, UserConfirmationRequestReply,
    UserConfirmationRequestNegativeReply, UserPasskeyRequestReply,
    UserPasskeyRequestNegativeReply, RemoteOobDataRequestReply,
    RemoteOobDataRequestNegativeReply.
  member_unfold. rewrite Hother. simpl. repeat split.
Qed.

Lemma ScheduleTask_registered delay_ms callback received c :
  schedule_task_ c = Some received ->
  ScheduleTask delay_ms callback c
  = Returns (1 + Z.of_nat (length received))
      (set_schedule_task_ (Some (received ++ [(delay_ms, callback)])) c).
Proof.
  intros H. unfold ScheduleTask, ScheduleTaskOf. member_unfold. by rewrite H.
Qed.

(** C3.  [LinkKeyRequestReply] and [IoCapabilityRequestReply] do not compare
    the peer with the authentication address: for no peer and no state do
    they return [AUTHENTICATION_FAILURE], and with a scheduler registered
    they return [SUCCESS] for every peer, after storing the link key
    (respectively the local IO capabilities) and scheduling the next
    stage. *)
Theorem LinkKeyRequestReply_IoCapabilityRequestReply_unchecked :
  forall (selection_table :
            SecurityManager.IoCapabilities -> SecurityManager.IoCapabilities ->
            PairingType.t)
         (c : LinkLayerController) (peer : Address),
    (forall key c',
        LinkKeyRequestReply peer key c
        <> Returns ErrorCode.AUTHENTICATION_FAILURE c')
    /\ (forall io_capability oob_data_present_flag authentication_requirements c',
           IoCapabilityRequestReply
             selection_table peer io_capability oob_data_present_flag
             authentication_requirements c
           <> Returns ErrorCode.AUTHENTICATION_FAILURE c')
    /\ (forall key received,
           exists c',
             LinkKeyRequestReply peer key
                                 (set_schedule_task_ (Some received) c)
             = Returns ErrorCode.SUCCESS c'
             /\ SecurityManager.GetKey (security_manager_ c') peer = Some key
             /\ schedule_task_ c'
                = Some (received ++ [(5, CallAuthenticateRemoteStage2 peer)]))
    /\ (forall io_capability oob_data_present_flag authentication_requirements
               received,
           exists c',
             IoCapabilityRequestReply
               selection_table peer io_capability oob_data_present_flag
               authentication_requirements
               (set_schedule_task_ (Some received) c)
             = Returns ErrorCode.SUCCESS c'
             /\ SecurityManager.host_capabilities_ (security_manager_ c')
                = Some {| SecurityManager.io_capability_ := io_capability;
                          SecurityManager.oob_present_flag_ :=
                            oob_data_present_flag;
                          SecurityManager.authentication_requirements_ :=
                            authentication_requirements |}).
Proof.
  intros selection_table c peer. split; [|split; [|split]].
  - intros key c'. unfold LinkKeyRequestReply. member_unfold.
    destruct (ScheduleTask _ _ _); discriminate.
  - intros io oob auth c'. unfold IoCapabilityRequestReply. member_unfold.
    destruct (SecurityManager.GetSimplePairingType _ _);
      repeat match goal with
             | |- context [match ?m with Returns _ _ => _ | Aborts _ => _ end] =>
                 destruct m
             end; discriminate.
  - intros key received. unfold LinkKeyRequestReply. member_unfold.
    erewrite ScheduleTask_registered by reflexivity.
    eexists. split; [reflexivity|]. simpl. split; [|reflexivity].
    unfold SecurityManager.GetKey. simpl. apply lookup_insert_eq.
  - intros io oob auth received.
    unfold IoCapabilityRequestReply, SendLinkLayerPacket, ScheduleTaskOf.
    member_unfold.
    destruct (SecurityManager.GetSimplePairingType _ _);
      try (erewrite ScheduleTask_registered by reflexivity);
      simpl; eexists; (split; [reflexivity|]); reflexivity.
Qed.

(** While [peer_a] is being authenticated the host answers for [peer_b]:
    both replies succeed and change the security manager. *)
Lemma LinkKeyRequestReply_IoCapabilityRequestReply_unchecked_witness :
  SecurityManager.GetAuthenticationAddress
    (security_manager_ (with_scheduler authenticating_controller)) <> peer_b
  /\ (exists c',
         LinkKeyRequestReply peer_b (replicate 16 9)
                             (with_scheduler authenticating_controller)
         = Returns ErrorCode.SUCCESS c'
         /\ SecurityManager.GetKey (security_manager_ c') peer_b
            = Some (replicate 16 9)
         /\ schedule_task_ c' = Some [(5, CallAuthenticateRemoteStage2 peer_b)])
  /\ (exists c',
         IoCapabilityRequestReply confirm_always peer_b 1 0 0
                                  (with_scheduler authenticating_controller)
         = Returns ErrorCode.SUCCESS c'
         /\ SecurityManager.host_capabilities_ (security_manager_ c')
            = Some {| SecurityManager.io_capability_ := 1;
                      SecurityManager.oob_present_flag_ := 0;
                      SecurityManager.authentication_requirements_ := 0 |}).
Proof.
  split; [vm_compute; discriminate|].
  pose proof (LinkKeyRequestReply_IoCapabilityRequestReply_unchecked
                confirm_always authenticating_controller peer_b)
    as (_ & _ & Hkey & Hio).
  split.
  - exact (Hkey (replicate 16 9) []).
  - exact (Hio 1 0 0 []).
Defined.

(** Without a scheduler the scheduled stage runs at once and its own
    assertion on the authentication address stops the process. *)
Example LinkKeyRequestReply_other_peer_no_scheduler :
  LinkKeyRequestReply peer_b (replicate 16 9) authenticating_controller
  = Aborts AssertionFailed.
Proof. reflexivity. Qed.

(** ** Resolving list *)

Lemma LeResolvingListRemoveDevice_loop_connect_list l i addr addr_type c c' :
  LeResolvingListRemoveDevice_loop l i addr addr_type c = Returns tt c' ->
  le_connect_list_ c' = le_connect_list_ c.
Proof.
  revert i c. induction l as [|curr rest IH]; intros i c; simpl.
  - member_unfold. by intros [= <-].
  - member_unfold.
    destruct (_ && _).
    + destruct (_ <? _)%nat; [|done].
      intros H. by apply IH in H.
    + apply IH.
Qed.

(** The part of C2 that holds: the connect list is never changed. *)
Lemma LeResolvingListRemoveDevice_connect_list addr addr_type c c' :
  LeResolvingListRemoveDevice addr addr_type c = Returns tt c' ->
  le_connect_list_ c' = le_connect_list_ c.
Proof.
  unfold LeResolvingListRemoveDevice. member_unfold.
  apply LeResolvingListRemoveDevice_loop_connect_list.
Qed.

(** C2.  [LeResolvingListRemoveDevice] walks the connect list.  With an
    empty connect list it erases nothing, so an entry of the resolving list
    with the given address and type remains; and an entry of the connect
    list with the given address and type erases the resolving-list entry at
    the same index, whatever device that entry is for. *)
Theorem LeResolvingListRemoveDevice_walks_connect_list :
  forall (c : LinkLayerController) (addr other : Address) (addr_type : Z)
         (peerIrk localIrk : Octets),
    let entry := (addr, addr_type, peerIrk, localIrk) in
    (let c1 := set_le_connect_list_ [] (set_le_resolving_list_ [entry] c) in
     LeResolvingListRemoveDevice addr addr_type c1 = Returns tt c1
     /\ In entry (le_resolving_list_ c1))
    /\ (let c2 :=
          set_le_connect_list_ [(other, addr_type)]
                               (set_le_resolving_list_ [entry] c) in
        LeResolvingListRemoveDevice other addr_type c2
        = Returns tt (set_le_resolving_list_ [] c2)).
Proof.
  intros c addr other addr_type peerIrk localIrk entry. split.
  - split; [reflexivity|]. simpl. by left.
  - unfold LeResolvingListRemoveDevice. member_unfold. simpl. member_unfold.
    simpl. by rewrite !Z.eqb_refl.
Qed.

(** From a fresh controller: [peer_a] is added to the resolving list and
    removed again, and is still there. *)
Example LeResolvingListRemoveDevice_example :
  (LeResolvingListAddDevice peer_a 0 (replicate 16 1) (replicate 16 2) ;;
   LeResolvingListRemoveDevice peer_a 0 ;;
   gets le_resolving_list_) (fresh_controller example_properties)
  = Returns [(peer_a, 0, replicate 16 1, replicate 16 2)]
      (set_le_resolving_list_ [(peer_a, 0, replicate 16 1, replicate 16 2)]
                              (fresh_controller example_properties)).
Proof. reflexivity. Qed.

(** ** Connect list *)

(** The loop of [LeConnectListRemoveDevice] only erases. *)
Lemma LeConnectListRemoveDevice_loop_sublist remaining i erase_tuple l :
  LeConnectListRemoveDevice_loop remaining i erase_tuple l `sublist_of` l.
Proof.
  revert i l. induction remaining as [|remaining IH]; intros i l; simpl.
  - reflexivity.
  - destruct (l !! i) as [dev|]; [|reflexivity].
    case_bool_decide; [|apply IH].
    etrans; [apply IH|]. apply sublist_delete.
Qed.

(** The size of the vector bounds the iterations: once [i] has reached the
    end, further iterations change nothing. *)
Lemma LeConnectListRemoveDevice_loop_finished n m i erase_tuple l :
  (length l <= i + n)%nat -> (n <= m)%nat ->
  LeConnectListRemoveDevice_loop m i erase_tuple l
  = LeConnectListRemoveDevice_loop n i erase_tuple l.
Proof.
  revert m i l. induction n as [|n IH]; intros m i l Hlen Hm.
  - simpl. destruct m as [|m]; [done|]. simpl.
    rewrite (lookup_ge_None_2 l i) by lia. done.
  - destruct m as [|m]; [lia|]. simpl.
    destruct (l !! i) as [dev|] eqn:Hdev; [|done].
    apply lookup_lt_Some in Hdev.
    case_bool_decide; apply IH; try lia.
    rewrite length_delete; [lia|]. by apply lookup_lt_is_Some_2.
Qed.

Lemma existsb_tuple_In (l : list (Address * Z)) (t : Address * Z) :
  existsb (fun dev => bool_decide (dev = t)) l = true <-> In t l.
Proof.
  rewrite existsb_exists. split.
  - intros (dev & Hin & Heq). apply bool_decide_eq_true in Heq. by subst.
  - intros Hin. exists t. split; [done|]. by apply bool_decide_eq_true.
Qed.

Lemma connect_list_call_NoDup call c :
  NoDup (le_connect_list_ c) ->
  exists c', connect_list_call call c = Returns tt c'
             /\ NoDup (le_connect_list_ c').
Proof.
  intros Hnodup. destruct call as [|addr addr_type|addr addr_type]; simpl.
  - eexists. split; [reflexivity|]. simpl. constructor.
  - unfold LeConnectListAddDevice. member_unfold.
    destruct (existsb _ _) eqn:Hex; eexists; (split; [reflexivity|]);
      [done|]. simpl.
    apply NoDup_app. split; [done|]. split; [|apply NoDup_singleton].
    intros dev Hin Hdev. apply list_elem_of_singleton in Hdev. subst dev.
    apply list_elem_of_In in Hin. apply existsb_tuple_In in Hin. congruence.
  - eexists. split; [reflexivity|]. simpl.
    eapply sublist_NoDup; [exact Hnodup|apply LeConnectListRemoveDevice_loop_sublist].
Qed.

(** C9.  Whatever calls of [LeConnectListClear], [LeConnectListAddDevice]
    and [LeConnectListRemoveDevice] are made on a controller whose connect
    list has no pair twice, each of them returns and the list still has no
    pair twice.  Adding a pair that is present leaves the controller as it
    was; after adding any pair, [LeConnectListContainsDevice] returns true
    for it and adding it again changes nothing. *)
Theorem le_connect_list_no_duplicates :
  forall (c : LinkLayerController) (calls : list ConnectListCall),
    NoDup (le_connect_list_ c) ->
    (exists c', for_each calls connect_list_call c = Returns tt c'
                /\ NoDup (le_connect_list_ c'))
    /\ (forall addr addr_type,
           In (addr, addr_type) (le_connect_list_ c) ->
           LeConnectListAddDevice addr addr_type c = Returns tt c)
    /\ (forall addr addr_type,
           exists c',
             LeConnectListAddDevice addr addr_type c = Returns tt c'
             /\ LeConnectListContainsDevice addr addr_type c' = Returns true c'
             /\ LeConnectListAddDevice addr addr_type c' = Returns tt c').
Proof.
  intros c calls Hnodup. split; [|split].
  - revert c Hnodup. induction calls as [|call calls IH]; intros c Hnodup.
    + exists c. by split.
    + destruct (connect_list_call_NoDup call c Hnodup) as (c1 & Hcall & Hc1).
      destruct (IH c1 Hc1) as (c' & Hrest & Hc').
      exists c'. split; [|done]. simpl. unfold bind. by rewrite Hcall.
  - intros addr addr_type Hin. apply existsb_tuple_In in Hin.
    unfold LeConnectListAddDevice. member_unfold. by rewrite Hin.
  - intros addr addr_type.
    unfold LeConnectListAddDevice, LeConnectListContainsDevice. member_unfold.
    destruct (existsb _ (le_connect_list_ c)) eqn:Hex.
    + exists c. rewrite Hex. done.
    + eexists. split; [reflexivity|]. simpl.
      assert (existsb (fun dev => bool_decide (dev = (addr, addr_type)))
                (le_connect_list_ c ++ [(addr, addr_type)]) = true) as ->.
      { apply existsb_tuple_In, in_or_app. right. by left. }
      done.
Qed.

(** From the empty list of a fresh controller: a pair is added twice,
    another pair is added and removed. *)
Lemma le_connect_list_no_duplicates_witness :
  (exists c',
      for_each [AddDevice peer_a 0; AddDevice peer_a 0; AddDevice peer_b 1;
                RemoveDevice peer_b 1]
               connect_list_call (fresh_controller example_properties)
      = Returns tt c'
      /\ NoDup (le_connect_list_ c'))
  /\ (let c := set_le_connect_list_ [(peer_a, 0)]
                                    (fresh_controller example_properties) in
      LeConnectListAddDevice peer_a 0 c = Returns tt c).
Proof.
  split.
  - apply (le_connect_list_no_duplicates
             (fresh_controller example_properties)). constructor.
  - intros c.
    apply (proj1 (proj2 (le_connect_list_no_duplicates c [] ltac:(
             repeat constructor; simpl; set_solver)))).
    simpl. by left.
Defined.

Example le_connect_list_example :
  (for_each [AddDevice peer_a 0; AddDevice peer_a 0; AddDevice peer_b 1;
             RemoveDevice peer_b 1]
            connect_list_call ;;
   gets le_connect_list_) (fresh_controller example_properties)
  = Returns [(peer_a, 0)]
      (set_le_connect_list_ [(peer_a, 0)] (fresh_controller example_properties)).
Proof. reflexivity. Qed.

(** ** Extended advertising enable *)

(** C10.  [SetLeExtendedAdvertisingEnable] returns
    [INVALID_HCI_COMMAND_PARAMETERS] exactly when some requested advertising
    handle is greater than the number of advertising sets, and whenever it
    returns this code the controller is as it was before the call: no
    advertising set has been enabled or disabled. *)
Theorem SetLeExtendedAdvertisingEnable_validates_first :
  forall (c : LinkLayerController) (enable : Enable.t)
         (enabled_sets : list EnabledSet),
    let exceeds (set : EnabledSet) :=
      Z.of_nat (length (advertisers_ c)) < advertising_handle_ set in
    ((exists set, In set enabled_sets /\ exceeds set) ->
     SetLeExtendedAdvertisingEnable enable enabled_sets c
     = Returns ErrorCode.INVALID_HCI_COMMAND_PARAMETERS c)
    /\ (forall c',
           SetLeExtendedAdvertisingEnable enable enabled_sets c
           = Returns ErrorCode.INVALID_HCI_COMMAND_PARAMETERS c' ->
           (exists set, In set enabled_sets /\ exceeds set)
           /\ c' = c
           /\ map LeAdvertiser.IsEnabled (advertisers_ c')
              = map LeAdvertiser.IsEnabled (advertisers_ c)).
Proof.
  intros c enable enabled_sets exceeds.
  unfold SetLeExtendedAdvertisingEnable. member_unfold.
  destruct (existsb _ enabled_sets) eqn:Hex.
  - apply existsb_exists in Hex as (set & Hin & Hset).
    apply Z.ltb_lt in Hset. split; [done|].
    intros c' [= <-]. split; [|done]. by exists set.
  - split.
    + intros (set & Hin & Hset).
      assert (existsb
                (fun set => Z.of_nat (length (advertisers_ c))
                            <? advertising_handle_ set) enabled_sets = true)
        as Hex'.
      { apply existsb_exists. exists set. split; [done|].
        by apply Z.ltb_lt. }
      pose proof (eq_trans (eq_sym Hex') Hex). done.
    + intros c'. destruct (for_each _ _ _); discriminate.
Qed.

(** Three advertising sets; the request names set 0 and handle 4.  Nothing
    is enabled, although set 0 comes first in the request. *)
Lemma SetLeExtendedAdvertisingEnable_validates_first_witness :
  SetLeExtendedAdvertisingEnable
    Enable.ENABLED request_0_and_4 (fresh_controller example_properties)
  = Returns ErrorCode.INVALID_HCI_COMMAND_PARAMETERS
      (fresh_controller example_properties)
  /\ map LeAdvertiser.IsEnabled
         (advertisers_ (fresh_controller example_properties))
     = [false; false; false].
Proof.
  assert (SetLeExtendedAdvertisingEnable
            Enable.ENABLED request_0_and_4
            (fresh_controller example_properties)
          = Returns ErrorCode.INVALID_HCI_COMMAND_PARAMETERS
              (fresh_controller example_properties)) as Hrun.
  { apply (proj1 (SetLeExtendedAdvertisingEnable_validates_first
                    (fresh_controller example_properties)
                    Enable.ENABLED request_0_and_4)).
    eexists. split; [right; left; reflexivity|]. simpl. lia. }
  split; [exact Hrun|].
  destruct (proj2 (SetLeExtendedAdvertisingEnable_validates_first
                     (fresh_controller example_properties)
                     Enable.ENABLED request_0_and_4) _ Hrun) as (_ & _ & Hsame).
  reflexivity.
Defined.

(** A valid request does change the sets: sets 0 and 2 are enabled. *)
Example SetLeExtendedAdvertisingEnable_enables :
  (SetLeExtendedAdvertisingEnable
     Enable.ENABLED
     [ {| advertising_handle_ := 0; duration_ := 0;
          max_extended_advertising_events_ := 0 |};
       {| advertising_handle_ := 2; duration_ := 5;
          max_extended_advertising_events_ := 0 |} ] ;;
   advertisers <- gets advertisers_ ;;
   ret (map LeAdvertiser.IsEnabled advertisers))
    (fresh_controller example_properties)
  = Returns [true; false; true]
      (set_advertisers_
         [LeAdvertiser.EnableExtended cleared_advertiser 0;
          cleared_advertiser;
          LeAdvertiser.EnableExtended cleared_advertiser 50]
         (fresh_controller example_properties)).
Proof. reflexivity. Qed.

(** A handle equal to the number of sets passes the comparison with [>]
    and then indexes the array one past its end. *)
Example SetLeExtendedAdvertisingEnable_handle_equal_to_size :
  SetLeExtendedAdvertisingEnable
    Enable.ENABLED
    [ {| advertising_handle_ := 3; duration_ := 0;
         max_extended_advertising_events_ := 0 |} ]
    (fresh_controller example_properties)
  = Aborts UndefinedBehaviour.
Proof. reflexivity. Qed.

(** ** Legacy advertising enable *)

Lemma Qfloor_advertising_interval_ms interval_max interval_min :
  Qfloor (advertising_interval_ms interval_max interval_min)
  = 5 * (interval_max + interval_min) / 16.
Proof.
  unfold advertising_interval_ms.
  unfold Qdiv, Qmult, Qinv, inject_Z, Qfloor. simpl.
  rewrite Z.mul_1_r.
  replace ((interval_max + interval_min) * 625)
    with ((5 * (interval_max + interval_min)) * 125) by lia.
  change (Z.pos (1 * 1000 * 2)) with (16 * 125).
  rewrite Z.div_mul_cancel_r; lia.
Qed.

Lemma advertising_interval_ms_lt_20 interval_max interval_min :
  (advertising_interval_ms interval_max interval_min < 20)%Q
  <-> Qfloor (advertising_interval_ms interval_max interval_min) < 20.
Proof.
  rewrite Qfloor_advertising_interval_ms.
  unfold advertising_interval_ms, Qlt, Qdiv, Qmult, Qinv, inject_Z. simpl.
  split; intros H.
  - apply Z.div_lt_upper_bound; lia.
  - assert (5 * (interval_max + interval_min) < 16 * 20); [|lia].
    destruct (Z.lt_ge_cases (5 * (interval_max + interval_min)) (16 * 20));
      [done|].
    assert (20 <= 5 * (interval_max + interval_min) / 16); [|lia].
    apply Z.div_le_lower_bound; lia.
Qed.

(** The interval of two [uint16_t] values fits [uint64_t]. *)
Lemma to_size_t_interval interval_max interval_min :
  0 <= interval_min < 2 ^ 16 -> 0 <= interval_max < 2 ^ 16 ->
  to_size_t (Qfloor (advertising_interval_ms interval_max interval_min))
  = Qfloor (advertising_interval_ms interval_max interval_min).
Proof.
  intros Hmin Hmax. rewrite Qfloor_advertising_interval_ms.
  unfold to_size_t. apply Z.mod_small. split.
  - apply Z.div_pos; lia.
  - apply Z.div_lt_upper_bound; lia.
Qed.

(** [Address::ToString] tells 48-bit addresses apart, so comparing its
    result with the placeholder text compares the address with
    [bb:bb:bb:ba:d0:1e]. *)
Lemma hex_digit_inj m n :
  0 <= m < 16 -> 0 <= n < 16 -> hex_digit m = hex_digit n -> m = n.
Proof.
  intros Hm Hn Hdigit. unfold hex_digit in Hdigit.
  assert (NoDup (list_ascii_of_string "0123456789abcdef")) as Hdigits.
  { apply (bool_decide_unpack _). by vm_compute. }
  destruct (lookup_lt_is_Some_2
              (list_ascii_of_string "0123456789abcdef") (Z.to_nat m))
    as [x Hx]; [simpl; lia|].
  destruct (lookup_lt_is_Some_2
              (list_ascii_of_string "0123456789abcdef") (Z.to_nat n))
    as [y Hy]; [simpl; lia|].
  rewrite (nth_lookup_Some _ _ _ _ Hx), (nth_lookup_Some _ _ _ _ Hy) in Hdigit.
  subst y.
  pose proof (proj1 (NoDup_alt _) Hdigits _ _ _ Hx Hy). lia.
Qed.

Lemma hex_octet_inj b1 b2 :
  0 <= b1 < 256 -> 0 <= b2 < 256 -> hex_octet b1 = hex_octet b2 -> b1 = b2.
Proof.
  intros H1 H2. unfold hex_octet. intros [= Hhigh Hlow].
  rewrite !Z.shiftr_div_pow2 in Hhigh by lia.
  change 15 with (Z.ones 4) in Hlow. rewrite !Z.land_ones in Hlow by lia.
  change (2 ^ 4) with 16 in *.
  apply hex_digit_inj in Hhigh; [|Z.div_mod_to_equations; lia..].
  apply hex_digit_inj in Hlow; [|Z.div_mod_to_equations; lia..].
  Z.div_mod_to_equations. lia.
Qed.

Lemma octet_range a k : 0 <= octet a k < 256.
Proof.
  unfold octet. change 255 with (Z.ones 8). rewrite Z.land_ones by lia.
  apply Z.mod_pos_bound. lia.
Qed.

Lemma octets_inj a b :
  0 <= a < 2 ^ 48 -> 0 <= b < 2 ^ 48 ->
  octet a 0 = octet b 0 -> octet a 1 = octet b 1 -> octet a 2 = octet b 2 ->
  octet a 3 = octet b 3 -> octet a 4 = octet b 4 -> octet a 5 = octet b 5 ->
  a = b.
Proof.
  unfold octet. change 255 with (Z.ones 8).
  rewrite !Z.land_ones, !Z.shiftr_div_pow2 by lia.
  change (2 ^ 48) with 281474976710656. change (2 ^ 8) with 256.
  change (2 ^ (8 * 0)) with 1. change (2 ^ (8 * 1)) with 256.
  change (2 ^ (8 * 2)) with 65536. change (2 ^ (8 * 3)) with 16777216.
  change (2 ^ (8 * 4)) with 4294967296.
  change (2 ^ (8 * 5)) with 1099511627776.
  intros Ha Hb H0 H1 H2 H3 H4 H5.
  Z.div_mod_to_equations. lia.
Qed.

Lemma ToString_inj a b :
  0 <= a < 2 ^ 48 -> 0 <= b < 2 ^ 48 -> ToString a = ToString b -> a = b.
Proof.
  intros Ha Hb. unfold ToString.
  assert (forall k, hex_octet (octet a k) = hex_octet (octet b k) ->
                    octet a k = octet b k) as Hoctet.
  { intros k. apply hex_octet_inj; apply octet_range. }
  unfold hex_octet at 1 2 3 4 5 6 7 8 9 10 11 12. cbn [String.app].
  intros H.
  injection H as H5h H5l H4h H4l H3h H3l H2h H2l H1h H1l H0h H0l.
  apply octets_inj; [done | done | apply Hoctet; unfold hex_octet; congruence..].
Qed.

Lemma ToString_placeholder a :
  0 <= a < 2 ^ 48 ->
  ToString a = kDefaultLeAddress <-> a = 0xbbbbbbbad01e.
Proof.
  intros Ha. split; [|by intros ->].
  change kDefaultLeAddress with (ToString 0xbbbbbbbad01e).
  apply ToString_inj; [done|]. change (2 ^ 48) with 281474976710656. lia.
Qed.

Lemma empty_or_placeholder_address le_address :
  0 <= le_address < 2 ^ 48 ->
  empty_or_placeholder le_address
  <-> le_address = kEmpty \/ le_address = 0xbbbbbbbad01e.
Proof.
  intros Hrange. unfold empty_or_placeholder.
  by rewrite ToString_placeholder.
Qed.

(** C6, as amended.  With interval minimum and maximum in the range of
    [uint16_t] and at least one advertising set, [SetLeAdvertisingEnable (1)]
    returns [INVALID_HCI_COMMAND_PARAMETERS], leaving the controller as it
    was, when the own-address type is random (device or identity) and the LE
    address is the empty address or the placeholder [bb:bb:bb:ba:d0:1e], and
    also when [(min + max) * 0.625 / 2] is below 20; otherwise it
    initializes advertiser 0 from the device properties, enables it and
    returns [SUCCESS]. *)
Theorem SetLeAdvertisingEnable_result :
  forall c : LinkLayerController,
    0 <= properties_GetLeAdvertisingIntervalMin (properties_ c) < 2 ^ 16 ->
    0 <= properties_GetLeAdvertisingIntervalMax (properties_ c) < 2 ^ 16 ->
    advertisers_ c <> [] ->
    SetLeAdvertisingEnable_claim empty_or_placeholder c.
Proof.
  intros c Hmin Hmax Hsets.
  unfold SetLeAdvertisingEnable_claim, SetLeAdvertisingEnable, on_advertiser.
  member_unfold. change (1 =? 0) with false. cbv beta iota.
  fold (is_random_address_type
          (properties_GetLeAdvertisingOwnAddressType (properties_ c))).
  rewrite to_size_t_interval by done.
  set (random := is_random_address_type _).
  set (le_address := properties_GetLeAddress (properties_ c)).
  set (interval := Qfloor _).
  assert ((String.eqb (ToString le_address) kDefaultLeAddress
           || (le_address =? kEmpty)) = true
          <-> empty_or_placeholder le_address) as Hnot_set.
  { unfold empty_or_placeholder.
    rewrite orb_true_iff, String.eqb_eq, Z.eqb_eq. tauto. }
  pose proof (advertising_interval_ms_lt_20
                (properties_GetLeAdvertisingIntervalMax (properties_ c))
                (properties_GetLeAdvertisingIntervalMin (properties_ c)))
    as Hinterval.
  fold interval in Hinterval.
  split.
  - intros [[Hrandom Haddress] | Hshort].
    + apply Hnot_set in Haddress. by rewrite Hrandom, Haddress.
    + apply Hinterval, Z.ltb_lt in Hshort. rewrite Hshort.
      by destruct (random && _).
  - intros Hok.
    assert ((random && (String.eqb (ToString le_address) kDefaultLeAddress
                        || (le_address =? kEmpty))) = false) as ->.
    { apply not_true_is_false. intros [Hrandom Haddress]%andb_true_iff.
      apply Hok. left. split; [done|]. by apply Hnot_set. }
    assert ((interval <? 20) = false) as ->.
    { apply Z.ltb_ge. destruct (Z.lt_ge_cases interval 20); [|done].
      exfalso. apply Hok. right. by apply Hinterval. }
    destruct (advertisers_ c) as [|advertiser rest] eqn:Hadvertisers; [done|].
    change (Z.to_nat 0) with 0%nat. cbn [lookup list_lookup].
    eexists. split; [reflexivity|].
    unfold advertiser_0_started. exists advertiser, rest.
    split; [done|]. clear. destruct c. reflexivity.
Qed.

(** A public own-address type with the placeholder LE address starts
    advertiser 0; a random own-address type with the placeholder address is
    refused. *)
Lemma SetLeAdvertisingEnable_result_witness :
  (exists c',
      SetLeAdvertisingEnable
        1 (fresh_controller (properties_with 0xbbbbbbbad01e 0 0x0800))
      = Returns ErrorCode.SUCCESS c'
      /\ map LeAdvertiser.IsEnabled (advertisers_ c') = [true; false; false])
  /\ SetLeAdvertisingEnable 1 (fresh_controller example_properties)
     = Returns ErrorCode.INVALID_HCI_COMMAND_PARAMETERS
         (fresh_controller example_properties).
Proof.
  split.
  - destruct (SetLeAdvertisingEnable_result
                (fresh_controller (properties_with 0xbbbbbbbad01e 0 0x0800)))
      as [_ Hstart]; [simpl; lia | simpl; lia | done |].
    destruct Hstart as (c' & Hrun & advertiser & rest & Hsets & Hc').
    { intros [[Hrandom _] | Hshort]; [discriminate|].
      vm_compute in Hshort. discriminate. }
    exists c'. split; [exact Hrun|].
    injection Hsets as <- <-. rewrite Hc'. reflexivity.
  - destruct (SetLeAdvertisingEnable_result
                (fresh_controller example_properties))
      as [Hrefused _]; [simpl; lia | simpl; lia | done |].
    apply Hrefused. left. split; [reflexivity|]. right. reflexivity.
Defined.

(** C6, as stated, fails: with a random own-address type, the placeholder
    LE address (which is not the empty address) and an interval of 1280 ms,
    the claim promises [SUCCESS] and an enabled advertiser 0, and the call
    returns [INVALID_HCI_COMMAND_PARAMETERS]. *)
Lemma SetLeAdvertisingEnable_placeholder_refused :
  ~ SetLeAdvertisingEnable_claim
      empty_sentinel (fresh_controller example_properties).
Proof.
  intros [_ Hstart].
  destruct Hstart as (c' & Hrun & _).
  - intros [[_ Hempty] | Hshort].
    + vm_compute in Hempty. discriminate.
    + vm_compute in Hshort. discriminate.
  - vm_compute in Hrun. discriminate.
Qed.

(** ** ACL data from a peer *)

Lemma to_int_small x : 0 <= x < 2 ^ 31 -> to_int x = x.
Proof. intros H. unfold to_int. rewrite Z.mod_small; lia. Qed.

Lemma to_size_t_small x : 0 <= x < 2 ^ 64 -> to_size_t x = x.
Proof. intros H. unfold to_size_t. apply Z.mod_small; lia. Qed.

(** A fragment that starts inside the payload is the next
    [acl_buffer_size] octets, or what is left of the payload. *)
Lemma fragment_of_chunk (payload_data : Octets) start_index acl_buffer_size :
  0 <= start_index <= Z.of_nat (length payload_data) ->
  0 < acl_buffer_size ->
  fragment_of payload_data start_index
              (Z.min (start_index + acl_buffer_size)
                     (Z.of_nat (length payload_data)))
  = take (Z.to_nat acl_buffer_size) (drop (Z.to_nat start_index) payload_data).
Proof.
  intros Hstart Hsize. unfold fragment_of.
  destruct (Z.le_gt_cases (start_index + acl_buffer_size)
                          (Z.of_nat (length payload_data))) as [Hle|Hgt].
  - rewrite Z.min_l by done. f_equal. lia.
  - rewrite Z.min_r by lia.
    rewrite !take_ge; [done| |]; rewrite length_drop; lia.
Qed.

Lemma set_acl_sent_app c sent1 sent2 :
  set_acl_sent (acl_sent (set_acl_sent (acl_sent c ++ sent1) c) ++ sent2)
               (set_acl_sent (acl_sent c ++ sent1) c)
  = set_acl_sent (acl_sent c ++ sent1 ++ sent2) c.
Proof. destruct c. unfold set_acl_sent. simpl. by rewrite app_assoc. Qed.

Lemma set_acl_sent_nil c : set_acl_sent (acl_sent c ++ []) c = c.
Proof. destruct c. unfold set_acl_sent. simpl. by rewrite app_nil_r. Qed.

(** The loop, as long as every iteration starts inside the payload: it
    sends [remaining] fragments, which are the consecutive chunks of
    [acl_buffer_size] octets from offset [acl_buffer_size * i] on. *)
Lemma IncomingAclPacket_loop_fragments
      (payload_data : Octets) acl_buffer_size local_handle bc :
  0 < acl_buffer_size < 2 ^ 16 ->
  Z.of_nat (length payload_data) < 2 ^ 31 ->
  forall remaining i pb c,
    0 <= i ->
    (remaining <> 0%nat ->
     (i + Z.of_nat remaining - 1) * acl_buffer_size
     < Z.of_nat (length payload_data)) ->
    exists fragments,
      IncomingAclPacket_loop remaining i pb local_handle bc payload_data
                             acl_buffer_size c
      = Returns tt (set_acl_sent (acl_sent c ++ fragments) c)
      /\ length fragments = remaining
      /\ concat (map acl_payload fragments)
         = take (remaining * Z.to_nat acl_buffer_size)
                (drop (Z.to_nat (acl_buffer_size * i)) payload_data)
      /\ match fragments with
         | [] => True
         | first :: rest =>
             acl_packet_boundary_flag first = pb
             /\ Forall (fun fragment =>
                          acl_packet_boundary_flag fragment
                          = PacketBoundaryFlag.CONTINUING_FRAGMENT) rest
         end
      /\ Forall (fun fragment =>
                   acl_broadcast_flag fragment = bc
                   /\ acl_handle fragment = local_handle
                   /\ (0 < length (acl_payload fragment)
                       <= Z.to_nat acl_buffer_size)%nat) fragments.
Proof.
  intros Hsize Hlength.
  induction remaining as [|remaining IH]; intros i pb c Hi Hinside.
  - exists []. simpl. rewrite set_acl_sent_nil. repeat split; constructor.
  - assert (0 <= acl_buffer_size * i < Z.of_nat (length payload_data))
      as Hstart by (specialize (Hinside ltac:(done)); nia).
    simpl. unfold send_acl_. member_unfold.
    rewrite (to_int_small (acl_buffer_size * i)) by lia.
    rewrite (to_size_t_small (acl_buffer_size * i)) by lia.
    rewrite (to_size_t_small (acl_buffer_size * i + acl_buffer_size)) by lia.
    rewrite fragment_of_chunk by lia.
    set (fragment := {| acl_handle := local_handle;
                        acl_packet_boundary_flag := pb;
                        acl_broadcast_flag := bc;
                        acl_payload := _ |}).
    destruct (IH (i + 1) PacketBoundaryFlag.CONTINUING_FRAGMENT
                 (set_acl_sent (acl_sent c ++ [fragment]) c))
      as (fragments & Hrun & Hcount & Hconcat & Hflags & Hall);
      [lia | intros; nia |].
    exists (fragment :: fragments). rewrite Hrun.
    split; [by rewrite set_acl_sent_app|]. split; [simpl; lia|].
    split; [|split; [split; [done|]|]].
    + simpl. rewrite Hconcat.
      replace (Z.to_nat (acl_buffer_size * (i + 1)))
        with (Z.to_nat (acl_buffer_size * i) + Z.to_nat acl_buffer_size)%nat
        by lia.
      rewrite <- drop_drop. apply take_take_drop.
    + destruct fragments as [|second rest]; [constructor|].
      destruct Hflags as [Hsecond Hrest]. by constructor.
    + constructor; [|exact Hall]. simpl. split; [done|]. split; [done|].
      rewrite length_take, length_drop. lia.
Qed.

(** C7.  For an incoming ACL packet with payload [payload_data], a local
    ACL data-packet size S with 0 < S (S is a [uint16_t]) and a payload
    shorter than 2^31 octets, the controller hands the host n fragments and
    nothing else, where n is the ceiling of L / S (the n with
    L <= n * S < L + S).  Their payloads, in order, concatenate to
    [payload_data]; each is non-empty and at most S octets long.  The first
    carries the inbound packet-boundary flag, with
    [FIRST_NON_AUTOMATICALLY_FLUSHABLE] replaced by
    [FIRST_AUTOMATICALLY_FLUSHABLE]; the others carry [CONTINUING_FRAGMENT];
    all carry the inbound broadcast flag and the local handle of the
    sender. *)
Theorem IncomingAclPacket_fragments :
  forall (c : LinkLayerController) (incoming : LinkLayerPacket)
         (remote_handle : Z) (pb : PacketBoundaryFlag.t)
         (bc : BroadcastFlag.t) (payload_data : Octets),
    GetPayload incoming = Acl remote_handle pb bc payload_data ->
    0 < properties_GetAclDataPacketSize (properties_ c) < 2 ^ 16 ->
    Z.of_nat (length payload_data) < 2 ^ 31 ->
    exists fragments,
      IncomingAclPacket incoming c
      = Returns tt (set_acl_sent (acl_sent c ++ fragments) c)
      /\ (Z.of_nat (length payload_data)
          <= Z.of_nat (length fragments)
             * properties_GetAclDataPacketSize (properties_ c)
          < Z.of_nat (length payload_data)
            + properties_GetAclDataPacketSize (properties_ c))
      /\ concat (map acl_payload fragments) = payload_data
      /\ match fragments with
         | [] => True
         | first :: rest =>
             acl_packet_boundary_flag first
             = match pb with
               | PacketBoundaryFlag.FIRST_NON_AUTOMATICALLY_FLUSHABLE =>
                   PacketBoundaryFlag.FIRST_AUTOMATICALLY_FLUSHABLE
               | _ => pb
               end
             /\ Forall (fun fragment =>
                          acl_packet_boundary_flag fragment
                          = PacketBoundaryFlag.CONTINUING_FRAGMENT) rest
         end
      /\ Forall (fun fragment =>
                   acl_broadcast_flag fragment = bc
                   /\ acl_handle fragment
                      = AclConnectionHandler.GetHandleOnlyAddress
                          (connections_ c) (GetSourceAddress incoming)
                   /\ (0 < length (acl_payload fragment)
                       <= Z.to_nat (properties_GetAclDataPacketSize
                                      (properties_ c)))%nat) fragments.
Proof.
  intros c incoming remote_handle pb bc payload_data Hpayload Hsize Hlength.
  set (S := properties_GetAclDataPacketSize (properties_ c)) in *.
  set (L := Z.of_nat (length payload_data)) in *.
  assert (0 <= L) as HL by (subst L; lia).
  assert (0 <= (L + S - 1) / S) as Hq by (apply Z.div_pos; lia).
  pose proof (Z.mul_div_le (L + S - 1) S ltac:(lia)) as Hlow.
  pose proof (Z.mul_succ_div_gt (L + S - 1) S ltac:(lia)) as Hhigh.
  assert ((L + S - 1) / S < 2 ^ 31) as Hn
      by (apply Z.div_lt_upper_bound; nia).
  unfold IncomingAclPacket. rewrite Hpayload. member_unfold. fold S.
  destruct (Z.eqb_spec S 0) as [|_]; [lia|]. fold L.
  rewrite (to_size_t_small (L + S - 1)) by lia.
  rewrite (to_int_small ((L + S - 1) / S)) by lia.
  destruct (IncomingAclPacket_loop_fragments
              payload_data S
              (AclConnectionHandler.GetHandleOnlyAddress
                 (connections_ c) (GetSourceAddress incoming))
              bc Hsize Hlength
              (Z.to_nat ((L + S - 1) / S)) 0
              (if PacketBoundaryFlag.eqb
                    pb PacketBoundaryFlag.FIRST_NON_AUTOMATICALLY_FLUSHABLE
               then PacketBoundaryFlag.FIRST_AUTOMATICALLY_FLUSHABLE
               else pb) c)
    as (fragments & Hrun & Hcount & Hconcat & Hflags & Hall);
    [lia | intros; fold L; nia |].
  exists fragments. split; [exact Hrun|]. rewrite Hcount.
  split; [rewrite Z2Nat.id by lia; nia|]. split; [|split; [|exact Hall]].
  - rewrite Hconcat. rewrite Z.mul_0_r. simpl. rewrite drop_0.
    apply take_ge. fold L in Hlow, Hhigh. nia.
  - destruct fragments as [|first rest]; [done|].
    destruct Hflags as [Hfirst Hrest]. split; [|exact Hrest].
    rewrite Hfirst. by destruct pb.
Qed.

(** 250 octets with a data-packet size of 100: three fragments. *)
Lemma IncomingAclPacket_fragments_witness :
  exists fragments,
    IncomingAclPacket example_acl (connected_controller false)
    = Returns tt (set_acl_sent fragments (connected_controller false))
    /\ length fragments = 3%nat
    /\ concat (map acl_payload fragments) = map Z.of_nat (seq 0 250).
Proof.
  destruct (IncomingAclPacket_fragments
              (connected_controller false) example_acl
              5 PacketBoundaryFlag.FIRST_NON_AUTOMATICALLY_FLUSHABLE
              BroadcastFlag.POINT_TO_POINT (map Z.of_nat (seq 0 250)))
    as (fragments & Hrun & Hcount & Hconcat & _).
  - reflexivity.
  - vm_compute. split; reflexivity.
  - vm_compute. reflexivity.
  - exists fragments. split; [exact Hrun|]. split; [|exact Hconcat].
    change (properties_GetAclDataPacketSize
              (properties_ (connected_controller false))) with 100 in Hcount.
    change (Z.of_nat (length (map Z.of_nat (seq 0 250)))) with 250 in Hcount.
    lia.
Defined.

(** The three fragments: handle 1 of the connection to the sender, the
    start flag remapped, 100 + 100 + 50 octets. *)
Example IncomingAclPacket_example :
  (IncomingAclPacket example_acl ;;
   sent <- gets acl_sent ;;
   ret (map (fun fragment =>
               (acl_handle fragment, acl_packet_boundary_flag fragment,
                acl_broadcast_flag fragment, length (acl_payload fragment)))
            sent))
    (connected_controller false)
  = Returns
      [(1, PacketBoundaryFlag.FIRST_AUTOMATICALLY_FLUSHABLE,
        BroadcastFlag.POINT_TO_POINT, 100%nat);
       (1, PacketBoundaryFlag.CONTINUING_FRAGMENT,
        BroadcastFlag.POINT_TO_POINT, 100%nat);
       (1, PacketBoundaryFlag.CONTINUING_FRAGMENT,
        BroadcastFlag.POINT_TO_POINT, 50%nat)]
      (set_acl_sent
         [ {| acl_handle := 1;
              acl_packet_boundary_flag :=
                PacketBoundaryFlag.FIRST_AUTOMATICALLY_FLUSHABLE;
              acl_broadcast_flag := BroadcastFlag.POINT_TO_POINT;
              acl_payload := map Z.of_nat (seq 0 100) |};
           {| acl_handle := 1;
              acl_packet_boundary_flag :=
                PacketBoundaryFlag.CONTINUING_FRAGMENT;
              acl_broadcast_flag := BroadcastFlag.POINT_TO_POINT;
              acl_payload := map Z.of_nat (seq 100 100) |};
           {| acl_handle := 1;
              acl_packet_boundary_flag :=
                PacketBoundaryFlag.CONTINUING_FRAGMENT;
              acl_broadcast_flag := BroadcastFlag.POINT_TO_POINT;
              acl_payload := map Z.of_nat (seq 200 50) |} ]
         (connected_controller false)).
Proof. vm_compute. reflexivity. Qed.

(** * Properties of the further member functions *)

(** ** The RSSI stub *)

Lemma GetRssi_step rssi :
  0 <= rssi <= 128 ->
  0 <= snd (GetRssi rssi) <= 128
  /\ -128 <= to_int8 (fst (GetRssi rssi)) <= 0
  /\ to_int8 (fst (GetRssi rssi)) = - snd (GetRssi rssi).
Proof.
  intros Hrssi. unfold GetRssi, to_uint8, to_int8. cbn [fst snd].
  change (2 ^ 8) with 256.
  rewrite (Z.mod_small (rssi + 5) 256) by lia.
  destruct (Z.ltb_spec 128 (rssi + 5)) as [Hhigh|Hlow].
  - pose proof (Z.mod_pos_bound (rssi + 5) 7 ltac:(lia)) as Hmod.
    rewrite (Z.mod_small ((rssi + 5) mod 7) 256) by lia.
    set (r := (rssi + 5) mod 7) in *. clearbody r.
    destruct (Z.ltb_spec ((- r) mod 256) 128);
      Z.div_mod_to_equations; lia.
  - set (r := rssi + 5) in *. assert (5 <= r <= 128) by lia. clearbody r.
    destruct (Z.ltb_spec ((- r) mod 256) 128);
      Z.div_mod_to_equations; lia.
Qed.

(** X1.  However often [GetRssi] is called, starting from the initial value
    0 of its counter, every octet it returns is, read as a signed octet,
    between -128 and 0: the reported RSSI is never positive. *)
Theorem GetRssi_never_positive :
  forall n : nat,
    Forall (fun reading => -128 <= to_int8 reading <= 0)
           (GetRssi_readings n 0).
Proof.
  intros n.
  assert (forall rssi, 0 <= rssi <= 128 ->
                       Forall (fun reading => -128 <= to_int8 reading <= 0)
                              (GetRssi_readings n rssi)) as Hall.
  { induction n as [|n IH]; intros rssi Hrssi; simpl; [constructor|].
    destruct (GetRssi_step rssi Hrssi) as (Hnext & Hreading & _).
    constructor; [exact Hreading | by apply IH]. }
  apply Hall. lia.
Qed.

(** The first readings: -5, -10, ..., -125, then the counter wraps through
    [% 7]. *)
Example GetRssi_readings_example :
  map to_int8 (GetRssi_readings 27 0)
  = [-5; -10; -15; -20; -25; -30; -35; -40; -45; -50; -55; -60; -65; -70;
     -75; -80; -85; -90; -95; -100; -105; -110; -115; -120; -125; -4; -9].
Proof. reflexivity. Qed.

(** ** Link policy *)

(** X2.  The link-key, hold, sniff, QoS, role-switch and flow-specification
    commands are never accepted and never change the controller: each
    returns, with the controller as it was, a code other than [SUCCESS]; the
    ones that take a handle return [UNKNOWN_CONNECTION] exactly when the
    handle is not live, whatever the other parameters are. *)
Theorem link_policy_commands_never_succeed :
  forall (c : LinkLayerController) (handle : Z),
    let live := AclConnectionHandler.HasHandle (connections_ c) handle in
    let refused (run : M ErrorCode.t) :=
      exists code,
        run c = Returns code c
        /\ code <> ErrorCode.SUCCESS
        /\ (code = ErrorCode.UNKNOWN_CONNECTION <-> live = false) in
    let disallowed (run : M ErrorCode.t) :=
      run c = Returns ErrorCode.COMMAND_DISALLOWED c in
    refused (ChangeConnectionLinkKey handle)
    /\ (forall max_interval min_interval,
           refused (HoldMode handle max_interval min_interval))
    /\ (forall max_interval min_interval attempt timeout,
           refused (SniffMode handle max_interval min_interval attempt timeout))
    /\ refused (ExitSniffMode handle)
    /\ (forall service_type, refused (QosSetup handle service_type))
    /\ (forall flow_direction service_type,
           refused (FlowSpecification handle flow_direction service_type))
    /\ (forall key_flag, disallowed (MasterLinkKey key_flag))
    /\ (forall bd_addr role, disallowed (SwitchRole bd_addr role)).
Proof.
  intros c handle live refused disallowed. subst refused disallowed.
  unfold ChangeConnectionLinkKey, HoldMode, SniffMode, ExitSniffMode, QosSetup,
    FlowSpecification, MasterLinkKey, SwitchRole.
  member_unfold. fold live. cbv beta.
  destruct live; cbn [negb];
    repeat match goal with
           | |- _ /\ _ => split
           | |- forall _, _ => intro
           | |- context [if ?b then _ else _] => destruct b
           | |- exists _, _ => eexists; split; [reflexivity|]; split; [done|]
           | |- _ <-> _ => split; done
           | |- _ = _ => reflexivity
           end.
Qed.

(** [WriteLinkPolicySettings] and [WriteLinkSupervisionTimeout] return
    [SUCCESS] exactly when the handle is live and [UNKNOWN_CONNECTION]
    otherwise, and in both cases leave the controller as it was: the value
    written is stored nowhere. *)
Theorem link_settings_written_nowhere :
  forall (c : LinkLayerController) (handle value : Z),
    let code :=
      if AclConnectionHandler.HasHandle (connections_ c) handle
      then ErrorCode.SUCCESS else ErrorCode.UNKNOWN_CONNECTION in
    WriteLinkPolicySettings handle value c = Returns code c
    /\ WriteLinkSupervisionTimeout handle value c = Returns code c.
Proof.
  intros c handle value code. subst code.
  unfold WriteLinkPolicySettings, WriteLinkSupervisionTimeout. member_unfold.
  by destruct (AclConnectionHandler.HasHandle _ _).
Qed.

(** ** Advertising sets *)

Lemma on_advertiser_in_range set f c :
  0 <= set < Z.of_nat (length (advertisers_ c)) ->
  exists advertiser,
    advertisers_ c !! Z.to_nat set = Some advertiser
    /\ on_advertiser set f c
       = Returns tt (set_advertisers_
                       (<[Z.to_nat set := f advertiser]> (advertisers_ c)) c).
Proof.
  intros Hset.
  destruct (lookup_lt_is_Some_2 (advertisers_ c) (Z.to_nat set))
    as [advertiser Hlookup]; [lia|].
  exists advertiser. split; [done|].
  unfold on_advertiser. member_unfold. by rewrite Hlookup.
Qed.

Lemma on_advertiser_length set f c c' :
  on_advertiser set f c = Returns tt c' ->
  length (advertisers_ c') = length (advertisers_ c).
Proof.
  unfold on_advertiser. member_unfold.
  destruct (advertisers_ c !! Z.to_nat set); [|done].
  intros [= <-]. simpl. apply length_insert.
Qed.

(** X3.  [LeRemoveAdvertisingSet] checks its index: for a set number at or
    past the number of sets it returns [INVALID_HCI_COMMAND_PARAMETERS] and
    changes nothing; otherwise it returns [SUCCESS], that set is disabled
    and keeps its parameters, and every other set is as it was. *)
Theorem LeRemoveAdvertisingSet_result :
  forall (c : LinkLayerController) (set : Z),
    0 <= set ->
    (Z.of_nat (length (advertisers_ c)) <= set ->
     LeRemoveAdvertisingSet set c
     = Returns ErrorCode.INVALID_HCI_COMMAND_PARAMETERS c)
    /\ (set < Z.of_nat (length (advertisers_ c)) ->
        exists advertiser c',
          advertisers_ c !! Z.to_nat set = Some advertiser
          /\ LeRemoveAdvertisingSet set c = Returns ErrorCode.SUCCESS c'
          /\ advertisers_ c' !! Z.to_nat set
             = Some (LeAdvertiser.Disable advertiser)
          /\ LeAdvertiser.IsEnabled (LeAdvertiser.Disable advertiser) = false
          /\ (forall i, i <> Z.to_nat set ->
                        advertisers_ c' !! i = advertisers_ c !! i)
          /\ length (advertisers_ c') = length (advertisers_ c)).
Proof.
  intros c set Hset. unfold LeRemoveAdvertisingSet. member_unfold. split.
  - intros Hpast. apply Z.leb_le in Hpast. by rewrite Hpast.
  - intros Hin. pose proof Hin as Hlt. apply Z.leb_gt in Hlt. rewrite Hlt.
    destruct (on_advertiser_in_range set LeAdvertiser.Disable c ltac:(lia))
      as (advertiser & Hlookup & Hrun).
    rewrite Hrun. eexists advertiser, _. split; [done|].
    split; [reflexivity|]. simpl.
    split; [apply list_lookup_insert_eq; lia|]. split; [done|].
    split; [|apply length_insert].
    intros i Hi. by apply list_lookup_insert_ne.
Qed.

Lemma LeRemoveAdvertisingSet_result_witness :
  LeRemoveAdvertisingSet 3 advertising_controller
  = Returns ErrorCode.INVALID_HCI_COMMAND_PARAMETERS advertising_controller
  /\ exists c',
      LeRemoveAdvertisingSet 1 advertising_controller
      = Returns ErrorCode.SUCCESS c'
      /\ map LeAdvertiser.IsEnabled (advertisers_ c') = [true; false; true].
Proof.
  split.
  - apply (proj1 (LeRemoveAdvertisingSet_result advertising_controller 3
                    ltac:(lia))).
    simpl. lia.
  - destruct (proj2 (LeRemoveAdvertisingSet_result advertising_controller 1
                       ltac:(lia)))
      as (advertiser & c' & _ & Hrun & _); [simpl; lia|].
    exists c'. split; [exact Hrun|].
    vm_compute in Hrun. injection Hrun as <-. reflexivity.
Defined.

(** X4.  [LeClearAdvertisingSets] returns [COMMAND_DISALLOWED] and changes
    nothing exactly when some advertising set is enabled; otherwise it
    returns [SUCCESS] and every set, as many as before, is cleared. *)
Theorem LeClearAdvertisingSets_result :
  forall c : LinkLayerController,
    ((exists advertiser,
         In advertiser (advertisers_ c)
         /\ LeAdvertiser.IsEnabled advertiser = true) ->
     LeClearAdvertisingSets c = Returns ErrorCode.COMMAND_DISALLOWED c)
    /\ (Forall (fun advertiser => LeAdvertiser.IsEnabled advertiser = false)
               (advertisers_ c) ->
        LeClearAdvertisingSets c
        = Returns ErrorCode.SUCCESS
            (set_advertisers_
               (map LeAdvertiserOps.Clear (advertisers_ c)) c)
        /\ Forall (fun advertiser =>
                     LeAdvertiser.IsEnabled advertiser = false
                     /\ LeAdvertiser.advertisement_ advertiser = []
                     /\ GetAddress (LeAdvertiser.address_ advertiser) = kEmpty)
                  (map LeAdvertiserOps.Clear (advertisers_ c))
        /\ length (map LeAdvertiserOps.Clear (advertisers_ c))
           = length (advertisers_ c)).
Proof.
  intros c. unfold LeClearAdvertisingSets. member_unfold. split.
  - intros Henabled. apply existsb_exists in Henabled. by rewrite Henabled.
  - intros Hdisabled.
    assert (existsb LeAdvertiser.IsEnabled (advertisers_ c) = false) as ->.
    { apply not_true_is_false. intros (a & Hin & Ha)%existsb_exists.
      rewrite Forall_forall in Hdisabled.
      apply list_elem_of_In, Hdisabled in Hin. congruence. }
    split; [reflexivity|]. split; [|apply length_map].
    apply Forall_forall. intros a (a0 & -> & _)%list_elem_of_fmap. done.
Qed.

Lemma LeClearAdvertisingSets_result_witness :
  LeClearAdvertisingSets advertising_controller
  = Returns ErrorCode.COMMAND_DISALLOWED advertising_controller
  /\ LeClearAdvertisingSets (fresh_controller example_properties)
     = Returns ErrorCode.SUCCESS (fresh_controller example_properties).
Proof.
  split.
  - apply (proj1 (LeClearAdvertisingSets_result advertising_controller)).
    eexists. split; [left; reflexivity|reflexivity].
  - destruct (proj2 (LeClearAdvertisingSets_result
                       (fresh_controller example_properties))) as (Hrun & _).
    { repeat constructor. }
    exact Hrun.
Defined.

(** The loop of the filter keeps a match and adds the enabled sets. *)
Lemma address_filter_loop destination advertisers matched :
  fold_left
    (fun address_matches advertiser =>
       if LeAdvertiser.IsEnabled advertiser
          && (GetAddress (LeAdvertiser.address_ advertiser) =? destination)
       then true else address_matches)
    advertisers matched
  = matched
    || existsb (fun advertiser =>
                  LeAdvertiser.IsEnabled advertiser
                  && (GetAddress (LeAdvertiser.address_ advertiser)
                      =? destination)) advertisers.
Proof.
  revert matched. induction advertisers as [|a rest IH]; intros matched; simpl.
  - by rewrite orb_false_r.
  - rewrite IH. destruct (_ && _); simpl; [|done]. by rewrite orb_true_r.
Qed.

(** The filter passes a packet exactly when its destination is the
    broadcast address, one of the two device addresses, or the address of an
    enabled advertising set; it never changes the controller. *)
Lemma IncomingPacket_address_matches_iff destination c :
  exists matches,
    IncomingPacket_address_matches destination c = Returns matches c
    /\ (matches = true
        <-> destination = kEmpty
            \/ destination = properties_GetAddress (properties_ c)
            \/ destination = properties_GetLeAddress (properties_ c)
            \/ exists advertiser,
                In advertiser (advertisers_ c)
                /\ LeAdvertiser.IsEnabled advertiser = true
                /\ GetAddress (LeAdvertiser.address_ advertiser) = destination).
Proof.
  unfold IncomingPacket_address_matches. member_unfold.
  eexists. split; [reflexivity|].
  rewrite address_filter_loop, orb_true_iff, existsb_exists.
  split.
  - intros [Hdevice | (a & Hin & Ha)].
    + destruct (_ || _) eqn:Hor.
      * apply orb_true_iff in Hor as [->%Z.eqb_eq | ->%Z.eqb_eq]; tauto.
      * apply Z.eqb_eq in Hdevice. tauto.
    + apply andb_true_iff in Ha as [Henabled Haddress%Z.eqb_eq]. eauto 10.
  - intros [-> | [Hpublic | [Hle | (a & Hin & Henabled & Haddress)]]].
    + left. simpl. by destruct (_ || _).
    + left. rewrite <- Hpublic, Z.eqb_refl. done.
    + left. rewrite <- Hle, Z.eqb_refl, orb_true_r. done.
    + right. exists a. split; [done|]. rewrite Henabled. simpl.
      by apply Z.eqb_eq.
Qed.

(** X5.  After [LeDisableAdvertisingSets] no advertising set is enabled, as
    many sets exist as before, [LeClearAdvertisingSets] is accepted, and the
    address filter of [IncomingPacket] lets through only packets to the
    broadcast address and to the two device addresses. *)
Theorem LeDisableAdvertisingSets_closes_filter :
  forall c : LinkLayerController,
    exists c',
      LeDisableAdvertisingSets c = Returns tt c'
      /\ Forall (fun advertiser => LeAdvertiser.IsEnabled advertiser = false)
                (advertisers_ c')
      /\ length (advertisers_ c') = length (advertisers_ c)
      /\ (exists c'',
             LeClearAdvertisingSets c' = Returns ErrorCode.SUCCESS c'')
      /\ (forall destination,
             exists matches,
               IncomingPacket_address_matches destination c'
               = Returns matches c'
               /\ (matches = true
                   <-> destination = kEmpty
                       \/ destination = properties_GetAddress (properties_ c)
                       \/ destination
                          = properties_GetLeAddress (properties_ c))).
Proof.
  intros c. eexists. split; [reflexivity|].
  assert (Forall (fun advertiser => LeAdvertiser.IsEnabled advertiser = false)
                 (map LeAdvertiser.Disable (advertisers_ c))) as Hdisabled.
  { apply Forall_forall. intros a (a0 & -> & _)%list_elem_of_fmap. done. }
  simpl. split; [exact Hdisabled|]. split; [apply length_map|]. split.
  - eexists. unfold LeClearAdvertisingSets. member_unfold. simpl.
    assert (existsb LeAdvertiser.IsEnabled
                    (map LeAdvertiser.Disable (advertisers_ c)) = false) as ->.
    { apply not_true_is_false. intros (a & Hin & Ha)%existsb_exists.
      rewrite Forall_forall in Hdisabled.
      apply list_elem_of_In, Hdisabled in Hin. congruence. }
    reflexivity.
  - intros destination.
    destruct (IncomingPacket_address_matches_iff
                destination
                (set_advertisers_
                   (map LeAdvertiser.Disable (advertisers_ c)) c))
      as (matches & Hrun & Hiff).
    exists matches. split; [exact Hrun|]. rewrite Hiff. simpl.
    split; [|tauto].
    intros [H | [H | [H | (a & Hin & Henabled & _)]]]; try tauto.
    rewrite Forall_forall in Hdisabled.
    apply list_elem_of_In, Hdisabled in Hin. congruence.
Qed.

Lemma advertising_call_length call c c' :
  advertising_call call c = Returns tt c' ->
  length (advertisers_ c') = length (advertisers_ c).
Proof.
  destruct call as [enable|enable sets|set address|set data|set| |];
    unfold advertising_call; member_unfold.
  - unfold SetLeAdvertisingEnable. member_unfold.
    destruct (enable =? 0).
    + destruct (on_advertiser 0 LeAdvertiser.Disable c) as [[] c1|] eqn:Hrun;
        [|done].
      intros [= <-]. by apply on_advertiser_length in Hrun.
    + destruct (_ && _); [by intros [= <-]|].
      destruct (_ <? 20); [by intros [= <-]|].
      match goal with
      | |- context [on_advertiser 0 ?f c] =>
          destruct (on_advertiser 0 f c) as [[] c1|] eqn:Hrun1; [|done]
      end.
      destruct (on_advertiser 0 LeAdvertiser.Enable c1) as [[] c2|] eqn:Hrun2;
        [|done].
      intros [= <-].
      apply on_advertiser_length in Hrun1, Hrun2. congruence.
  - unfold SetLeExtendedAdvertisingEnable. member_unfold.
    destruct (existsb _ sets); [by intros [= <-]|].
    match goal with
    | |- context [for_each sets ?body c] =>
        assert (forall c0 c1, for_each sets body c0 = Returns tt c1 ->
                              length (advertisers_ c1)
                              = length (advertisers_ c0)) as Hloop
    end.
    { clear. induction sets as [|set sets IH]; intros c0 c1; simpl.
      - member_unfold. by intros [= <-].
      - member_unfold.
        match goal with
        | |- context [match ?run with Returns _ _ => _ | Aborts _ => _ end] =>
            destruct run as [[] c2|] eqn:Hrun; [|done]
        end.
        intros Hrest. apply IH in Hrest. rewrite Hrest.
        destruct enable; by apply on_advertiser_length in Hrun. }
    match goal with
    | |- context [for_each sets ?body c] =>
        destruct (for_each sets body c) as [[] c1|] eqn:Hrun; [|done]
    end.
    intros [= <-]. by apply Hloop.
  - unfold SetLeExtendedAddress. member_unfold.
    match goal with
    | |- context [on_advertiser set ?f c] =>
        destruct (on_advertiser set f c) as [[] c1|] eqn:Hrun; [|done]
    end.
    intros [= <-]. by apply on_advertiser_length in Hrun.
  - unfold SetLeExtendedAdvertisingData. member_unfold.
    match goal with
    | |- context [on_advertiser set ?f c] =>
        destruct (on_advertiser set f c) as [[] c1|] eqn:Hrun; [|done]
    end.
    intros [= <-]. by apply on_advertiser_length in Hrun.
  - unfold LeRemoveAdvertisingSet. member_unfold.
    destruct (_ <=? set); [by intros [= <-]|].
    destruct (on_advertiser set LeAdvertiser.Disable c) as [[] c1|] eqn:Hrun;
      [|done].
    intros [= <-]. by apply on_advertiser_length in Hrun.
  - unfold LeClearAdvertisingSets. member_unfold.
    destruct (existsb _ _); intros [= <-]; [done|]. simpl. apply length_map.
  - unfold LeDisableAdvertisingSets. member_unfold.
    intros [= <-]. simpl. apply length_map.
Qed.

(** X6.  The number of advertising sets never changes: after any sequence
    of the commands that write the advertising sets (legacy and extended
    enable, address, data, remove, clear, disable all) that returns, the
    controller has as many sets as before and
    [LeReadNumberOfSupportedAdvertisingSets] returns the same number. *)
Theorem number_of_advertising_sets_constant :
  forall (calls : list AdvertisingCall) (c c' : LinkLayerController),
    for_each calls advertising_call c = Returns tt c' ->
    length (advertisers_ c') = length (advertisers_ c)
    /\ exists number,
        LeReadNumberOfSupportedAdvertisingSets c = Returns number c
        /\ LeReadNumberOfSupportedAdvertisingSets c' = Returns number c'.
Proof.
  intros calls c c' Hrun.
  assert (length (advertisers_ c') = length (advertisers_ c)) as Hlength.
  { revert c Hrun. induction calls as [|call calls IH]; intros c; simpl.
    - member_unfold. by intros [= <-].
    - unfold bind at 1.
      destruct (advertising_call call c) as [[] c1|] eqn:Hcall; [|done].
      intros Hrest. apply IH in Hrest.
      apply advertising_call_length in Hcall. congruence. }
  split; [exact Hlength|].
  unfold LeReadNumberOfSupportedAdvertisingSets. member_unfold.
  eexists. split; [reflexivity|]. by rewrite Hlength.
Qed.

Lemma number_of_advertising_sets_constant_witness :
  exists c',
    for_each [CallSetLeExtendedAddress 1 peer_b;
              CallSetLeExtendedAdvertisingEnable Enable.ENABLED request_0_and_4;
              CallSetLeAdvertisingEnable 1;
              CallLeRemoveAdvertisingSet 7;
              CallLeClearAdvertisingSets;
              CallLeDisableAdvertisingSets]
             advertising_call (fresh_controller example_properties)
    = Returns tt c'
    /\ length (advertisers_ c') = 3%nat
    /\ LeReadNumberOfSupportedAdvertisingSets c' = Returns 3 c'.
Proof.
  eexists. split; [vm_compute; reflexivity|].
  match goal with
  | |- length (advertisers_ ?c') = _ /\ _ =>
      destruct (number_of_advertising_sets_constant
                  [CallSetLeExtendedAddress 1 peer_b;
                   CallSetLeExtendedAdvertisingEnable
                     Enable.ENABLED request_0_and_4;
                   CallSetLeAdvertisingEnable 1;
                   CallLeRemoveAdvertisingSet 7;
                   CallLeClearAdvertisingSets;
                   CallLeDisableAdvertisingSets]
                  (fresh_controller example_properties) c')
        as (Hlength & number & Hbefore & Hafter)
  end.
  - vm_compute. reflexivity.
  - split; [exact Hlength|].
    vm_compute in Hbefore. injection Hbefore as <-. exact Hafter.
Defined.

Lemma set_advertisers_twice x y c :
  set_advertisers_ x (set_advertisers_ y c) = set_advertisers_ x c.
Proof. by destruct c. Qed.

Lemma SetLeExtendedAdvertisingEnable_loop enable :
  forall (enabled_sets : list EnabledSet) (c : LinkLayerController),
    Forall (fun set =>
              0 <= advertising_handle_ set
              < Z.of_nat (length (advertisers_ c))) enabled_sets ->
    exists c',
      for_each enabled_sets
               (fun set =>
                  let handle := advertising_handle_ set in
                  match enable with
                  | Enable.ENABLED =>
                      on_advertiser handle (fun advertiser =>
                        LeAdvertiser.EnableExtended
                          advertiser (10 * duration_ set))
                  | Enable.DISABLED =>
                      on_advertiser handle LeAdvertiser.Disable
                  end) c
      = Returns tt c'
      /\ c' = set_advertisers_ (advertisers_ c') c
      /\ length (advertisers_ c') = length (advertisers_ c)
      /\ forall i advertiser,
          advertisers_ c !! i = Some advertiser ->
          exists advertiser',
            advertisers_ c' !! i = Some advertiser'
            /\ LeAdvertiser.IsEnabled advertiser'
               = (if set_requested enabled_sets i
                  then is_enabled_value enable
                  else LeAdvertiser.IsEnabled advertiser)
            /\ LeAdvertiser.address_ advertiser'
               = LeAdvertiser.address_ advertiser
            /\ LeAdvertiser.advertisement_ advertiser'
               = LeAdvertiser.advertisement_ advertiser.
Proof.
  induction enabled_sets as [|set sets IH]; intros c Hrange.
  - exists c. simpl. split; [reflexivity|]. split; [by destruct c|].
    split; [done|]. intros i a Ha. exists a. by rewrite Ha.
  - apply Forall_cons in Hrange as [Hset Hsets].
    set (f := match enable with
              | Enable.ENABLED =>
                  fun advertiser =>
                    LeAdvertiser.EnableExtended advertiser (10 * duration_ set)
              | Enable.DISABLED => LeAdvertiser.Disable
              end).
    assert (forall a, LeAdvertiser.IsEnabled (f a) = is_enabled_value enable
                      /\ LeAdvertiser.address_ (f a) = LeAdvertiser.address_ a
                      /\ LeAdvertiser.advertisement_ (f a)
                         = LeAdvertiser.advertisement_ a) as Hf.
    { intros a. subst f. by destruct enable. }
    destruct (on_advertiser_in_range (advertising_handle_ set) f c Hset)
      as (a_set & Hlookup & Hrun).
    set (c1 := set_advertisers_
                 (<[Z.to_nat (advertising_handle_ set) := f a_set]>
                    (advertisers_ c)) c) in *.
    destruct (IH c1) as (c' & Hrest & Hc' & Hlength & Hsets').
    { subst c1. simpl. by rewrite length_insert. }
    exists c'. split; [|split; [|split]].
    + simpl. unfold bind at 1.
      assert (match enable with
              | Enable.ENABLED =>
                  on_advertiser (advertising_handle_ set)
                    (fun advertiser =>
                       LeAdvertiser.EnableExtended
                         advertiser (10 * duration_ set))
              | Enable.DISABLED =>
                  on_advertiser (advertising_handle_ set) LeAdvertiser.Disable
              end c = Returns tt c1) as ->; [|exact Hrest].
      subst f. by destruct enable.
    + rewrite Hc'. subst c1. by rewrite set_advertisers_twice.
    + rewrite Hlength. subst c1. simpl. apply length_insert.
    + intros i a Ha. unfold set_requested. simpl.
      fold (set_requested sets i).
      destruct (Nat.eqb_spec (Z.to_nat (advertising_handle_ set)) i)
        as [Heq|Hne]; simpl.
      * subst i. assert (a_set = a) as -> by congruence.
        destruct (Hsets' (Z.to_nat (advertising_handle_ set)) (f a))
          as (a' & Ha' & Henabled & Haddress & Hdata).
        { subst c1. simpl. apply list_lookup_insert_eq.
          by apply lookup_lt_Some in Ha. }
        exists a'. split; [done|]. destruct (Hf a) as (Hf1 & Hf2 & Hf3).
        rewrite Henabled, Haddress, Hdata, Hf1, Hf2, Hf3.
        by destruct (set_requested sets _).
      * destruct (Hsets' i a) as (a' & Ha' & Hrest').
        { subst c1. simpl. by rewrite list_lookup_insert_ne. }
        exists a'. by split.
Qed.

(** The request is accepted when every handle is in range. *)
Lemma SetLeExtendedAdvertisingEnable_accepts :
  forall (c : LinkLayerController) (enable : Enable.t)
         (enabled_sets : list EnabledSet),
    Forall (fun set =>
              0 <= advertising_handle_ set
              < Z.of_nat (length (advertisers_ c))) enabled_sets ->
    exists c',
      SetLeExtendedAdvertisingEnable enable enabled_sets c
      = Returns ErrorCode.SUCCESS c'
      /\ c' = set_advertisers_ (advertisers_ c') c
      /\ length (advertisers_ c') = length (advertisers_ c)
      /\ forall i advertiser,
          advertisers_ c !! i = Some advertiser ->
          exists advertiser',
            advertisers_ c' !! i = Some advertiser'
            /\ LeAdvertiser.IsEnabled advertiser'
               = (if set_requested enabled_sets i
                  then is_enabled_value enable
                  else LeAdvertiser.IsEnabled advertiser)
            /\ LeAdvertiser.address_ advertiser'
               = LeAdvertiser.address_ advertiser
            /\ LeAdvertiser.advertisement_ advertiser'
               = LeAdvertiser.advertisement_ advertiser.
Proof.
  intros c enable enabled_sets Hrange.
  destruct (SetLeExtendedAdvertisingEnable_loop enable enabled_sets c Hrange)
    as (c' & Hrun & Hrest).
  exists c'. split; [|exact Hrest].
  unfold SetLeExtendedAdvertisingEnable. member_unfold.
  assert (existsb
            (fun set => Z.of_nat (length (advertisers_ c))
                        <? advertising_handle_ set) enabled_sets = false)
    as ->.
  { apply not_true_is_false. intros (set & Hin & Hset)%existsb_exists.
    rewrite Forall_forall in Hrange.
    apply list_elem_of_In, Hrange in Hin. apply Z.ltb_lt in Hset. lia. }
  by rewrite Hrun.
Qed.


(** X7.  When every requested advertising handle is below the number of
    sets, [SetLeExtendedAdvertisingEnable] returns [SUCCESS] and changes
    only the advertising sets: every set named by the request ends enabled
    (for [ENABLED]) or disabled (otherwise), every other set keeps its
    state, and all sets keep their address and advertisement. *)
Theorem SetLeExtendedAdvertisingEnable_in_range :
  forall (c : LinkLayerController) (enable : Enable.t)
         (enabled_sets : list EnabledSet),
    Forall (fun set =>
              0 <= advertising_handle_ set
              < Z.of_nat (length (advertisers_ c))) enabled_sets ->
    exists c',
      SetLeExtendedAdvertisingEnable enable enabled_sets c
      = Returns ErrorCode.SUCCESS c'
      /\ c' = set_advertisers_ (advertisers_ c') c
      /\ length (advertisers_ c') = length (advertisers_ c)
      /\ forall i advertiser,
          advertisers_ c !! i = Some advertiser ->
          exists advertiser',
            advertisers_ c' !! i = Some advertiser'
            /\ LeAdvertiser.IsEnabled advertiser'
               = (if set_requested enabled_sets i
                  then is_enabled_value enable
                  else LeAdvertiser.IsEnabled advertiser)
            /\ LeAdvertiser.address_ advertiser'
               = LeAdvertiser.address_ advertiser
            /\ LeAdvertiser.advertisement_ advertiser'
               = LeAdvertiser.advertisement_ advertiser.
Proof.
  intros c enable enabled_sets Hrange.
  destruct (SetLeExtendedAdvertisingEnable_accepts c enable enabled_sets Hrange)
    as (c' & Hrun & Hsame & Hlength & Hsets).
  exists c'. repeat split; assumption.
Qed.

Lemma SetLeExtendedAdvertisingEnable_in_range_witness :
  exists c',
    SetLeExtendedAdvertisingEnable
      Enable.DISABLED
      [ {| advertising_handle_ := 2; duration_ := 0;
           max_extended_advertising_events_ := 0 |};
        {| advertising_handle_ := 0; duration_ := 0;
           max_extended_advertising_events_ := 0 |};
        {| advertising_handle_ := 2; duration_ := 0;
           max_extended_advertising_events_ := 0 |} ]
      advertising_controller
    = Returns ErrorCode.SUCCESS c'
    /\ length (advertisers_ c') = 3%nat.
Proof.
  destruct (SetLeExtendedAdvertisingEnable_in_range
              advertising_controller Enable.DISABLED
              [ {| advertising_handle_ := 2; duration_ := 0;
                   max_extended_advertising_events_ := 0 |};
                {| advertising_handle_ := 0; duration_ := 0;
                   max_extended_advertising_events_ := 0 |};
                {| advertising_handle_ := 2; duration_ := 0;
                   max_extended_advertising_events_ := 0 |} ])
    as (c' & Hrun & _ & Hlength & _).
  - repeat constructor; simpl; lia.
  - exists c'. split; [exact Hrun|]. exact Hlength.
Defined.

Example SetLeExtendedAdvertisingEnable_disables :
  (SetLeExtendedAdvertisingEnable
     Enable.DISABLED
     [ {| advertising_handle_ := 2; duration_ := 0;
          max_extended_advertising_events_ := 0 |};
       {| advertising_handle_ := 0; duration_ := 0;
          max_extended_advertising_events_ := 0 |} ] ;;
   advertisers <- gets advertisers_ ;;
   ret (map LeAdvertiser.IsEnabled advertisers)) advertising_controller
  = Returns [false; true; false]
      (set_advertisers_
         [LeAdvertiser.Disable (LeAdvertiser.Enable cleared_advertiser);
          LeAdvertiser.Enable cleared_advertiser;
          LeAdvertiser.Disable (LeAdvertiser.Enable cleared_advertiser)]
         advertising_controller).
Proof. reflexivity. Qed.

(** X8.  An advertising set in range that is given an address and then
    enabled makes the address filter of [IncomingPacket] accept packets to
    that address.  If the address is neither the broadcast address nor a
    device address and no other set is enabled with it, the filter drops
    such packets again once the set is removed. *)
Theorem advertising_address_accepted_while_enabled :
  forall (c : LinkLayerController) (set duration : Z) (address : Address),
    0 <= set < Z.of_nat (length (advertisers_ c)) ->
    exists c',
      (SetLeExtendedAddress set address ;;
       SetLeExtendedAdvertisingEnable
         Enable.ENABLED
         [ {| advertising_handle_ := set; duration_ := duration;
              max_extended_advertising_events_ := 0 |} ]) c
      = Returns ErrorCode.SUCCESS c'
      /\ IncomingPacket_address_matches address c' = Returns true c'
      /\ (address <> kEmpty ->
          address <> properties_GetAddress (properties_ c) ->
          address <> properties_GetLeAddress (properties_ c) ->
          (forall i advertiser,
              i <> Z.to_nat set ->
              advertisers_ c !! i = Some advertiser ->
              LeAdvertiser.IsEnabled advertiser = true ->
              GetAddress (LeAdvertiser.address_ advertiser) <> address) ->
          exists c'',
            LeRemoveAdvertisingSet set c' = Returns ErrorCode.SUCCESS c''
            /\ IncomingPacket_address_matches address c''
               = Returns false c'').
Proof.
  intros c set duration address Hset.
  set (request := [ {| advertising_handle_ := set; duration_ := duration;
                       max_extended_advertising_events_ := 0 |} ]).
  destruct (on_advertiser_in_range
              set (fun advertiser => LeAdvertiserOps.SetAddress advertiser address)
              c Hset) as (a & Ha & Haddress).
  set (c1 := set_advertisers_
               (<[Z.to_nat set := LeAdvertiserOps.SetAddress a address]>
                  (advertisers_ c)) c) in *.
  assert (length (advertisers_ c1) = length (advertisers_ c)) as Hlength1
      by (subst c1; simpl; apply length_insert).
  destruct (SetLeExtendedAdvertisingEnable_accepts c1 Enable.ENABLED request)
    as (c' & Hrun & Hsame & Hlength & Hsets).
  { constructor; [cbn [advertising_handle_]; rewrite Hlength1; lia | constructor]. }
  assert (set_requested request (Z.to_nat set) = true) as Hrequested.
  { unfold set_requested, request. simpl. by rewrite Nat.eqb_refl. }
  assert (forall i, i <> Z.to_nat set -> set_requested request i = false)
    as Hother.
  { intros i Hi. unfold set_requested, request. simpl.
    rewrite orb_false_r. apply Nat.eqb_neq. congruence. }
  destruct (Hsets (Z.to_nat set) (LeAdvertiserOps.SetAddress a address))
    as (a' & Ha' & Henabled & Haddr & _).
  { subst c1. simpl. apply list_lookup_insert_eq.
    by apply lookup_lt_Some in Ha. }
  rewrite Hrequested in Henabled. simpl in Henabled.
  exists c'. split; [|split].
  - unfold SetLeExtendedAddress. member_unfold. by rewrite Haddress.
  - destruct (IncomingPacket_address_matches_iff address c')
      as (matches & Hfilter & Hiff).
    rewrite Hfilter. f_equal. apply Hiff. right. right. right.
    exists a'. split; [|split; [done|]].
    + apply list_elem_of_In. by eapply list_elem_of_lookup_2.
    + by rewrite Haddr.
  - intros Hbroadcast Hpublic Hle Hothers.
    assert (0 <= set < Z.of_nat (length (advertisers_ c'))) as Hset' by lia.
    destruct (on_advertiser_in_range set LeAdvertiser.Disable c' Hset')
      as (a'' & Ha'' & Hdisable).
    assert (a'' = a') as -> by congruence.
    eexists. split.
    { unfold LeRemoveAdvertisingSet. member_unfold.
      assert ((Z.of_nat (length (advertisers_ c')) <=? set) = false) as ->
          by (apply Z.leb_gt; lia).
      rewrite Hdisable. reflexivity. }
    match goal with
    | |- IncomingPacket_address_matches address ?c2 = _ =>
        destruct (IncomingPacket_address_matches_iff address c2)
          as (matches & Hfilter & Hiff)
    end.
    rewrite Hfilter. f_equal. apply not_true_is_false. intros Hmatches.
    apply Hiff in Hmatches. simpl in Hmatches.
    assert (properties_ c' = properties_ c) as Hproperties.
    { rewrite Hsame. subst c1. reflexivity. }
    rewrite Hproperties in Hmatches.
    destruct Hmatches as [H | [H | [H | (b & Hin & Hb & Hbaddr)]]];
      [done..|].
    apply list_elem_of_In, list_elem_of_lookup in Hin as [i Hi].
    destruct (decide (i = Z.to_nat set)) as [->|Hne].
    + rewrite list_lookup_insert_eq in Hi by (by apply lookup_lt_Some in Ha').
      injection Hi as <-. done.
    + rewrite list_lookup_insert_ne in Hi by done.
      destruct (lookup_lt_is_Some_2 (advertisers_ c) i) as [b0 Hb0].
      { apply lookup_lt_Some in Hi. lia. }
      destruct (Hsets i b0) as (b' & Hb' & Hbenabled & Hbaddress & _).
      { subst c1. simpl. by rewrite list_lookup_insert_ne. }
      assert (b' = b) as -> by congruence.
      rewrite (Hother i Hne) in Hbenabled.
      apply (Hothers i b0 Hne Hb0); congruence.
Qed.

Lemma advertising_address_accepted_while_enabled_witness :
  exists c',
    (SetLeExtendedAddress 1 peer_b ;;
     SetLeExtendedAdvertisingEnable
       Enable.ENABLED
       [ {| advertising_handle_ := 1; duration_ := 0;
            max_extended_advertising_events_ := 0 |} ])
      (fresh_controller example_properties)
    = Returns ErrorCode.SUCCESS c'
    /\ IncomingPacket_address_matches peer_b c' = Returns true c'
    /\ exists c'',
        LeRemoveAdvertisingSet 1 c' = Returns ErrorCode.SUCCESS c''
        /\ IncomingPacket_address_matches peer_b c'' = Returns false c''.
Proof.
  destruct (advertising_address_accepted_while_enabled
              (fresh_controller example_properties) 1 0 peer_b)
    as (c' & Hrun & Hopen & Hclosed); [simpl; lia|].
  exists c'. split; [exact Hrun|]. split; [exact Hopen|].
  apply Hclosed; try (vm_compute; discriminate).
  intros i advertiser _ Hi Henabled.
  apply list_elem_of_lookup_2, list_elem_of_In in Hi. simpl in Hi.
  destruct Hi as [<-|[<-|[<-|[]]]]; discriminate Henabled.
Defined.

(** ** Connect list, continued *)

Lemma filter_other_absent (t : Address * Z) (l : list (Address * Z)) :
  t ∉ l -> filter (fun dev => dev <> t) l = l.
Proof.
  induction l as [|dev l IH]; intros Hnotin; [done|].
  apply not_elem_of_cons in Hnotin as [Hne Hnotin].
  rewrite filter_cons_True by congruence. by rewrite IH.
Qed.

(** Past the last occurrence the loop of [LeConnectListRemoveDevice] erases
    nothing. *)
Lemma LeConnectListRemoveDevice_loop_absent remaining i t l :
  t ∉ drop i l -> LeConnectListRemoveDevice_loop remaining i t l = l.
Proof.
  revert i. induction remaining as [|remaining IH]; intros i Hnotin; [done|].
  simpl. destruct (l !! i) as [dev|] eqn:Hdev; [|done].
  rewrite (drop_S _ _ _ Hdev) in Hnotin.
  apply not_elem_of_cons in Hnotin as [Hne Hnotin].
  rewrite bool_decide_eq_false_2 by congruence. by apply IH.
Qed.

Lemma LeConnectListRemoveDevice_loop_filter remaining i t l :
  NoDup l -> t ∉ take i l -> (length l <= i + remaining)%nat ->
  LeConnectListRemoveDevice_loop remaining i t l
  = filter (fun dev => dev <> t) l.
Proof.
  revert i. induction remaining as [|remaining IH]; intros i Hnodup Hnotin Hlen.
  - simpl. rewrite take_ge in Hnotin by lia.
    by rewrite filter_other_absent.
  - simpl. destruct (l !! i) as [dev|] eqn:Hdev.
    + case_bool_decide as Hdev_t.
      * subst dev.
        rewrite <- (take_drop_middle l i t Hdev) in Hnodup.
        apply NoDup_app in Hnodup as (_ & Hbefore & Hrest).
        apply NoDup_cons in Hrest as [Hafter _].
        assert (t ∉ delete i l) as Habsent.
        { rewrite delete_take_drop. rewrite not_elem_of_app. done. }
        rewrite LeConnectListRemoveDevice_loop_absent.
        2:{ intros Hin. apply Habsent.
            eapply elem_of_sublist; [exact Hin|apply sublist_drop]. }
        rewrite <- (take_drop_middle l i t Hdev) at 2.
        rewrite filter_app, filter_cons_False by (intros Hne; by apply Hne).
        rewrite !filter_other_absent by done.
        apply delete_take_drop.
      * apply IH; [done| |lia].
        rewrite (take_S_r _ _ _ Hdev), not_elem_of_app.
        split; [done|]. rewrite list_elem_of_singleton. congruence.
    + apply lookup_ge_None_1 in Hdev. rewrite take_ge in Hnotin by lia.
      by rewrite filter_other_absent.
Qed.

(** X9.  On a connect list that holds no pair twice,
    [LeConnectListRemoveDevice] keeps exactly the entries that differ from
    the pair, in their order: afterwards [LeConnectListContainsDevice]
    returns false for the pair and answers as before for every other
    one. *)
Theorem LeConnectListRemoveDevice_removes :
  forall (c : LinkLayerController) (addr : Address) (addr_type : Z),
    NoDup (le_connect_list_ c) ->
    exists c',
      LeConnectListRemoveDevice addr addr_type c = Returns tt c'
      /\ le_connect_list_ c'
         = filter (fun dev => dev <> (addr, addr_type)) (le_connect_list_ c)
      /\ LeConnectListContainsDevice addr addr_type c' = Returns false c'
      /\ forall other other_type,
          (other, other_type) <> (addr, addr_type) ->
          exists answer,
            LeConnectListContainsDevice other other_type c = Returns answer c
            /\ LeConnectListContainsDevice other other_type c'
               = Returns answer c'.
Proof.
  intros c addr addr_type Hnodup.
  eexists. split; [reflexivity|].
  assert (LeConnectListRemoveDevice_loop
            (length (le_connect_list_ c)) 0 (addr, addr_type) (le_connect_list_ c)
          = filter (fun dev => dev <> (addr, addr_type)) (le_connect_list_ c))
    as Hloop.
  { apply LeConnectListRemoveDevice_loop_filter; [done| |lia].
    simpl. apply not_elem_of_nil. }
  split; [|split].
  - destruct c. exact Hloop.
  - unfold LeConnectListContainsDevice. member_unfold. f_equal.
    apply not_true_is_false. intros Hin.
    apply existsb_tuple_In, list_elem_of_In in Hin.
    replace (le_connect_list_ _) with
      (filter (fun dev => dev <> (addr, addr_type)) (le_connect_list_ c)) in Hin
      by (destruct c; symmetry; exact Hloop).
    apply list_elem_of_filter in Hin as [Hne _]. by apply Hne.
  - intros other other_type Hother. eexists. split; [reflexivity|].
    unfold LeConnectListContainsDevice. member_unfold. f_equal.
    replace (le_connect_list_ (set_le_connect_list_ _ c)) with
      (filter (fun dev => dev <> (addr, addr_type)) (le_connect_list_ c))
      by (destruct c; symmetry; exact Hloop).
    apply eq_true_iff_eq. rewrite !existsb_tuple_In, <- !list_elem_of_In.
    rewrite list_elem_of_filter. tauto.
Qed.

Lemma LeConnectListRemoveDevice_removes_witness :
  exists c',
    (LeConnectListAddDevice peer_a 0 ;; LeConnectListAddDevice peer_b 1 ;;
     LeConnectListRemoveDevice peer_a 0) (fresh_controller example_properties)
    = Returns tt c'
    /\ le_connect_list_ c' = [(peer_b, 1)].
Proof.
  destruct (LeConnectListRemoveDevice_removes
              (set_le_connect_list_ [(peer_a, 0); (peer_b, 1)]
                                    (fresh_controller example_properties))
              peer_a 0)
    as (c' & Hrun & Hlist & _).
  { simpl. apply NoDup_cons. split; [|apply NoDup_singleton].
    rewrite list_elem_of_singleton. discriminate. }
  exists c'. split; [exact Hrun|]. rewrite Hlist. reflexivity.
Defined.

(** X10.  [LeResolvingListContainsDevice] answers from the connect list: in
    every state it returns what [LeConnectListContainsDevice] returns, and
    an entry put on the resolving list by [LeResolvingListAddDevice] does
    not change its answer. *)
Theorem LeResolvingListContainsDevice_reads_connect_list :
  forall (c : LinkLayerController) (addr : Address) (addr_type : Z),
    LeResolvingListContainsDevice addr addr_type c
    = LeConnectListContainsDevice addr addr_type c
    /\ forall other other_type peerIrk localIrk c',
        LeResolvingListAddDevice other other_type peerIrk localIrk c
        = Returns tt c' ->
        exists answer,
          LeResolvingListContainsDevice addr addr_type c = Returns answer c
          /\ LeResolvingListContainsDevice addr addr_type c'
             = Returns answer c'.
Proof.
  intros c addr addr_type. split.
  - unfold LeResolvingListContainsDevice, LeConnectListContainsDevice.
    member_unfold. f_equal.
    induction (le_connect_list_ c) as [|[a t] l IH]; [done|].
    simpl. rewrite IH. f_equal.
    destruct (Z.eqb_spec a addr) as [->|Ha];
      destruct (Z.eqb_spec t addr_type) as [->|Ht]; simpl;
      case_bool_decide; congruence.
  - intros other other_type peerIrk localIrk c' Hadd.
    eexists. split; [reflexivity|].
    unfold LeResolvingListContainsDevice. member_unfold.
    assert (le_connect_list_ c' = le_connect_list_ c) as ->; [|done].
    unfold LeResolvingListAddDevice in Hadd. member_unfold.
    destruct (connect_list_index _ _ _ _) as [i|].
    + destruct (i <? _)%nat; [|discriminate].
      injection Hadd as <-. by destruct c.
    + injection Hadd as <-. by destruct c.
Qed.

Lemma LeResolvingListContainsDevice_reads_connect_list_witness :
  exists c',
    LeResolvingListAddDevice peer_a 0 (replicate 16 1) (replicate 16 2)
                             (fresh_controller example_properties)
    = Returns tt c'
    /\ LeResolvingListContainsDevice peer_a 0 c' = Returns false c'.
Proof.
  exists (set_le_resolving_list_
            [(peer_a, 0, replicate 16 1, replicate 16 2)]
            (fresh_controller example_properties)).
  split; [reflexivity|].
  destruct (LeResolvingListContainsDevice_reads_connect_list
              (fresh_controller example_properties) peer_a 0) as [_ Hadd].
  destruct (Hadd peer_a 0 (replicate 16 1) (replicate 16 2) _ eq_refl)
    as (answer & Hbefore & Hafter).
  injection Hbefore as <-. exact Hafter.
Defined.

(** ** LE encryption, continued *)

Lemma link_layer_packet_sent_keeps packet phy c c' :
  link_layer_packet_sent packet phy c c' ->
  connections_ c' = connections_ c /\ events_sent c' = events_sent c
  /\ security_manager_ c' = security_manager_ c.
Proof.
  unfold link_layer_packet_sent.
  destruct (schedule_task_ c); intros ->; by destruct c.
Qed.

Lemma SendLeLinkLayerPacket_sent packet c :
  exists c', SendLeLinkLayerPacket packet c = Returns tt c'
             /\ link_layer_packet_sent packet Phy.LOW_ENERGY c c'.
Proof.
  unfold SendLeLinkLayerPacket, ScheduleTaskOf, link_layer_packet_sent.
  member_unfold. simpl.
  destruct (schedule_task_ c) as [received|] eqn:E; simpl; eauto.
Qed.

(** The packet of both LE replies on a live handle. *)
Lemma send_le_encrypt_connection_response_sent handle ltk c conn :
  AclConnectionHandler.acl_connections_ (connections_ c) !! handle = Some conn ->
  exists c',
    send_le_encrypt_connection_response handle ltk c = Returns tt c'
    /\ link_layer_packet_sent
         (Create (GetAddress (AclConnectionHandler.own_address_ conn))
                 (GetAddress (AclConnectionHandler.address_ conn))
                 (LeEncryptConnectionResponse (replicate 8 0) 0 ltk))
         Phy.LOW_ENERGY c c'.
Proof.
  intros Hconn. unfold send_le_encrypt_connection_response. member_unfold.
  unfold AclConnectionHandlerOps.GetOwnAddress, AclConnectionHandler.GetAddress.
  rewrite Hconn. simpl. apply SendLeLinkLayerPacket_sent.
Qed.

(** An [LeEncryptConnectionResponse] from the peer of a live connection. *)
Lemma IncomingLeEncryptConnectionResponse_event r source destination rand ediv ltk :
  let handle :=
    AclConnectionHandler.GetHandleOnlyAddress (connections_ r) source in
  let status :=
    if bool_decide (ltk = replicate 16 0)
    then ErrorCode.AUTHENTICATION_FAILURE else ErrorCode.SUCCESS in
  handle <> acl.kReservedHandle ->
  exists r',
    IncomingLeEncryptConnectionResponse
      (Create source destination (LeEncryptConnectionResponse rand ediv ltk)) r
    = Returns tt r'
    /\ events_sent r'
       = events_sent r
         ++ [if AclConnectionHandler.IsEncrypted (connections_ r) handle
             then EncryptionKeyRefreshComplete status handle
             else EncryptionChange status handle EncryptionEnabled.ON]
    /\ AclConnectionHandler.IsEncrypted (connections_ r') handle = true.
Proof.
  intros handle status Hlive.
  unfold IncomingLeEncryptConnectionResponse, send_event_. member_unfold.
  cbn [GetSourceAddress GetPayload Create]. fold handle.
  pose proof Hlive as Hne. apply Z.eqb_neq in Hne. rewrite Hne.
  destruct (AclConnectionHandler.IsEncrypted (connections_ r) handle)
    eqn:Hencrypted; eexists; (split; [reflexivity|]); split.
  - by destruct r.
  - by destruct r.
  - by destruct r.
  - destruct (GetHandleOnlyAddress_live _ _ Hlive) as (conn & Hconn & _).
    destruct r. simpl in *. apply IsEncrypted_Encrypt. eauto.
Qed.

(** X11.  On a live handle [LeLongTermKeyRequestReply] returns [SUCCESS],
    leaves the connection encrypted and hands one
    [LeEncryptConnectionResponse] with the LTK to the LE phy.  The first
    reply on a connection that is not encrypted reports [EncryptionChange];
    every later reply reports [EncryptionKeyRefreshComplete] and keeps the
    connection table.  On a handle that is not live it returns
    [UNKNOWN_CONNECTION] and changes nothing. *)
Theorem LeLongTermKeyRequestReply_result :
  forall (c : LinkLayerController) (handle : Z) (ltk later : Octets),
    (AclConnectionHandler.HasHandle (connections_ c) handle = false ->
     LeLongTermKeyRequestReply handle ltk c
     = Returns ErrorCode.UNKNOWN_CONNECTION c)
    /\ (AclConnectionHandler.HasHandle (connections_ c) handle = true ->
        exists c1 c2,
          LeLongTermKeyRequestReply handle ltk c = Returns ErrorCode.SUCCESS c1
          /\ events_sent c1
             = events_sent c
               ++ [if AclConnectionHandler.IsEncrypted (connections_ c) handle
                   then EncryptionKeyRefreshComplete ErrorCode.SUCCESS handle
                   else EncryptionChange ErrorCode.SUCCESS handle
                                         EncryptionEnabled.ON]
          /\ AclConnectionHandler.IsEncrypted (connections_ c1) handle = true
          /\ LeLongTermKeyRequestReply handle later c1
             = Returns ErrorCode.SUCCESS c2
          /\ events_sent c2
             = events_sent c1
               ++ [EncryptionKeyRefreshComplete ErrorCode.SUCCESS handle]
          /\ connections_ c2 = connections_ c1).
Proof.
  intros c handle ltk later. split; intros Hhandle.
  - unfold LeLongTermKeyRequestReply. member_unfold. by rewrite Hhandle.
  - assert (forall c0 key,
               AclConnectionHandler.HasHandle (connections_ c0) handle = true ->
               exists c',
                 LeLongTermKeyRequestReply handle key c0
                 = Returns ErrorCode.SUCCESS c'
                 /\ events_sent c'
                    = events_sent c0
                      ++ [if AclConnectionHandler.IsEncrypted (connections_ c0) handle
                          then EncryptionKeyRefreshComplete ErrorCode.SUCCESS handle
                          else EncryptionChange ErrorCode.SUCCESS handle
                                                EncryptionEnabled.ON]
                 /\ connections_ c'
                    = (if AclConnectionHandler.IsEncrypted (connections_ c0) handle
                       then connections_ c0
                       else AclConnectionHandler.Encrypt (connections_ c0) handle))
      as Hreply.
    { intros c0 key Hlive.
      pose proof Hlive as Hconn.
      apply bool_decide_eq_true in Hconn as [conn Hconn].
      unfold LeLongTermKeyRequestReply, send_event_. member_unfold.
      rewrite Hlive. simpl.
      destruct (AclConnectionHandler.IsEncrypted (connections_ c0) handle)
        eqn:Hencrypted.
      - match goal with
        | |- context [send_le_encrypt_connection_response handle key ?s] =>
            destruct (send_le_encrypt_connection_response_sent handle key s conn)
              as (c' & Hrun & Hsent); [by destruct c0|]
        end.
        rewrite Hrun. exists c'. split; [done|].
        apply link_layer_packet_sent_keeps in Hsent as (-> & -> & _).
        by destruct c0.
      - match goal with
        | |- context [send_le_encrypt_connection_response handle key ?s] =>
            destruct (send_le_encrypt_connection_response_sent
                        handle key s
                        {| AclConnectionHandler.address_ :=
                             AclConnectionHandler.address_ conn;
                           AclConnectionHandler.own_address_ :=
                             AclConnectionHandler.own_address_ conn;
                           AclConnectionHandler.type_ :=
                             AclConnectionHandler.type_ conn;
                           AclConnectionHandler.encrypted_ := true |})
              as (c' & Hrun & Hsent);
              [destruct c0; simpl in *; by rewrite lookup_alter_eq, Hconn|]
        end.
        rewrite Hrun. exists c'. split; [done|].
        apply link_layer_packet_sent_keeps in Hsent as (-> & -> & _).
        by destruct c0. }
    destruct (Hreply c ltk Hhandle) as (c1 & Hrun1 & Hevents1 & Hconnections1).
    assert (AclConnectionHandler.IsEncrypted (connections_ c1) handle = true)
      as Hencrypted1.
    { rewrite Hconnections1.
      destruct (AclConnectionHandler.IsEncrypted (connections_ c) handle)
        eqn:Hencrypted; [done|].
      apply IsEncrypted_Encrypt. by apply bool_decide_eq_true in Hhandle. }
    assert (AclConnectionHandler.HasHandle (connections_ c1) handle = true)
      as Hhandle1.
    { unfold AclConnectionHandler.IsEncrypted in Hencrypted1.
      apply bool_decide_eq_true.
      by destruct (AclConnectionHandler.acl_connections_ (connections_ c1)
                     !! handle). }
    destruct (Hreply c1 later Hhandle1) as (c2 & Hrun2 & Hevents2 & Hconnections2).
    rewrite Hencrypted1 in Hevents2, Hconnections2.
    exists c1, c2. done.
Qed.

Lemma LeLongTermKeyRequestReply_result_witness :
  exists c1 c2,
    LeLongTermKeyRequestReply 1 (replicate 16 7) (connected_controller false)
    = Returns ErrorCode.SUCCESS c1
    /\ events_sent c1
       = [EncryptionChange ErrorCode.SUCCESS 1 EncryptionEnabled.ON]
    /\ LeLongTermKeyRequestReply 1 (replicate 16 9) c1
       = Returns ErrorCode.SUCCESS c2
    /\ events_sent c2
       = [EncryptionChange ErrorCode.SUCCESS 1 EncryptionEnabled.ON;
          EncryptionKeyRefreshComplete ErrorCode.SUCCESS 1].
Proof.
  destruct (LeLongTermKeyRequestReply_result
              (connected_controller false) 1 (replicate 16 7) (replicate 16 9))
    as [_ Hlive].
  destruct (Hlive eq_refl)
    as (c1 & c2 & Hrun1 & Hevents1 & _ & Hrun2 & Hevents2 & _).
  exists c1, c2. split; [exact Hrun1|]. split; [exact Hevents1|].
  split; [exact Hrun2|]. rewrite Hevents2, Hevents1. reflexivity.
Defined.

(** X12.  The response that [LeLongTermKeyRequestNegativeReply] transmits on
    a live handle goes from the own address of the connection to its peer
    and carries a zero LTK.  A controller that has a connection to the
    sender and receives it reports [AUTHENTICATION_FAILURE] and still marks
    its connection encrypted. *)
Theorem LeLongTermKeyRequestNegativeReply_rejects :
  forall (c : LinkLayerController) (handle : Z)
         (conn : AclConnectionHandler.AclConnection),
    AclConnectionHandler.acl_connections_ (connections_ c) !! handle
    = Some conn ->
    exists c' response,
      LeLongTermKeyRequestNegativeReply handle c = Returns ErrorCode.SUCCESS c'
      /\ link_layer_packet_sent response Phy.LOW_ENERGY c c'
      /\ GetSourceAddress response
         = GetAddress (AclConnectionHandler.own_address_ conn)
      /\ GetDestinationAddress response
         = GetAddress (AclConnectionHandler.address_ conn)
      /\ forall r : LinkLayerController,
          let remote_handle :=
            AclConnectionHandler.GetHandleOnlyAddress
              (connections_ r)
              (GetAddress (AclConnectionHandler.own_address_ conn)) in
          remote_handle <> acl.kReservedHandle ->
          exists r',
            IncomingLeEncryptConnectionResponse response r = Returns tt r'
            /\ events_sent r'
               = events_sent r
                 ++ [if AclConnectionHandler.IsEncrypted
                          (connections_ r) remote_handle
                     then EncryptionKeyRefreshComplete
                            ErrorCode.AUTHENTICATION_FAILURE remote_handle
                     else EncryptionChange
                            ErrorCode.AUTHENTICATION_FAILURE remote_handle
                            EncryptionEnabled.ON]
            /\ AclConnectionHandler.IsEncrypted (connections_ r') remote_handle
               = true.
Proof.
  intros c handle conn Hconn.
  destruct (send_le_encrypt_connection_response_sent
              handle (replicate 16 0) c conn Hconn) as (c' & Hrun & Hsent).
  exists c'. eexists. split; [|split; [exact Hsent|]].
  - unfold LeLongTermKeyRequestNegativeReply. member_unfold.
    unfold AclConnectionHandler.HasHandle.
    rewrite bool_decide_eq_true_2 by eauto. cbn [negb]. by rewrite Hrun.
  - split; [reflexivity|]. split; [reflexivity|].
    intros r remote_handle Hlive.
    destruct (IncomingLeEncryptConnectionResponse_event
                r (GetAddress (AclConnectionHandler.own_address_ conn))
                (GetAddress (AclConnectionHandler.address_ conn))
                (replicate 8 0) 0 (replicate 16 0) Hlive)
      as (r' & Hincoming & Hevents & Hencrypted).
    exists r'. rewrite bool_decide_eq_true_2 in Hevents by done. done.
Qed.

Lemma LeLongTermKeyRequestNegativeReply_rejects_witness :
  exists c' response r',
    LeLongTermKeyRequestNegativeReply 1 (connected_controller false)
    = Returns ErrorCode.SUCCESS c'
    /\ remote_sent c' = [(response, Phy.LOW_ENERGY)]
    /\ IncomingLeEncryptConnectionResponse response (peer_controller false)
       = Returns tt r'
    /\ events_sent r'
       = [EncryptionChange ErrorCode.AUTHENTICATION_FAILURE 2
                           EncryptionEnabled.ON]
    /\ AclConnectionHandler.IsEncrypted (connections_ r') 2 = true.
Proof.
  destruct (LeLongTermKeyRequestNegativeReply_rejects
              (connected_controller false) 1 _ eq_refl)
    as (c' & response & Hrun & Hsent & _ & _ & Hremote).
  destruct (Hremote (peer_controller false)) as (r' & Hincoming & Hevents & Hencrypted);
    [vm_compute; discriminate|].
  exists c', response, r'. split; [exact Hrun|].
  split; [rewrite Hsent; reflexivity|]. split; [exact Hincoming|].
  split; [exact Hevents|exact Hencrypted].
Defined.

(** ** BR/EDR encryption, continued *)

Lemma HandleSetConnectionEncryption_keeps_connections c peer handle
      encryption_enable :
  exists c',
    HandleSetConnectionEncryption peer handle encryption_enable c
    = Returns tt c'
    /\ connections_ c' = connections_ c.
Proof.
  unfold HandleSetConnectionEncryption, send_event_. member_unfold.
  destruct (_ && _).
  { eexists. split; [reflexivity|]. by destruct c. }
  destruct (SecurityManager.ReadKey (security_manager_ c) peer =? 0)
    eqn:Hcount; [eauto|].
  destruct (SecurityManager.GetKey (security_manager_ c) peer) as [key|]
    eqn:Hkey.
  - destruct (SendLinkLayerPacket_sent
                (Create (properties_GetAddress (properties_ c)) peer
                        (EncryptConnection key)) c) as (c' & Hrun & Hsent).
    exists c'. split; [exact Hrun|].
    by apply link_layer_packet_sent_keeps in Hsent as (-> & _).
  - apply ReadKey_zero in Hkey. apply Z.eqb_neq in Hcount. done.
Qed.

(** X13.  The BR/EDR encryption path never marks a connection encrypted:
    [SetConnectionEncryption], the [HandleSetConnectionEncryption] it
    schedules and [IncomingEncryptConnectionResponse] always return and
    leave the connection table as it was.  The response of a connected
    peer is reported as [EncryptionChange] with [SUCCESS] and [ON]
    nevertheless, and a response of anyone else changes nothing. *)
Theorem bredr_encryption_keeps_connections :
  forall (c : LinkLayerController) (handle encryption_enable : Z)
         (peer : Address) (incoming : LinkLayerPacket),
    (exists code c',
        SetConnectionEncryption handle encryption_enable c = Returns code c'
        /\ connections_ c' = connections_ c)
    /\ (exists c',
           HandleSetConnectionEncryption peer handle encryption_enable c
           = Returns tt c'
           /\ connections_ c' = connections_ c)
    /\ (exists c',
           IncomingEncryptConnectionResponse incoming c = Returns tt c'
           /\ connections_ c' = connections_ c
           /\ let remote_handle :=
                AclConnectionHandler.GetHandleOnlyAddress
                  (connections_ c) (GetSourceAddress incoming) in
              (remote_handle = acl.kReservedHandle -> c' = c)
              /\ (remote_handle <> acl.kReservedHandle ->
                  events_sent c'
                  = events_sent c
                    ++ [EncryptionChange ErrorCode.SUCCESS remote_handle
                                         EncryptionEnabled.ON])).
Proof.
  intros c handle encryption_enable peer incoming. split; [|split].
  - unfold SetConnectionEncryption. member_unfold.
    destruct (AclConnectionHandler.HasHandle (connections_ c) handle)
      eqn:Hlive; [|simpl; eauto].
    simpl. destruct (_ && _); [eauto|].
    destruct (HasHandle_GetAddress _ _ Hlive) as [remote ->].
    destruct (_ =? 0); [eauto|].
    unfold ScheduleTask, ScheduleTaskOf. member_unfold.
    destruct (schedule_task_ c) as [received|] eqn:Hscheduler.
    + do 2 eexists. split; [reflexivity|]. by destruct c.
    + simpl.
      destruct (HandleSetConnectionEncryption_keeps_connections
                  c (GetAddress remote) handle encryption_enable)
        as (c' & -> & Hkeeps).
      eauto.
  - apply HandleSetConnectionEncryption_keeps_connections.
  - unfold IncomingEncryptConnectionResponse, send_event_. member_unfold.
    destruct (_ =? acl.kReservedHandle) eqn:Hhandle.
    + exists c. split; [reflexivity|]. split; [reflexivity|].
      split; [done|]. intros Hlive. apply Z.eqb_eq in Hhandle. done.
    + eexists. split; [reflexivity|]. split; [by destruct c|].
      split; [|intros _; by destruct c].
      intros Hreserved. apply Z.eqb_neq in Hhandle. done.
Qed.

(** The response of [peer_a] to the controller connected to it: the event
    says [ON], the connection is not encrypted. *)
Lemma bredr_encryption_keeps_connections_witness :
  exists c',
    IncomingEncryptConnectionResponse
      (Create peer_a 0x010203040506 (EncryptConnection (replicate 16 7)))
      (paired_controller false)
    = Returns tt c'
    /\ events_sent c'
       = [EncryptionChange ErrorCode.SUCCESS 1 EncryptionEnabled.ON]
    /\ AclConnectionHandler.IsEncrypted (connections_ c') 1 = false.
Proof.
  destruct (bredr_encryption_keeps_connections
              (paired_controller false) 1 1 peer_a
              (Create peer_a 0x010203040506
                      (EncryptConnection (replicate 16 7))))
    as (_ & _ & c' & Hrun & Hconnections & _ & Hevents).
  exists c'. split; [exact Hrun|]. split.
  - rewrite Hevents; [reflexivity|]. vm_compute. discriminate.
  - rewrite Hconnections. reflexivity.
Defined.

(** ** Simple pairing, continued *)

(** X14.  When the peer is the one being authenticated,
    [UserConfirmationRequestReply] stores the link key 1, 2, ..., 16 for it
    and returns [SUCCESS].  A registered scheduler receives three tasks
    with delays 5, 5 and 15 ms; running them in this order, or having no
    scheduler, sends [SimplePairingComplete], [LinkKeyNotification] with the
    key and [AuthenticationComplete] for the handle being authenticated, in
    this order. *)
Theorem UserConfirmationRequestReply_accepted :
  forall (c : LinkLayerController) (peer : Address),
    SecurityManager.GetAuthenticationAddress (security_manager_ c) = peer ->
    let key_vec := [1; 2; 3; 4; 5; 6; 7; 8; 9; 10; 11; 12; 13; 14; 15; 16] in
    let events :=
      [ SimplePairingComplete ErrorCode.SUCCESS peer;
        LinkKeyNotification peer key_vec KeyType.AUTHENTICATED_P256;
        AuthenticationComplete
          ErrorCode.SUCCESS
          (SecurityManager.GetAuthenticationHandle (security_manager_ c)) ] in
    exists c',
      UserConfirmationRequestReply peer c = Returns ErrorCode.SUCCESS c'
      /\ SecurityManager.GetKey (security_manager_ c') peer = Some key_vec
      /\ (schedule_task_ c = None ->
          events_sent c' = events_sent c ++ events)
      /\ (forall received,
             schedule_task_ c = Some received ->
             exists tasks c'',
               schedule_task_ c' = Some (received ++ tasks)
               /\ map fst tasks = [5; 5; 15]
               /\ events_sent c' = events_sent c
               /\ for_each (map snd tasks) run_callback c' = Returns tt c''
               /\ events_sent c'' = events_sent c ++ events).
Proof.
  intros c peer Hpeer key_vec events. subst key_vec events.
  unfold UserConfirmationRequestReply. member_unfold.
  rewrite Hpeer, Z.eqb_refl. simpl.
  unfold ScheduleTask, ScheduleTaskOf. member_unfold.
  destruct (schedule_task_ c) as [received|] eqn:Hscheduler.
  - destruct c as [? ? s ? ? ? ? ? ? ?]. simpl in *. subst.
    eexists. split; [reflexivity|]. simpl.
    split; [apply lookup_insert_eq|]. split; [done|].
    intros received' [= <-]. do 2 eexists.
    rewrite <- !app_assoc. simpl.
    split; [reflexivity|]. split; [reflexivity|]. split; [reflexivity|].
    cbn [map snd for_each].
    unfold run_callback, call_channel, AuthenticateRemoteStage2, send_event_.
    member_unfold. simpl.
    rewrite Z.eqb_refl. simpl. split; [reflexivity|].
    simpl. by rewrite <- !app_assoc.
  - destruct c as [? ? s ? ? ? ? ? ? ?]. simpl in *. subst. simpl.
    unfold AuthenticateRemoteStage2, send_event_. member_unfold. simpl.
    rewrite Z.eqb_refl. simpl.
    eexists. split; [reflexivity|]. simpl.
    split; [apply lookup_insert_eq|]. split; [|done].
    intros _. by rewrite <- !app_assoc.
Qed.

Lemma UserConfirmationRequestReply_accepted_witness :
  exists c',
    UserConfirmationRequestReply peer_a authenticating_controller
    = Returns ErrorCode.SUCCESS c'
    /\ events_sent c'
       = [ SimplePairingComplete ErrorCode.SUCCESS peer_a;
           LinkKeyNotification
             peer_a [1; 2; 3; 4; 5; 6; 7; 8; 9; 10; 11; 12; 13; 14; 15; 16]
             KeyType.AUTHENTICATED_P256;
           AuthenticationComplete ErrorCode.SUCCESS 1 ].
Proof.
  destruct (UserConfirmationRequestReply_accepted
              authenticating_controller peer_a eq_refl)
    as (c' & Hrun & _ & Hevents & _).
  exists c'. split; [exact Hrun|]. rewrite Hevents; reflexivity.
Defined.

(** X15.  When the peer is the one being authenticated,
    [IoCapabilityRequestNegativeReply] forgets the IO capabilities, so that
    no pairing type can be selected, and transmits one
    [IoCapabilityNegativeResponse] with the reason from the own address to
    the peer.  A controller that receives this response while it is
    authenticating the sender forgets its capabilities too and reports
    nothing; while it is authenticating anyone else the assertion of
    [IncomingIoCapabilityNegativeResponsePacket] fails. *)
Theorem IoCapabilityRequestNegativeReply_round_trip :
  forall (c : LinkLayerController) (peer : Address) (reason : ErrorCode.t),
    SecurityManager.GetAuthenticationAddress (security_manager_ c) = peer ->
    let own := properties_GetAddress (properties_ c) in
    let response := Create own peer (IoCapabilityNegativeResponse reason) in
    exists c',
      IoCapabilityRequestNegativeReply peer reason c
      = Returns ErrorCode.SUCCESS c'
      /\ link_layer_packet_sent
           response Phy.BR_EDR
           (set_security_manager_
              (SecurityManager.InvalidateIoCapabilities (security_manager_ c)) c)
           c'
      /\ (forall table,
             SecurityManager.GetSimplePairingType table (security_manager_ c')
             = PairingType.INVALID)
      /\ forall r : LinkLayerController,
          (SecurityManager.GetAuthenticationAddress (security_manager_ r) = own ->
           exists r',
             IncomingIoCapabilityNegativeResponsePacket response r
             = Returns tt r'
             /\ events_sent r' = events_sent r
             /\ forall table,
                 SecurityManager.GetSimplePairingType
                   table (security_manager_ r')
                 = PairingType.INVALID)
          /\ (SecurityManager.GetAuthenticationAddress (security_manager_ r)
              <> own ->
              IncomingIoCapabilityNegativeResponsePacket response r
              = Aborts AssertionFailed).
Proof.
  intros c peer reason Hpeer own response.
  unfold IoCapabilityRequestNegativeReply. member_unfold.
  rewrite Hpeer, Z.eqb_refl. cbn [negb].
  match goal with
  | |- context [SendLinkLayerPacket ?packet ?s] =>
      destruct (SendLinkLayerPacket_sent packet s) as (c' & Hrun & Hsent)
  end.
  exists c'. split.
  { replace (properties_ (set_security_manager_ _ c)) with (properties_ c)
      by (by destruct c).
    replace (properties_ (set_security_manager_ _ c)) with (properties_ c)
      in Hrun by (by destruct c).
    by rewrite Hrun. }
  split.
  { replace (properties_ (set_security_manager_ _ c)) with (properties_ c)
      in Hsent by (by destruct c).
    exact Hsent. }
  split.
  { intros table.
    apply link_layer_packet_sent_keeps in Hsent as (_ & _ & ->).
    by destruct c. }
  intros r. split.
  - intros Hr. unfold IncomingIoCapabilityNegativeResponsePacket.
    member_unfold. cbn [GetSourceAddress response Create].
    rewrite Hr, Z.eqb_refl.
    eexists. split; [reflexivity|]. split; by destruct r.
  - intros Hr. unfold IncomingIoCapabilityNegativeResponsePacket.
    member_unfold. cbn [GetSourceAddress response Create].
    apply Z.eqb_neq in Hr. by rewrite Hr.
Qed.

Lemma IoCapabilityRequestNegativeReply_round_trip_witness :
  exists c',
    IoCapabilityRequestNegativeReply
      peer_a ErrorCode.AUTHENTICATION_FAILURE authenticating_controller
    = Returns ErrorCode.SUCCESS c'
    /\ map fst (remote_sent c')
       = [Create 0x010203040506 peer_a
                 (IoCapabilityNegativeResponse ErrorCode.AUTHENTICATION_FAILURE)]
    /\ IncomingIoCapabilityNegativeResponsePacket
         (Create 0x010203040506 peer_a
                 (IoCapabilityNegativeResponse ErrorCode.AUTHENTICATION_FAILURE))
         authenticating_controller
       = Aborts AssertionFailed.
Proof.
  destruct (IoCapabilityRequestNegativeReply_round_trip
              authenticating_controller peer_a
              ErrorCode.AUTHENTICATION_FAILURE eq_refl)
    as (c' & Hrun & Hsent & _ & Hremote).
  exists c'. split; [exact Hrun|]. split; [rewrite Hsent; reflexivity|].
  apply (Hremote authenticating_controller). vm_compute. discriminate.
Defined.

(** X16.  [LinkKeyRequestReply] stores the key and schedules
    [AuthenticateRemoteStage2] for the peer whoever the peer is, and the
    check is made by the assertion of that stage.  For the peer being
    authenticated the stage reports [AuthenticationComplete] with [SUCCESS]
    for the handle being authenticated; for any other peer the assertion
    fails, inside the call without a scheduler and when the task runs with
    one. *)
Theorem LinkKeyRequestReply_stage2 :
  forall (c : LinkLayerController) (peer : Address) (key : Octets),
    let authenticated :=
      SecurityManager.GetAuthenticationAddress (security_manager_ c) in
    let completion :=
      AuthenticationComplete
        ErrorCode.SUCCESS
        (SecurityManager.GetAuthenticationHandle (security_manager_ c)) in
    (schedule_task_ c = None ->
     (authenticated <> peer ->
      LinkKeyRequestReply peer key c = Aborts AssertionFailed)
     /\ (authenticated = peer ->
         exists c',
           LinkKeyRequestReply peer key c = Returns ErrorCode.SUCCESS c'
           /\ events_sent c' = events_sent c ++ [completion]
           /\ SecurityManager.GetKey (security_manager_ c') peer = Some key))
    /\ (forall received,
           schedule_task_ c = Some received ->
           exists c',
             LinkKeyRequestReply peer key c = Returns ErrorCode.SUCCESS c'
             /\ schedule_task_ c'
                = Some (received ++ [(5, CallAuthenticateRemoteStage2 peer)])
             /\ events_sent c' = events_sent c
             /\ (authenticated <> peer ->
                 run_callback (CallAuthenticateRemoteStage2 peer) c'
                 = Aborts AssertionFailed)
             /\ (authenticated = peer ->
                 exists c'',
                   run_callback (CallAuthenticateRemoteStage2 peer) c'
                   = Returns tt c''
                   /\ events_sent c'' = events_sent c ++ [completion])).
Proof.
  intros c peer key authenticated completion. subst authenticated completion.
  unfold LinkKeyRequestReply, ScheduleTask, ScheduleTaskOf. member_unfold.
  destruct c as [? ? s ? ? ? scheduler ? ? ?]. simpl.
  unfold SecurityManager.GetAuthenticationAddress,
    SecurityManager.GetAuthenticationHandle.
  split.
  - intros ->. cbn [run_callback].
    unfold AuthenticateRemoteStage2, send_event_. member_unfold. simpl.
    split.
    + intros Hpeer. apply Z.eqb_neq in Hpeer. by rewrite Hpeer.
    + intros ->. rewrite Z.eqb_refl. eexists. split; [reflexivity|].
      simpl. split; [reflexivity|]. apply lookup_insert_eq.
  - intros received ->. eexists. split; [reflexivity|]. simpl.
    split; [reflexivity|]. split; [reflexivity|].
    unfold AuthenticateRemoteStage2, send_event_. member_unfold. simpl.
    split.
    + intros Hpeer. apply Z.eqb_neq in Hpeer. by rewrite Hpeer.
    + intros ->. rewrite Z.eqb_refl. eexists. split; reflexivity.
Qed.

(** The host answers the link-key request for [peer_b] while [peer_a] is
    being authenticated. *)
Lemma LinkKeyRequestReply_stage2_witness :
  LinkKeyRequestReply peer_b (replicate 16 7) authenticating_controller
  = Aborts AssertionFailed.
Proof.
  apply (LinkKeyRequestReply_stage2
           authenticating_controller peer_b (replicate 16 7));
    [reflexivity|vm_compute; discriminate].
Defined.

(** ** LE connection update *)

(** The last condition of [LeConnectionUpdateComplete] on parameters that
    passed the ones before it. *)
Lemma supervision_timeout_condition latency interval_max supervision_timeout :
  0 <= latency <= 0x1F3 -> 0 <= interval_max <= 0xC80 ->
  (supervision_timeout
   <=? to_int (to_int (to_int ((1 + latency) * interval_max) * 10) / 4) / 10)
  = false
  <-> (1 + latency) * interval_max < 4 * supervision_timeout.
Proof.
  intros Hlatency Hmax.
  assert (0 <= (1 + latency) * interval_max <= 500 * 3200) as Hproduct by nia.
  set (product := (1 + latency) * interval_max) in *. clearbody product.
  rewrite (to_int_small product) by lia.
  rewrite (to_int_small (product * 10)) by lia.
  rewrite (to_int_small (product * 10 / 4))
    by (Z.div_mod_to_equations; lia).
  rewrite Z.leb_gt. Z.div_mod_to_equations. lia.
Qed.

(** X17.  For 16-bit parameters the event of [LeConnectionUpdateComplete]
    carries [SUCCESS] exactly when the handle is live, 6 <= min <= max <=
    0xC80, the latency is at most 0x1F3, the supervision timeout is between
    0xA and 0xC80 and (1 + latency) * max < 4 * timeout.  It carries
    [UNKNOWN_CONNECTION] only when the parameters are valid, so invalid
    parameters are reported before an unknown handle; and the interval it
    carries lies between min and max whenever these are in order. *)
Theorem LeConnectionUpdateComplete_status :
  forall (connections : AclConnectionHandler.t)
         (connection_update : LeConnectionUpdateView),
    let handle := GetConnectionHandle connection_update in
    let interval_min := GetConnIntervalMin connection_update in
    let interval_max := GetConnIntervalMax connection_update in
    let latency := GetConnLatency connection_update in
    let supervision_timeout := GetSupervisionTimeout connection_update in
    let valid :=
      6 <= interval_min /\ interval_min <= interval_max
      /\ interval_max <= 0xC80 /\ latency <= 0x1F3
      /\ 0xA <= supervision_timeout <= 0xC80
      /\ (1 + latency) * interval_max < 4 * supervision_timeout in
    let complete := LeConnectionUpdateComplete connections connection_update in
    0 <= interval_min < 2 ^ 16 -> 0 <= interval_max < 2 ^ 16 ->
    0 <= latency < 2 ^ 16 -> 0 <= supervision_timeout < 2 ^ 16 ->
    (update_status complete = ErrorCode.SUCCESS
     <-> AclConnectionHandler.HasHandle connections handle = true /\ valid)
    /\ (update_status complete = ErrorCode.UNKNOWN_CONNECTION
        <-> AclConnectionHandler.HasHandle connections handle = false /\ valid)
    /\ (update_status complete = ErrorCode.INVALID_HCI_COMMAND_PARAMETERS
        <-> ~ valid)
    /\ (interval_min <= interval_max ->
        interval_min <= update_interval complete <= interval_max).
Proof.
  intros connections [handle interval_min interval_max latency timeout].
  cbn [GetConnectionHandle GetConnIntervalMin GetConnIntervalMax
       GetConnLatency GetSupervisionTimeout].
  intros Hmin Hmax Hlatency Htimeout.
  unfold LeConnectionUpdateComplete.
  cbn [GetConnectionHandle GetConnIntervalMin GetConnIntervalMax
       GetConnLatency GetSupervisionTimeout update_status update_interval].
  assert ((interval_min <? 6) || (0xC80 <? interval_max)
          || (interval_max <? interval_min) || (interval_max <? interval_min)
          || (0x1F3 <? latency)
          || (timeout <? 0xA) || (0xC80 <? timeout)
          || (timeout
              <=? to_int (to_int (to_int ((1 + latency) * interval_max) * 10) / 4)
                  / 10)
          = false
          <-> 6 <= interval_min /\ interval_min <= interval_max
              /\ interval_max <= 0xC80 /\ latency <= 0x1F3
              /\ 0xA <= timeout <= 0xC80
              /\ (1 + latency) * interval_max < 4 * timeout) as Hvalid.
  { rewrite !orb_false_iff, !Z.ltb_ge. split.
    - intros (((((((H1 & H2) & H3) & _) & H4) & H5) & H6) & H7).
      apply supervision_timeout_condition in H7; lia.
    - intros (H1 & H2 & H3 & H4 & H5 & H6).
      repeat split; try lia.
      apply supervision_timeout_condition; lia. }
  destruct (_ || _) eqn:Hchecks.
  - assert (~ (6 <= interval_min /\ interval_min <= interval_max
               /\ interval_max <= 0xC80 /\ latency <= 0x1F3
               /\ 0xA <= timeout <= 0xC80
               /\ (1 + latency) * interval_max < 4 * timeout)) as Hinvalid.
    { intros H. apply Hvalid in H. discriminate. }
    split; [split; [discriminate|tauto]|].
    split; [split; [discriminate|tauto]|].
    split; [tauto|].
    intros Horder. unfold to_uint16. rewrite to_int_small by lia.
    rewrite Z.mod_small; Z.div_mod_to_equations; lia.
  - pose proof (proj1 Hvalid eq_refl) as Hparameters.
    split; [|split; [|split]].
    + destruct (AclConnectionHandler.HasHandle connections handle);
        simpl; intuition congruence.
    + destruct (AclConnectionHandler.HasHandle connections handle);
        simpl; intuition congruence.
    + destruct (AclConnectionHandler.HasHandle connections handle);
        simpl; intuition congruence.
    + intros Horder. unfold to_uint16. rewrite to_int_small by lia.
      rewrite Z.mod_small; Z.div_mod_to_equations; lia.
Qed.

(** Parameters out of range on a handle that is not live are reported as
    invalid parameters. *)
Lemma LeConnectionUpdateComplete_status_witness :
  update_status
    (LeConnectionUpdateComplete
       (connection_to_a false)
       {| GetConnectionHandle := 7; GetConnIntervalMin := 5;
          GetConnIntervalMax := 40; GetConnLatency := 0;
          GetSupervisionTimeout := 100 |})
  = ErrorCode.INVALID_HCI_COMMAND_PARAMETERS.
Proof.
  apply (LeConnectionUpdateComplete_status
           (connection_to_a false)
           {| GetConnectionHandle := 7; GetConnIntervalMin := 5;
              GetConnIntervalMax := 40; GetConnLatency := 0;
              GetSupervisionTimeout := 100 |});
    simpl; lia.
Defined.

(** ** Page, continued *)




(** ** Advertising sets, continued *)

(** X19.  [SetLeExtendedAddress] and [SetLeExtendedAdvertisingData] index
    the advertising sets without a range check: a set number at or past
    the number of sets is undefined behaviour.  In range, they return
    [SUCCESS] and together give the set this address and this data; the
    set is enabled or disabled as before and every other set is as it
    was. *)
Theorem advertising_set_setters_unchecked :
  forall (c : LinkLayerController) (set : Z) (address : Address) (data : Octets),
    0 <= set ->
    (Z.of_nat (length (advertisers_ c)) <= set ->
     SetLeExtendedAddress set address c = Aborts UndefinedBehaviour
     /\ SetLeExtendedAdvertisingData set data c = Aborts UndefinedBehaviour)
    /\ (set < Z.of_nat (length (advertisers_ c)) ->
        exists before c1 c2 after,
          advertisers_ c !! Z.to_nat set = Some before
          /\ SetLeExtendedAddress set address c = Returns ErrorCode.SUCCESS c1
          /\ SetLeExtendedAdvertisingData set data c1
             = Returns ErrorCode.SUCCESS c2
          /\ advertisers_ c2 !! Z.to_nat set = Some after
          /\ GetAddress (LeAdvertiser.address_ after) = address
          /\ LeAdvertiser.advertisement_ after = data
          /\ LeAdvertiser.IsEnabled after = LeAdvertiser.IsEnabled before
          /\ forall i, i <> Z.to_nat set ->
                       advertisers_ c2 !! i = advertisers_ c !! i).
Proof.
  intros c set address data Hset. split.
  - intros Hpast.
    unfold SetLeExtendedAddress, SetLeExtendedAdvertisingData, on_advertiser.
    member_unfold. by rewrite (lookup_ge_None_2 (advertisers_ c)) by lia.
  - intros Hin.
    destruct (on_advertiser_in_range
                set (fun advertiser => LeAdvertiserOps.SetAddress advertiser address)
                c) as (before & Hbefore & Haddress); [lia|].
    pose proof (on_advertiser_length _ _ _ _ Haddress) as Hlength.
    match type of Haddress with
    | _ = Returns tt ?s =>
        destruct (on_advertiser_in_range
                    set (fun advertiser => LeAdvertiserOps.SetData advertiser data)
                    s) as (middle & Hmiddle & Hdata); [lia|]
    end.
    simpl in Hmiddle.
    rewrite list_lookup_insert_eq in Hmiddle
      by (by apply lookup_lt_Some in Hbefore).
    injection Hmiddle as <-.
    do 4 eexists. split; [exact Hbefore|].
    split; [unfold SetLeExtendedAddress; member_unfold; by rewrite Haddress|].
    split;
      [unfold SetLeExtendedAdvertisingData; member_unfold; by rewrite Hdata|].
    simpl. split.
    { apply list_lookup_insert_eq. rewrite length_insert.
      by apply lookup_lt_Some in Hbefore. }
    split; [reflexivity|]. split; [reflexivity|]. split; [reflexivity|].
    intros i Hi. by rewrite !list_lookup_insert_ne.
Qed.

Lemma advertising_set_setters_unchecked_witness :
  SetLeExtendedAddress 3 peer_a (fresh_controller example_properties)
  = Aborts UndefinedBehaviour
  /\ SetLeExtendedAdvertisingData 3 [2; 1; 6]
                                  (fresh_controller example_properties)
     = Aborts UndefinedBehaviour.
Proof.
  apply (advertising_set_setters_unchecked
           (fresh_controller example_properties) 3 peer_a [2; 1; 6]);
    simpl; lia.
Defined.

(** ** Resolving list, continued *)

Lemma connect_list_index_absent l k addr addr_type :
  (addr, addr_type) ∉ l -> connect_list_index l k addr addr_type = None.
Proof.
  revert k. induction l as [|[a t] l IH]; intros k Habsent; [done|].
  apply not_elem_of_cons in Habsent as [Hne Habsent]. simpl.
  destruct (Z.eqb_spec a addr) as [->|Ha];
    destruct (Z.eqb_spec t addr_type) as [->|Ht]; simpl;
    try done; by apply IH.
Qed.

Lemma connect_list_index_first l k addr addr_type n :
  l !! n = Some (addr, addr_type) ->
  (forall j, (j < n)%nat -> l !! j <> Some (addr, addr_type)) ->
  connect_list_index l k addr addr_type = Some (k + n)%nat.
Proof.
  revert k n. induction l as [|[a t] l IH]; intros k n Hn Hfirst; [done|].
  destruct n as [|n].
  - injection Hn as -> ->. simpl. rewrite !Z.eqb_refl. simpl.
    f_equal. lia.
  - simpl in Hn. simpl.
    assert ((a =? addr) && (t =? addr_type) = false) as ->.
    { apply not_true_is_false.
      intros [->%Z.eqb_eq ->%Z.eqb_eq]%andb_true_iff.
      by apply (Hfirst 0%nat); [lia|]. }
    rewrite (IH (S k) n Hn); [f_equal; lia|].
    intros j Hj. apply (Hfirst (S j)). lia.
Qed.

(** X20.  [LeResolvingListAddDevice] looks the device up on the connect
    list.  A device that is not there is appended to the resolving list on
    every call, so the resolving list can hold it more than once.  A device
    whose first connect-list entry is at index [i] overwrites entry [i] of
    the resolving list, and indexes past the end, which is undefined, when
    the resolving list has no entry [i]. *)
Theorem LeResolvingListAddDevice_indexes_by_connect_list :
  forall (c : LinkLayerController) (addr : Address) (addr_type : Z)
         (peerIrk localIrk : Octets),
    let new_tuple := (addr, addr_type, peerIrk, localIrk) in
    ((addr, addr_type) ∉ le_connect_list_ c ->
     (LeResolvingListAddDevice addr addr_type peerIrk localIrk ;;
      LeResolvingListAddDevice addr addr_type peerIrk localIrk) c
     = Returns tt
         (set_le_resolving_list_
            (le_resolving_list_ c ++ [new_tuple; new_tuple]) c))
    /\ (forall i,
           le_connect_list_ c !! i = Some (addr, addr_type) ->
           (forall j, (j < i)%nat ->
                      le_connect_list_ c !! j <> Some (addr, addr_type)) ->
           ((i < length (le_resolving_list_ c))%nat ->
            LeResolvingListAddDevice addr addr_type peerIrk localIrk c
            = Returns tt
                (set_le_resolving_list_
                   (<[i := new_tuple]> (le_resolving_list_ c)) c))
           /\ ((length (le_resolving_list_ c) <= i)%nat ->
               LeResolvingListAddDevice addr addr_type peerIrk localIrk c
               = Aborts UndefinedBehaviour)).
Proof.
  intros c addr addr_type peerIrk localIrk new_tuple. split.
  - intros Habsent. unfold LeResolvingListAddDevice. member_unfold.
    rewrite (connect_list_index_absent _ _ _ _ Habsent).
    replace (le_connect_list_ (set_le_resolving_list_ _ c))
      with (le_connect_list_ c) by (by destruct c).
    rewrite (connect_list_index_absent _ _ _ _ Habsent).
    f_equal. destruct c. simpl. by rewrite <- app_assoc.
  - intros i Hi Hfirst. unfold LeResolvingListAddDevice. member_unfold.
    rewrite (connect_list_index_first _ 0 _ _ i Hi Hfirst). simpl.
    split; intros Hlength.
    + apply Nat.ltb_lt in Hlength. by rewrite Hlength.
    + apply Nat.ltb_ge in Hlength. by rewrite Hlength.
Qed.

(** With [peer_a] first on the connect list and an empty resolving list,
    adding [peer_a] to the resolving list indexes past its end. *)
Lemma LeResolvingListAddDevice_indexes_by_connect_list_witness :
  LeResolvingListAddDevice
    peer_a 0 (replicate 16 1) (replicate 16 2)
    (set_le_connect_list_ [(peer_a, 0)] (fresh_controller example_properties))
  = Aborts UndefinedBehaviour.
Proof.
  destruct (LeResolvingListAddDevice_indexes_by_connect_list
              (set_le_connect_list_ [(peer_a, 0)]
                                    (fresh_controller example_properties))
              peer_a 0 (replicate 16 1) (replicate 16 2)) as [_ Hpresent].
  apply (Hpresent 0%nat).
  - reflexivity.
  - intros j Hj. lia.
  - simpl. lia.
Defined.

(** ** Simple pairing: the first stage *)

(** X21.  Without a scheduler and for the peer being authenticated,
    [IoCapabilityRequestReply] always returns [SUCCESS].  While no pairing
    type can be selected it asks the peer for its capabilities with one
    [IoCapabilityRequest] and sends no event; once a type is selected it
    runs the first stage with that type, never with [INVALID]: the host
    gets [UserPasskeyRequest] for [INPUT_PIN] and [UserConfirmationRequest]
    with the value 123456 for every other type, and the peer gets one
    [IoCapabilityResponse]. *)
Theorem IoCapabilityRequestReply_first_stage :
  forall (selection_table :
            SecurityManager.IoCapabilities -> SecurityManager.IoCapabilities ->
            PairingType.t)
         (c : LinkLayerController) (peer : Address)
         (io_capability oob_data_present_flag authentication_requirements : Z),
    SecurityManager.GetAuthenticationAddress (security_manager_ c) = peer ->
    schedule_task_ c = None ->
    let pairing_type :=
      SecurityManager.GetSimplePairingType
        selection_table
        (SecurityManager.SetLocalIoCapability
           (security_manager_ c) peer io_capability oob_data_present_flag
           authentication_requirements) in
    let own := properties_GetAddress (properties_ c) in
    exists c',
      IoCapabilityRequestReply
        selection_table peer io_capability oob_data_present_flag
        authentication_requirements c
      = Returns ErrorCode.SUCCESS c'
      /\ (pairing_type = PairingType.INVALID ->
          events_sent c' = events_sent c
          /\ remote_sent c'
             = remote_sent c
               ++ [(Create own peer
                           (IoCapabilityRequest
                              io_capability oob_data_present_flag
                              authentication_requirements),
                    Phy.BR_EDR)])
      /\ (pairing_type <> PairingType.INVALID ->
          events_sent c'
          = events_sent c
            ++ [match pairing_type with
                | PairingType.INPUT_PIN => UserPasskeyRequest peer
                | _ => UserConfirmationRequest peer 123456
                end]
          /\ remote_sent c'
             = remote_sent c
               ++ [(Create own peer
                           (IoCapabilityResponse
                              io_capability oob_data_present_flag
                              authentication_requirements),
                    Phy.BR_EDR)]).
Proof.
  intros selection_table c peer io oob auth Hpeer Hscheduler pairing_type own.
  subst own. unfold IoCapabilityRequestReply. member_unfold.
  fold pairing_type.
  unfold SendLinkLayerPacket, ScheduleTask, ScheduleTaskOf. member_unfold.
  destruct c as [? ? s ? ? ? scheduler ? ? ?]. simpl in *. subst scheduler.
  cbn [run_callback call_channel].
  unfold AuthenticateRemoteStage1, send_to_remote_, send_event_.
  member_unfold. simpl.
  unfold SecurityManager.GetAuthenticationAddress in *.
  clearbody pairing_type.
  destruct pairing_type; simpl; rewrite ?Hpeer, ?Z.eqb_refl; simpl;
    (eexists; split; [reflexivity|]); simpl; split; intros H;
    try done; try (split; reflexivity).
Qed.

(** With the peer's capabilities known and numeric comparison selected, the
    host is asked to confirm. *)
Lemma IoCapabilityRequestReply_first_stage_witness :
  exists c',
    IoCapabilityRequestReply
      confirm_always peer_a 1 0 3
      (set_security_manager_
         (SecurityManager.SetPeerIoCapability
            (security_manager_ authenticating_controller) peer_a 1 0 3)
         authenticating_controller)
    = Returns ErrorCode.SUCCESS c'
    /\ events_sent c' = [UserConfirmationRequest peer_a 123456].
Proof.
  destruct (IoCapabilityRequestReply_first_stage
              confirm_always
              (set_security_manager_
                 (SecurityManager.SetPeerIoCapability
                    (security_manager_ authenticating_controller) peer_a 1 0 3)
                 authenticating_controller)
              peer_a 1 0 3 eq_refl eq_refl)
    as (c' & Hrun & _ & Hstage).
  exists c'. split; [exact Hrun|].
  destruct Hstage as [Hevents _]; [vm_compute; discriminate|].
  rewrite Hevents. reflexivity.
Defined.
